(** * httpsnippet: request canonicalisation and target dispatch

    A shallow embedding of [src/index.ts] (class [HTTPSnippet], [addTarget],
    [addTargetClient], [extname]), of [src/helpers/headers.ts],
    [src/helpers/shell.ts] and [src/helpers/code-builder.ts], with the
    properties of the canonical request and of the target registry that
    the specification states.

    Conventions of the embedding.
    - A JavaScript string is a [string]: a sequence of bytes, read as UTF-8,
      so every string is well formed (it has no lone surrogate, on which
      [encodeURIComponent] and [querystring.stringify] throw).
      [toLowerCase] is modelled on the ASCII letters.
    - A plain JavaScript object used as a map is an association list that
      holds its own enumerable properties in the order in which
      [Object.keys] enumerates them: array-index keys first, in ascending
      numeric order, then the other keys in insertion order.  An object
      made by [{}] inherits from [Object.prototype], which is taken as the
      language defines it: an assignment to the key [__proto__] goes to the
      accessor that the object inherits and creates no property ([obj_set]),
      and a read of a key that the object does not own finds the methods
      of [Object.prototype] ([prop_get]).
    - The registry of targets and a target, where only membership and
      lookup of their own properties are observed, are [gmap]s.
    - Functions of the Node.js runtime that the code calls ([url.parse],
      [JSON.parse], the multipart renderer) are parameters of the
      canonicaliser; [url.parse] is taken on the URLs that it accepts (it
      throws on user information that does not decode).
      [querystring.stringify], [encodeURIComponent] and [url.format] are
      modelled after their documented algorithms. *)

From Stdlib Require Import String Ascii NArith List Bool Lia DecimalString.
From stdpp Require Import base option list strings gmap.

Import ListNotations.
Local Open Scope string_scope.
Local Open Scope list_scope.

(** ** JavaScript strings *)

Definition is_upper (c : ascii) : bool :=
  let n := N_of_ascii c in ((65 <=? n) && (n <=? 90))%N.

Definition lower_ascii (c : ascii) : ascii :=
  if is_upper c then ascii_of_N (N_of_ascii c + 32) else c.

(** [String.prototype.toLowerCase], on ASCII letters. *)
Fixpoint toLowerCase (s : string) : string :=
  match s with
  | EmptyString => EmptyString
  | String c r => String (lower_ascii c) (toLowerCase r)
  end.

(** Truthiness of a string value: every string but the empty one. *)
Definition truthy (s : string) : bool :=
  match s with EmptyString => false | _ => true end.

(** [x || ''] for a value that is a string or [null]. *)
Definition or_empty (x : option string) : string :=
  match x with Some s => s | None => "" end.

(** String concatenation of a value that is a string or [null]. *)
Definition str_of_nullable (x : option string) : string :=
  match x with Some s => s | None => "null" end.

(** [s.match(/^p/)] for a literal [p], as a boolean. *)
Definition startsWith (p s : string) : bool := String.prefix p s.

Definition first_char_is (c : ascii) (s : string) : bool :=
  match s with String d _ => Ascii.eqb d c | EmptyString => false end.

Fixpoint last_char_is (c : ascii) (s : string) : bool :=
  match s with
  | EmptyString => false
  | String d EmptyString => Ascii.eqb d c
  | String _ r => last_char_is c r
  end.

Fixpoint contains_char (c : ascii) (s : string) : bool :=
  match s with
  | EmptyString => false
  | String d r => Ascii.eqb d c || contains_char c r
  end.

(** The decimal numeral of an integer, as the conversion of a number to
    a string writes it. *)
Definition show_Z (z : Z) : string := NilZero.string_of_int (Z.to_int z).

(** [Array.prototype.join]. *)
Fixpoint join (sep : string) (l : list string) : string :=
  match l with
  | [] => ""
  | [x] => x
  | x :: r => x +:+ sep +:+ join sep r
  end.

Fixpoint all_chars (P : ascii -> bool) (s : string) : bool :=
  match s with
  | EmptyString => true
  | String c r => P c && all_chars P r
  end.

(** [s.replace(/c/g, by)] for a single character [c]. *)
Fixpoint replace_char (c : ascii) (by_ : string) (s : string) : string :=
  match s with
  | EmptyString => EmptyString
  | String d r =>
      if Ascii.eqb d c then by_ +:+ replace_char c by_ r
      else String d (replace_char c by_ r)
  end.

(** ** Plain objects used as maps *)

Definition obj (V : Type) : Type := list (string * V).

Definition obj_empty {V} : obj V := [].

(** [Object.keys(o)]. *)
Definition obj_keys {V} (o : obj V) : list string := map fst o.

(** [o[k]], [None] standing for [undefined]. *)
Fixpoint obj_get {V} (o : obj V) (k : string) : option V :=
  match o with
  | [] => None
  | (k', v) :: r => if String.eqb k' k then Some v else obj_get r k
  end.

(** [o.hasOwnProperty(k)]. *)
Definition obj_has {V} (o : obj V) (k : string) : bool :=
  match obj_get o k with Some _ => true | None => false end.

Definition digit_of (c : ascii) : option N :=
  let n := N_of_ascii c in
  if ((48 <=? n) && (n <=? 57))%N then Some (n - 48)%N else None.

Fixpoint parse_digits (acc : N) (s : string) : option N :=
  match s with
  | EmptyString => Some acc
  | String c r =>
      match digit_of c with
      | Some d => parse_digits (acc * 10 + d)%N r
      | None => None
      end
  end.

(** A key is an array index when it is the canonical decimal numeral of
    an integer below 2^32 - 1. *)
Definition array_index (k : string) : option N :=
  match k with
  | EmptyString => None
  | String "0"%char EmptyString => Some 0%N
  | String "0"%char _ => None
  | _ =>
      match parse_digits 0 k with
      | Some n => if (n <? 4294967295)%N then Some n else None
      | None => None
      end
  end.

(** Overwrite the value of an existing key, keeping its place. *)
Fixpoint obj_update {V} (o : obj V) (k : string) (v : V) : obj V :=
  match o with
  | [] => []
  | (k', v') :: r =>
      if String.eqb k' k then (k', v) :: r else (k', v') :: obj_update r k v
  end.

(** Place a new array-index key among the array-index keys. *)
Fixpoint obj_insert_index {V} (n : N) (k : string) (v : V) (o : obj V) : obj V :=
  match o with
  | [] => [(k, v)]
  | (k', v') :: r =>
      match array_index k' with
      | Some m =>
          if (m <? n)%N then (k', v') :: obj_insert_index n k v r
          else (k, v) :: o
      | None => (k, v) :: o
      end
  end.

(** The property [k] of [o] defined with the value [v], as [o[k] = v]
    does on an object without a prototype, where every key names a
    property of the object itself. *)
Definition obj_define {V} (o : obj V) (k : string) (v : V) : obj V :=
  if obj_has o k then obj_update o k v
  else
    match array_index k with
    | Some n => obj_insert_index n k v o
    | None => o ++ [(k, v)]
    end.

(** [o[k] = v] on an object that inherits from [Object.prototype].  The
    key [__proto__] of an object that does not own it is the accessor of
    [Object.prototype]: the assignment creates no property (it does
    nothing for a string, and replaces the prototype of [o], which is not
    a property, for an array). *)
Definition obj_set {V} (o : obj V) (k : string) (v : V) : obj V :=
  if negb (obj_has o k) && String.eqb k "__proto__" then o
  else obj_define o k v.

(** [Object.assign(target, source)]: every key of the source, in the
    order of its enumeration, is read from the source and written to the
    target. *)
Definition obj_assign {V} (target source : obj V) : obj V :=
  fold_left
    (fun t k => match obj_get source k with Some v => obj_set t k v | None => t end)
    (obj_keys source) target.

(** [Object.keys(o).find(p)]. *)
Definition find_key {V} (p : string -> bool) (o : obj V) : option string :=
  List.find p (obj_keys o).

(** ** Outcomes of code that may throw *)

(** A call returns, or it throws.  Two more outcomes mark the calls that
    lead out of the objects that the embedding describes.  [Reshapes a]:
    the call returns [a] and has replaced the prototype of an object, so
    that the properties recorded for that object are still its own
    properties but no longer tell what a read of it finds.  [Unmodelled]:
    the call runs a function on an argument outside the type it is given
    here, and what it does is not described. *)
Inductive outcome (A : Type) : Type :=
| Returns (a : A)
| Throws (message : string)
| Reshapes (a : A)
| Unmodelled.
Arguments Returns {A} a.
Arguments Throws {A} message.
Arguments Reshapes {A} a.
Arguments Unmodelled {A}.

Definition bind_outcome {A B} (x : outcome A) (f : A -> outcome B) : outcome B :=
  match x with
  | Returns a => f a
  | Throws m => Throws m
  | Reshapes _ | Unmodelled => Unmodelled
  end.

(** ** [src/helpers/headers.ts] *)

(** The callback [k => k.toLowerCase() === name.toLowerCase()]. *)
Definition same_header (name k : string) : bool :=
  String.eqb (toLowerCase k) (toLowerCase name).

Definition getHeader (headers : obj string) (name : string) : option string :=
  match find_key (same_header name) headers with
  | None => None
  | Some key => obj_get headers key
  end.

(** The callback of [getHeaderName] returns the key itself on a match and
    [undefined] otherwise; [find] reads that result as a boolean. *)
Definition getHeaderName (headers : obj string) (name : string) : option string :=
  find_key (fun k => if same_header name k then truthy k else false) headers.

(** [Boolean(Object.keys(headers).find(...))]. *)
Definition hasHeader (headers : obj string) (name : string) : bool :=
  match find_key (same_header name) headers with
  | Some k => truthy k
  | None => false
  end.

(** ** Node's [querystring] and [encodeURIComponent] *)

(** A value of a query object: a string, or an array of strings for a key
    that the URL repeats. *)
Inductive QVal : Type :=
| QStr (s : string)
| QArr (l : list string).

Definition is_alnum (c : ascii) : bool :=
  let n := N_of_ascii c in
  (((48 <=? n) && (n <=? 57)) || ((65 <=? n) && (n <=? 90))
   || ((97 <=? n) && (n <=? 122)))%N.

(** The characters that [querystring.escape] and [encodeURIComponent]
    leave as they are: [A-Z a-z 0-9 - _ . ! ~ * ' ( )]. *)
Definition unreserved (c : ascii) : bool :=
  is_alnum c
  || existsb (Ascii.eqb c)
       ["-"; "_"; "."; "!"; "~"; "*"; "'"; "("; ")"]%char.

Definition hex_digit (n : N) : ascii :=
  if (n <? 10)%N then ascii_of_N (48 + n) else ascii_of_N (55 + n).

(** [%XX], with upper-case hexadecimal digits. *)
Definition percent_byte (c : ascii) : string :=
  let n := N_of_ascii c in
  String "%" (String (hex_digit (n / 16)) (String (hex_digit (n mod 16)) "")).

Fixpoint escape_with (keep : ascii -> bool) (s : string) : string :=
  match s with
  | EmptyString => EmptyString
  | String c r =>
      if keep c then String c (escape_with keep r)
      else percent_byte c +:+ escape_with keep r
  end.

Definition qs_escape (s : string) : string := escape_with unreserved s.

Definition encodeURIComponent (s : string) : string := escape_with unreserved s.

(** One step of the loop of [querystring.stringify] over the keys: the
    accumulated [fields], then the key [k] with its value [v]. *)
Definition qs_stringify_step (fields : string) (kv : string * QVal) : string :=
  let ks := qs_escape (fst kv) +:+ "=" in
  match snd kv with
  | QArr [] => fields
  | QArr (v0 :: vs) =>
      let fields := if truthy fields then fields +:+ "&" else fields in
      fold_left (fun f v => f +:+ "&" +:+ ks +:+ qs_escape v) vs
                (fields +:+ ks +:+ qs_escape v0)
  | QStr v =>
      let fields := if truthy fields then fields +:+ "&" else fields in
      fields +:+ ks +:+ qs_escape v
  end.

(** [querystring.stringify(o)] with the default separators. *)
Definition qs_stringify (o : obj QVal) : string :=
  fold_left qs_stringify_step o "".

(** ** Node's legacy [url] objects and [url.format] *)

Record UrlObject : Type := {
  protocol : option string;
  slashes : bool;
  auth : option string;
  host : option string;
  port : option string;
  hostname : option string;
  hash : option string;
  search : option string;
  query : option (obj QVal);
  pathname : option string;
  path : option string;
  href : string
}.

Definition with_query (u : UrlObject) (q : option (obj QVal)) : UrlObject :=
  {| protocol := protocol u; slashes := slashes u; auth := auth u;
     host := host u; port := port u; hostname := hostname u; hash := hash u;
     search := search u; query := q; pathname := pathname u; path := path u;
     href := href u |}.

Definition with_search (u : UrlObject) (s : option string) : UrlObject :=
  {| protocol := protocol u; slashes := slashes u; auth := auth u;
     host := host u; port := port u; hostname := hostname u; hash := hash u;
     search := s; query := query u; pathname := pathname u; path := path u;
     href := href u |}.

Definition with_path (u : UrlObject) (p : option string) : UrlObject :=
  {| protocol := protocol u; slashes := slashes u; auth := auth u;
     host := host u; port := port u; hostname := hostname u; hash := hash u;
     search := search u; query := query u; pathname := pathname u; path := p;
     href := href u |}.

Definition slashedProtocol : list string :=
  ["http"; "http:"; "https"; "https:"; "ftp"; "ftp:"; "gopher"; "gopher:";
   "file"; "file:"; "ws"; "ws:"; "wss"; "wss:"].

Definition is_slashed (p : string) : bool := existsb (String.eqb p) slashedProtocol.

(** The user information keeps [:] besides the unreserved characters. *)
Definition encode_auth (s : string) : string :=
  escape_with (fun c => unreserved c || Ascii.eqb c ":") s.

Definition format_auth (u : UrlObject) : string :=
  let a := or_empty (auth u) in
  if truthy a then encode_auth a +:+ "@" else "".

Definition format_protocol (u : UrlObject) : string :=
  let p := or_empty (protocol u) in
  if truthy p && negb (last_char_is ":" p) then p +:+ ":" else p.

(** The host before the double slash is decided. *)
Definition format_host0 (u : UrlObject) : string :=
  if truthy (or_empty (host u)) then format_auth u +:+ or_empty (host u)
  else if truthy (or_empty (hostname u)) then
    let h := or_empty (hostname u) in
    let h := if contains_char ":" h then "[" +:+ h +:+ "]" else h in
    let h := format_auth u +:+ h in
    if truthy (or_empty (port u)) then h +:+ ":" +:+ or_empty (port u) else h
  else "".

(** The path name with [#] and [?] escaped. *)
Definition format_pathname0 (u : UrlObject) : string :=
  replace_char "?" "%3F" (replace_char "#" "%23" (or_empty (pathname u))).

Definition format_host (u : UrlObject) : string :=
  let proto := format_protocol u in
  let host0 := format_host0 u in
  if slashes u || is_slashed proto then
    if slashes u || truthy host0 then "//" +:+ host0
    else if startsWith "file" proto then "//"
    else host0
  else host0.

Definition format_pathname (u : UrlObject) : string :=
  let proto := format_protocol u in
  let p := format_pathname0 u in
  if (slashes u || is_slashed proto) && (slashes u || truthy (format_host0 u))
     && truthy p && negb (first_char_is "/" p)
  then "/" +:+ p else p.

Definition format_search (u : UrlObject) : string :=
  let q := match query u with Some o => qs_stringify o | None => "" end in
  let s :=
    if truthy (or_empty (search u)) then or_empty (search u)
    else if truthy q then "?" +:+ q else "" in
  let s := replace_char "#" "%23" s in
  if truthy s && negb (first_char_is "?" s) then "?" +:+ s else s.

Definition format_hash (u : UrlObject) : string :=
  let h := or_empty (hash u) in
  if truthy h && negb (first_char_is "#" h) then "#" +:+ h else h.

(** [url.format(u)]. *)
Definition url_format (u : UrlObject) : string :=
  format_protocol u +:+ format_host u +:+ format_pathname u
  +:+ format_search u +:+ format_hash u.

(** ** JSON values *)

(** A number keeps its literal: its floating-point value is not used. *)
#[warnings="-register-all"] Inductive Json : Type :=
| JNull
| JBool (b : bool)
| JNumber (literal : string)
| JString (s : string)
| JArray (items : list Json)
| JObject (members : list (string * Json)).

(** ** Requests *)

(** A [{name, value}] pair: a header, a cookie or a query-string entry. *)
Record Pair : Type := { name : string; value : string }.

Record Param : Type := {
  param_pair :> Pair;
  fileName : option string;
  contentType : option string
}.

(** The request of an archive entry, after the constructor has filled in
    the optional properties. *)
Module Har.

Record PostData : Type := {
  mimeType : string;
  text : option string;
  params : option (list Param);
  boundary : option string
}.

Record Request : Type := {
  method : string;
  url : string;
  httpVersion : string;
  queryString : list Pair;
  headers : list Pair;
  cookies : list Pair;
  postData : PostData
}.

End Har.

(** The canonical request, [src/types/Request.ts]. *)
Record PostData : Type := {
  mimeType : string;
  text : option string;
  params : option (list Param);
  boundary : option string;
  jsonObj : Json;
  paramsObj : option (obj QVal)
}.

Record Request : Type := {
  method : string;
  url : string;
  fullUrl : string;
  httpVersion : string;
  queryString : list Pair;
  headers : list Pair;
  cookies : list Pair;
  uriObj : UrlObject;
  queryObj : obj QVal;
  headersObj : obj string;
  cookiesObj : obj string;
  allHeaders : obj string;
  postData : PostData
}.

(** ** [src/helpers/reducer.ts] *)

(** Modelled from the spec: the key-value reducer [./helpers/reducer],
    which the canonicaliser imports and whose source is not part of the
    files at hand.  It folds one [{name, value}] pair into a mapping, a
    later entry overwriting an earlier one on a key collision; every name
    of the sequence is a key of the mapping. *)
Definition reducer (o : obj QVal) (pair : Pair) : obj QVal :=
  obj_define o (name pair) (QStr (value pair)).

(** ** [HTTPSnippet.prepare] *)

Definition HTTP_2_VERSION_REGEX (version : string) : bool :=
  startsWith "HTTP/2" version.

Definition multipart_boundary : string := "---011000010111000001101001".

Definition is_multipart (mime : string) : bool :=
  existsb (String.eqb mime)
    ["multipart/mixed"; "multipart/related"; "multipart/form-data";
     "multipart/alternative"].

Definition is_json (mime : string) : bool :=
  existsb (String.eqb mime)
    ["text/json"; "text/x-json"; "application/json"; "application/x-json"].

Section Canonicaliser.

(** The key-value reducer that [prepare] folds with. *)
Variable reduce_pair : obj QVal -> Pair -> obj QVal.
(** [url.parse(_, true, true)]. *)
Variable url_parse : string -> UrlObject.
(** [JSON.parse], [None] when it throws a [SyntaxError]. *)
Variable JSON_parse : string -> option Json.
(** The text that the [form-data] module renders for the parameters
    under a boundary. *)
Variable multipart_render : list Param -> string -> string.

(** The query object of the explicit query-string sequence. *)
Definition build_queryObj (queryString : list Pair) : obj QVal :=
  match queryString with
  | [] => obj_empty
  | _ => fold_left reduce_pair queryString obj_empty
  end.

(** The callback of the fold over the headers. *)
Definition header_step (httpVersion : string) (headers : obj string)
    (h : Pair) : obj string :=
  let headerName :=
    if HTTP_2_VERSION_REGEX httpVersion then toLowerCase (name h) else name h in
  obj_set headers headerName (value h).

Definition build_headersObj (httpVersion : string) (headers : list Pair)
  : obj string :=
  match headers with
  | [] => obj_empty
  | _ => fold_left (header_step httpVersion) headers obj_empty
  end.

(** [reduceRight]: the pairs are visited from the last to the first. *)
Definition build_cookiesObj (cookies : list Pair) : obj string :=
  match cookies with
  | [] => obj_empty
  | _ => fold_right (fun c acc => obj_set acc (name c) (value c)) obj_empty cookies
  end.

Definition cookie_header (cookies : list Pair) : obj string :=
  let cs :=
    map (fun c => encodeURIComponent (name c) +:+ "=" +:+ encodeURIComponent (value c))
        cookies in
  match cs with
  | [] => obj_empty
  | _ => obj_set obj_empty "cookie" (join "; " cs)
  end.

(** The [switch] on the mime type: the post data and the headers object
    after it. *)
Definition prepare_body (pd : Har.PostData) (headersObj : obj string)
  : outcome (PostData * obj string) :=
  let mime := Har.mimeType pd in
  if is_multipart mime then
    match Har.params pd with
    | Some ps =>
        let contentTypeHeader :=
          if hasHeader headersObj "content-type"
          then getHeaderName headersObj "content-type"
          else Some "content-type" in
        match contentTypeHeader with
        | None => Throws "How did you get here?"
        | Some h =>
            Returns
              ({| mimeType := "multipart/form-data";
                  text := Some (multipart_render ps multipart_boundary);
                  params := Har.params pd;
                  boundary := Some multipart_boundary;
                  jsonObj := JBool false;
                  paramsObj := None |},
               obj_set headersObj h
                 ("multipart/form-data; boundary=" +:+ multipart_boundary))
        end
    | None =>
        Returns
          ({| mimeType := "multipart/form-data";
              text := Some "";
              params := Har.params pd;
              boundary := Har.boundary pd;
              jsonObj := JBool false;
              paramsObj := None |},
           headersObj)
    end
  else if String.eqb mime "application/x-www-form-urlencoded" then
    match Har.params pd with
    | None =>
        Returns
          ({| mimeType := mime;
              text := Some "";
              params := Har.params pd;
              boundary := Har.boundary pd;
              jsonObj := JBool false;
              paramsObj := None |},
           headersObj)
    | Some ps =>
        let po := fold_left (fun o (p : Param) => reduce_pair o p) ps obj_empty in
        Returns
          ({| mimeType := mime;
              text := Some (qs_stringify po);
              params := Har.params pd;
              boundary := Har.boundary pd;
              jsonObj := JBool false;
              paramsObj := Some po |},
           headersObj)
    end
  else if is_json mime then
    let parsed :=
      if truthy (or_empty (Har.text pd)) then
        match JSON_parse (or_empty (Har.text pd)) with
        | Some v => ("application/json", v)
        | None => ("text/plain", JBool false)
        end
      else ("application/json", JBool false) in
    Returns
      ({| mimeType := fst parsed;
          text := Har.text pd;
          params := Har.params pd;
          boundary := Har.boundary pd;
          jsonObj := snd parsed;
          paramsObj := None |},
       headersObj)
  else
    Returns
      ({| mimeType := mime;
          text := Har.text pd;
          params := Har.params pd;
          boundary := Har.boundary pd;
          jsonObj := JBool false;
          paramsObj := None |},
       headersObj).

(** The URL object after the query and search have been reset. *)
Definition clean_uriObj (u : UrlObject) : UrlObject :=
  with_path (with_search (with_query u None) None) (pathname u).

(** The URL object that carries the merged query. *)
Definition full_uriObj (u : UrlObject) (queryObj : obj QVal) : UrlObject :=
  let u1 := with_search (with_query (clean_uriObj u) (Some queryObj))
              (Some (qs_stringify queryObj)) in
  if truthy (or_empty (search u1))
  then with_path u1 (Some (str_of_nullable (pathname u1) +:+ "?"
                           +:+ or_empty (search u1)))
  else u1.

Definition prepare (request : Har.Request) : outcome Request :=
  let queryObj0 := build_queryObj (Har.queryString request) in
  let headersObj0 :=
    build_headersObj (Har.httpVersion request) (Har.headers request) in
  let cookiesObj := build_cookiesObj (Har.cookies request) in
  let allHeaders0 := cookie_header (Har.cookies request) in
  bind_outcome (prepare_body (Har.postData request) headersObj0)
    (fun body =>
       let headersObj := snd body in
       let allHeaders := obj_assign allHeaders0 headersObj in
       let parsed := url_parse (Har.url request) in
       let queryObj :=
         obj_assign queryObj0
           (match query parsed with Some q => q | None => obj_empty end) in
       let uriObj := full_uriObj parsed queryObj in
       Returns
         {| method := Har.method request;
            url := url_format (clean_uriObj parsed);
            fullUrl := url_format uriObj;
            httpVersion := Har.httpVersion request;
            queryString := Har.queryString request;
            headers := Har.headers request;
            cookies := Har.cookies request;
            uriObj := uriObj;
            queryObj := queryObj;
            headersObj := headersObj;
            cookiesObj := cookiesObj;
            allHeaders := allHeaders;
            postData := fst body |}).

End Canonicaliser.

(** ** The registry of targets *)

(** The second and third argument of [convert] as its callers pass them:
    absent, a client key, or an options object. *)
Inductive Arg (Options : Type) : Type :=
| ArgUndefined
| ArgString (s : string)
| ArgOptions (o : Options).
Arguments ArgUndefined {Options}.
Arguments ArgString {Options} s.
Arguments ArgOptions {Options} o.

Definition arg_truthy {Options} (a : Arg Options) : bool :=
  match a with
  | ArgUndefined => false
  | ArgString s => truthy s
  | ArgOptions _ => true
  end.

Section Registry.

Variable Options : Type.

(** A generator function; it also carries its [info] metadata. *)
Record Client : Type := {
  client_info : gmap string string;
  generate : Request -> Arg Options -> string
}.

(** A property of a target object: its [info], or a client. *)
Inductive TargetProp : Type :=
| TInfo (info : gmap string string)
| TClient (c : Client).

Abbreviation Target := (gmap string TargetProp).
Abbreviation Targets := (gmap string (gmap string TargetProp)).

(** ["f" in target.info] for a target whose [info] exists. *)
Definition info_has (p : TargetProp) (f : string) : bool :=
  match p with
  | TInfo i => bool_decide (is_Some (i !! f))
  | TClient _ => false
  end.

(** [target.info.f], [None] standing for [undefined]. *)
Definition info_field (p : TargetProp) (f : string) : option string :=
  match p with
  | TInfo i => i !! f
  | TClient _ => None
  end.

(** A property key made of a value that may be [undefined]. *)
Definition key_of (x : option string) : string :=
  match x with Some s => s | None => "undefined" end.

(** The functions that every object inherits from [Object.prototype],
    by name. *)
Definition Object_prototype_methods : list string :=
  ["constructor"; "__defineGetter__"; "__defineSetter__"; "hasOwnProperty";
   "__lookupGetter__"; "__lookupSetter__"; "isPrototypeOf";
   "propertyIsEnumerable"; "toString"; "valueOf"; "toLocaleString"].

Definition is_method (k : string) : bool :=
  existsb (String.eqb k) Object_prototype_methods.

(** What a read [t[k]] of a target finds: a property of the target
    itself, a method of [Object.prototype], the object [Object.prototype]
    (which the accessor [__proto__] reads), or [undefined]. *)
Inductive Property : Type :=
| Own (p : TargetProp)
| Method (name : string)
| ObjectPrototype
| Undefined.

Definition prop_get (t : Target) (k : string) : Property :=
  match t !! k with
  | Some p => Own p
  | None =>
      if String.eqb k "__proto__" then ObjectPrototype
      else if is_method k then Method k
      else Undefined
  end.

(** [typeof p === "function"]. *)
Definition is_function (p : Property) : bool :=
  match p with
  | Own (TClient _) | Method _ => true
  | Own (TInfo _) | ObjectPrototype | Undefined => false
  end.

(** The registry has a target under the key [hasOwnProperty]: the
    expression [targets.hasOwnProperty] then reads that target, which is
    not a function, and every call of it throws a [TypeError]. *)
Definition registry_shadowed (targets : Targets) : bool :=
  bool_decide (is_Some (targets !! "hasOwnProperty")).

(** [addTarget], as a transition of the registry: the outcome of the call
    and the properties of the registry after it.  Under the key
    [__proto__] the assignment [targets[key] = target] replaces the
    prototype of the registry and adds no property. *)
Definition addTarget (target : Target) (targets : Targets)
  : outcome unit * Targets :=
  match target !! "info" with
  | None =>
      (Throws "The supplied custom target must contain an `info` object.",
       targets)
  | Some info =>
      if negb (info_has info "key") || negb (info_has info "title")
         || negb (info_has info "extname") || negb (info_has info "default")
      then
        (Throws "The supplied custom target must have an `info` object with a `key`, `title`, `extname`, and `default` property.",
         targets)
      else if registry_shadowed targets then (Throws "TypeError", targets)
      else if bool_decide (is_Some (targets !! key_of (info_field info "key")))
      then (Throws "The supplied custom target already exists.", targets)
      else if Nat.eqb (size target) 1
      then (Throws "A custom target must have a client defined on it.", targets)
      else if String.eqb (key_of (info_field info "key")) "__proto__"
      then (Reshapes tt, targets)
      else (Returns tt, <[key_of (info_field info "key") := target]> targets)
  end.

(** What [_matchTarget] returns: [false], or what the read of a property
    of the target found. *)
Inductive Matched : Type :=
| MatchFalse
| MatchProp (p : Property).

Definition _matchTarget (targets : Targets) (target : string)
    (client : Arg Options) : outcome Matched :=
  if registry_shadowed targets then Throws "TypeError"
  else
    match targets !! target with
    | None => Returns MatchFalse
    | Some t =>
        let by_default :=
          match t !! "info" with
          | None => Throws "TypeError"
          | Some info =>
              Returns (MatchProp (prop_get t (key_of (info_field info "default"))))
          end in
        match client with
        | ArgString c =>
            if is_function (prop_get t c) then Returns (MatchProp (prop_get t c))
            else by_default
        | _ => by_default
        end
    end.

(** What [convert] returns: [false], one result, or the array of the
    results.  A result is the string of a generator; when the function
    that was matched is [Object] itself, [Object.prototype.constructor],
    it is the request that was handed to it. *)
Inductive Converted : Type :=
| ConvFalse
| ConvOne (result : string)
| ConvMany (results : list string)
| ConvRequest (request : Request)
| ConvRequests (requests : list Request).

(** [results.length === 1 ? results[0] : results]. *)
Definition one_or_many (results : list string) : Converted :=
  match results with
  | [r] => ConvOne r
  | _ => ConvMany results
  end.

Definition one_or_many_requests (results : list Request) : Converted :=
  match results with
  | [] => ConvMany []
  | [r] => ConvRequest r
  | _ => ConvRequests results
  end.

(** A call [func(request, opts)] of a value that is not a function, or of
    a method of [Object.prototype] that needs its [this]: the first call
    throws a [TypeError]. *)
Definition call_fails (requests : list Request) : outcome Converted :=
  match requests with
  | [] => Returns (one_or_many [])
  | _ => Throws "TypeError"
  end.

(** [convert], for an instance that holds the canonical [requests].  The
    matched function is called without a [this]: of the methods of
    [Object.prototype], [toString] then answers [[object Undefined]],
    [constructor], which is [Object], answers with its first argument,
    and the others throw a [TypeError]. *)
Definition convert (targets : Targets) (requests : list Request)
    (target : string) (client opts : Arg Options) : outcome Converted :=
  let opts := if negb (arg_truthy opts) && arg_truthy client then client else opts in
  bind_outcome (_matchTarget targets target client)
    (fun func =>
       match func with
       | MatchProp (Own (TClient g)) =>
           Returns (one_or_many (map (fun request => generate g request opts) requests))
       | MatchProp (Method m) =>
           if String.eqb m "toString"
           then Returns (one_or_many (map (fun _ => "[object Undefined]") requests))
           else if String.eqb m "constructor"
           then Returns (one_or_many_requests requests)
           else call_fails requests
       | MatchProp (Own (TInfo _)) | MatchProp ObjectPrototype =>
           (* a truthy value that is not a function *)
           call_fails requests
       | MatchProp Undefined | MatchFalse => Returns ConvFalse
       end).

End Registry.

Arguments TInfo {Options} info.
Arguments TClient {Options} c.
Arguments Own {Options} p.
Arguments Method {Options} name.
Arguments ObjectPrototype {Options}.
Arguments Undefined {Options}.
Arguments MatchFalse {Options}.
Arguments MatchProp {Options} p.

(** ** A runtime to evaluate the canonicaliser on concrete requests

    The canonicaliser takes [url.parse] and [JSON.parse] as parameters.
    The readers below stand for them on concrete inputs: [url_parse_basic]
    reads absolute URLs of the shape [scheme://host[:port][/path][?query][#hash]]
    without user information, and [json_parse] reads the JSON grammar,
    keeping the escape sequences of string literals as they are written. *)

Fixpoint split_at (c : ascii) (s : string) : string * option string :=
  match s with
  | EmptyString => (EmptyString, None)
  | String d r =>
      if Ascii.eqb d c then (EmptyString, Some r)
      else let '(a, b) := split_at c r in (String d a, b)
  end.

Fixpoint split_all (c : ascii) (s : string) : list string :=
  match s with
  | EmptyString => [EmptyString]
  | String d r =>
      if Ascii.eqb d c then EmptyString :: split_all c r
      else
        match split_all c r with
        | x :: xs => String d x :: xs
        | [] => [String d EmptyString]
        end
  end.

Definition hex_value (c : ascii) : option N :=
  let n := N_of_ascii c in
  if ((48 <=? n) && (n <=? 57))%N then Some (n - 48)%N
  else if ((65 <=? n) && (n <=? 70))%N then Some (n - 55)%N
  else if ((97 <=? n) && (n <=? 102))%N then Some (n - 87)%N
  else None.

(** [querystring.unescape], with [+] read as a space. *)
Fixpoint qs_unescape (s : string) : string :=
  match s with
  | EmptyString => EmptyString
  | String "+"%char r => String " "%char (qs_unescape r)
  | String "%"%char (String a (String b r) as r0) =>
      match hex_value a, hex_value b with
      | Some x, Some y => String (ascii_of_N (16 * x + y)) (qs_unescape r)
      | _, _ => String "%"%char (qs_unescape r0)
      end
  | String c r => String c (qs_unescape r)
  end.

(** One [key=value] segment added to the parsed query, an object without
    a prototype: a repeated key collects its values in an array. *)
Definition qs_parse_step (o : obj QVal) (segment : string) : obj QVal :=
  if truthy segment then
    let '(k, v) := split_at "=" segment in
    let k := qs_unescape k in
    let v := qs_unescape (or_empty v) in
    match obj_get o k with
    | None => obj_define o k (QStr v)
    | Some (QStr v0) => obj_define o k (QArr [v0; v])
    | Some (QArr vs) => obj_define o k (QArr (vs ++ [v]))
    end
  else o.

Definition qs_parse (s : string) : obj QVal :=
  fold_left qs_parse_step (split_all "&" s) obj_empty.

Definition url_parse_basic (s : string) : UrlObject :=
  let '(rest, frag) := split_at "#" s in
  let '(rest, qry) := split_at "?" rest in
  let '(scheme, rest) := split_at ":" rest in
  let rest := or_empty rest in
  let slashed := startsWith "//" rest in
  let rest := if slashed then String.substring 2 (String.length rest - 2) rest else rest in
  let '(authority, pth) := split_at "/" rest in
  let authority := if slashed then toLowerCase authority else "" in
  let pth := match pth with
             | Some p => if slashed then "/" +:+ p else rest
             | None => if slashed then (if truthy authority then "/" else "") else rest
             end in
  let '(hname, prt) := split_at ":" authority in
  let proto := toLowerCase scheme +:+ ":" in
  let srch := match qry with Some q => Some ("?" +:+ q) | None => None end in
  let u :=
    {| protocol := Some proto;
       slashes := slashed;
       auth := None;
       host := if slashed then Some authority else None;
       port := prt;
       hostname := if slashed then Some hname else None;
       hash := match frag with Some f => Some ("#" +:+ f) | None => None end;
       search := srch;
       query := Some (qs_parse (or_empty qry));
       pathname := if truthy pth then Some pth else None;
       path := if truthy (pth +:+ or_empty srch) then Some (pth +:+ or_empty srch) else None;
       href := "" |} in
  {| protocol := protocol u; slashes := slashes u; auth := auth u;
     host := host u; port := port u; hostname := hostname u; hash := hash u;
     search := search u; query := query u; pathname := pathname u;
     path := path u; href := url_format u |}.

Definition is_ws (c : ascii) : bool :=
  existsb (Ascii.eqb c) [" "; "009"; "010"; "013"]%char.

Fixpoint skip_ws (s : string) : string :=
  match s with
  | String c r => if is_ws c then skip_ws r else s
  | EmptyString => EmptyString
  end.

Definition is_digit (c : ascii) : bool :=
  let n := N_of_ascii c in ((48 <=? n) && (n <=? 57))%N.

(** The longest prefix of digits and what follows it. *)
Fixpoint span_digits (s : string) : string * string :=
  match s with
  | String c r =>
      if is_digit c then let '(d, t) := span_digits r in (String c d, t)
      else (EmptyString, s)
  | EmptyString => (EmptyString, EmptyString)
  end.

(** A number literal: [-? int frac? exp?]. *)
Definition read_number (s : string) : option (string * string) :=
  let '(sign, s) :=
    match s with String "-"%char r => ("-", r) | _ => ("", s) end in
  let '(int, s) := span_digits s in
  let int_ok :=
    match int with
    | EmptyString => false
    | String "0"%char (String _ _) => false
    | _ => true
    end in
  if int_ok then
    let frac :=
      match s with
      | String "."%char r =>
          let '(d, t) := span_digits r in
          if truthy d then Some ("." +:+ d, t) else None
      | _ => Some ("", s)
      end in
    match frac with
    | None => None
    | Some (fr, s) =>
        let exp :=
          match s with
          | String e r =>
              if Ascii.eqb e "e" || Ascii.eqb e "E" then
                let '(sg, r) :=
                  match r with
                  | String "+"%char t => ("+", t)
                  | String "-"%char t => ("-", t)
                  | _ => ("", r)
                  end in
                let '(d, t) := span_digits r in
                if truthy d then Some (String e sg +:+ d, t) else None
              else Some ("", s)
          | EmptyString => Some ("", s)
          end in
        match exp with
        | None => None
        | Some (ex, s) => Some (sign +:+ int +:+ fr +:+ ex, s)
        end
    end
  else None.

Definition is_hex (c : ascii) : bool :=
  match hex_value c with Some _ => true | None => false end.

(** The characters of a string literal after its opening quote, up to the
    closing quote. *)
Fixpoint read_string (s : string) : option (string * string) :=
  match s with
  | EmptyString => None
  | String "034"%char r => Some (EmptyString, r)
  | String "\"%char (String "u"%char (String a (String b (String c (String d r))))) =>
      if is_hex a && is_hex b && is_hex c && is_hex d then
        match read_string r with
        | Some (t, rest) =>
            Some (String "\" (String "u" (String a (String b (String c (String d t))))), rest)
        | None => None
        end
      else None
  | String "\"%char (String e r) =>
      if existsb (Ascii.eqb e) ["034"; "\"; "/"; "b"; "f"; "n"; "r"; "t"]%char then
        match read_string r with
        | Some (t, rest) => Some (String "\" (String e t), rest)
        | None => None
        end
      else None
  | String c r =>
      if (N_of_ascii c <? 32)%N then None
      else
        match read_string r with
        | Some (t, rest) => Some (String c t, rest)
        | None => None
        end
  end.

Definition read_literal (lit : string) (v : Json) (s : string)
  : option (Json * string) :=
  if startsWith lit s
  then Some (v, String.substring (String.length lit)
                  (String.length s - String.length lit) s)
  else None.

Fixpoint read_value (fuel : nat) (s : string) : option (Json * string) :=
  match fuel with
  | O => None
  | S fuel =>
      match skip_ws s with
      | EmptyString => None
      | String "n"%char _ as t => read_literal "null" JNull t
      | String "t"%char _ as t => read_literal "true" (JBool true) t
      | String "f"%char _ as t => read_literal "false" (JBool false) t
      | String "034"%char r =>
          match read_string r with
          | Some (str, rest) => Some (JString str, rest)
          | None => None
          end
      | String "["%char r =>
          match skip_ws r with
          | String "]"%char rest => Some (JArray [], rest)
          | _ => read_items fuel r []
          end
      | String "{"%char r =>
          match skip_ws r with
          | String "}"%char rest => Some (JObject [], rest)
          | _ => read_members fuel r []
          end
      | t =>
          match read_number t with
          | Some (lit, rest) => Some (JNumber lit, rest)
          | None => None
          end
      end
  end
with read_items (fuel : nat) (s : string) (acc : list Json)
  : option (Json * string) :=
  match fuel with
  | O => None
  | S fuel =>
      match read_value fuel s with
      | Some (v, rest) =>
          match skip_ws rest with
          | String ","%char rest => read_items fuel rest (v :: acc)
          | String "]"%char rest => Some (JArray (rev (v :: acc)), rest)
          | _ => None
          end
      | None => None
      end
  end
with read_members (fuel : nat) (s : string) (acc : list (string * Json))
  : option (Json * string) :=
  match fuel with
  | O => None
  | S fuel =>
      match skip_ws s with
      | String "034"%char r =>
          match read_string r with
          | Some (k, rest) =>
              match skip_ws rest with
              | String ":"%char rest =>
                  match read_value fuel rest with
                  | Some (v, rest) =>
                      match skip_ws rest with
                      | String ","%char rest => read_members fuel rest ((k, v) :: acc)
                      | String "}"%char rest => Some (JObject (rev ((k, v) :: acc)), rest)
                      | _ => None
                      end
                  | None => None
                  end
              | _ => None
              end
          | None => None
          end
      | _ => None
      end
  end.

Definition json_parse (s : string) : option Json :=
  match read_value (2 * String.length s + 2) s with
  | Some (v, rest) => if truthy (skip_ws rest) then None else Some v
  | None => None
  end.

(** The text that the [form-data] module renders for parameters that are
    text fields: one part per parameter, then the closing boundary. *)
Definition CRLF : string := String "013"%char (String "010"%char EmptyString).

Definition DQUOTE : string := String "034"%char EmptyString.

Definition form_data_part (boundary : string) (p : Param) : string :=
  "--" +:+ boundary +:+ CRLF
  +:+ "Content-Disposition: form-data; name=" +:+ DQUOTE +:+ name p +:+ DQUOTE
  +:+ (if truthy (or_empty (fileName p))
       then "; filename=" +:+ DQUOTE +:+ or_empty (fileName p) +:+ DQUOTE
       else "")
  +:+ CRLF
  +:+ (if truthy (or_empty (contentType p))
       then "Content-Type: " +:+ or_empty (contentType p) +:+ CRLF
       else "")
  +:+ CRLF +:+ value p +:+ CRLF.

Definition form_data_render (ps : list Param) (boundary : string) : string :=
  fold_left (fun t p => t +:+ form_data_part boundary p) ps ""
  +:+ "--" +:+ boundary +:+ "--" +:+ CRLF.

(** [prepare] with the key-value reducer and the runtime above. *)
Definition prepare_basic : Har.Request -> outcome Request :=
  prepare reducer url_parse_basic json_parse form_data_render.

(** ** The vocabulary of the specification *)

(** The name under which a header is inserted: lower-cased when the
    protocol version is HTTP/2, as it is otherwise. *)
Definition inserted_name (httpVersion n : string) : string :=
  if HTTP_2_VERSION_REGEX httpVersion then toLowerCase n else n.

(** The value of the last pair of a sequence whose name, seen through
    [f], is [k]. *)
Definition last_value (f : string -> string) (l : list Pair) (k : string)
  : option string :=
  option_map value (List.find (fun h => String.eqb (f (name h)) k) (rev l)).


(** When a key of the headers object stands for a header name: equality
    ignoring case under HTTP/2, equality otherwise. *)
Definition name_match (httpVersion n k : string) : bool :=
  if HTTP_2_VERSION_REGEX httpVersion then same_header n k else String.eqb k n.

(** An object holds exactly one entry whose key equals [n] ignoring case,
    and its value is [v]. *)
Definition one_entry_ignoring_case (o : obj string) (n v : string) : Prop :=
  exists k, List.filter (same_header n) (obj_keys o) = [k] /\ obj_get o k = Some v.

(** The body branch that rewrites the [content-type] header. *)
Definition rewrites_content_type (pd : Har.PostData) : bool :=
  is_multipart (Har.mimeType pd)
  && match Har.params pd with Some _ => true | None => false end.

(** The value that this branch writes. *)
Definition multipart_content_type : string :=
  "multipart/form-data; boundary=" +:+ multipart_boundary.

(** The key under which it writes: the inserted name of the first header
    whose name is [content-type] ignoring case, or the key [content-type]
    when the request has no such header. *)
Definition content_type_key (httpVersion : string) (headers : list Pair) : string :=
  match List.find (fun h => same_header "content-type" (name h)) headers with
  | Some h => inserted_name httpVersion (name h)
  | None => "content-type"
  end.

(** A string without an upper-case letter. *)
Definition no_upper (s : string) : bool :=
  all_chars (fun c => negb (is_upper c)) s.

(** A URL without its query: what comes before the first question mark,
    and the fragment. *)
Definition strip_query (u : string) : string :=
  let '(rest, frag) := split_at "#" u in
  let '(before, _) := split_at "?" rest in
  match frag with
  | Some f => before +:+ "#" +:+ f
  | None => before
  end.


(** The characters of a serialised query string. *)
Definition qs_char (c : ascii) : bool :=
  unreserved c || existsb (Ascii.eqb c) ["%"; "="; "&"]%char.

(** The client that a call of [convert] resolves to: the client
    registered under the given key when there is one, otherwise the client
    that the target declares as its default. *)
Definition default_client {Options} (t : gmap string (TargetProp Options))
  : option (Client Options) :=
  match t !! "info" with
  | Some (TInfo i) =>
      match i !! "default" with
      | Some d => match t !! d with Some (TClient g) => Some g | _ => None end
      | None => None
      end
  | _ => None
  end.

Definition resolved_client {Options} (t : gmap string (TargetProp Options))
    (client : Arg Options) : option (Client Options) :=
  match client with
  | ArgString c =>
      match t !! c with
      | Some (TClient g) => Some g
      | _ => default_client t
      end
  | _ => default_client t
  end.

(** ** Sample requests and targets *)

Definition sample_postData (mime : string) (txt : option string)
    (ps : option (list Param)) : Har.PostData :=
  {| Har.mimeType := mime; Har.text := txt; Har.params := ps;
     Har.boundary := None |}.

Definition sample_request (u version : string) (qs hs cs : list Pair)
    (pd : Har.PostData) : Har.Request :=
  {| Har.method := "GET"; Har.url := u; Har.httpVersion := version;
     Har.queryString := qs; Har.headers := hs; Har.cookies := cs;
     Har.postData := pd |}.

Definition pair (n v : string) : Pair := {| name := n; value := v |}.

Definition param (n v : string) : Param :=
  {| param_pair := pair n v; fileName := None; contentType := None |}.

Definition no_body : Har.PostData :=
  sample_postData "application/octet-stream" None None.

(** A generator that shows the options it was called with. *)
Definition show_options (label : string) : Client (obj string) :=
  {| client_info := {[ "key" := label; "title" := label ]};
     generate := fun request opts =>
       label +:+ " " +:+ url request +:+ " "
       +:+ match opts with
           | ArgUndefined => "undefined"
           | ArgString s => "string:" +:+ s
           | ArgOptions _ => "object"
           end |}.

Definition sample_target (key : string) : gmap string (TargetProp (obj string)) :=
  {[ "info" := TInfo {[ "key" := key; "title" := key; "extname" := ".sh";
                        "default" := "curl" ]};
     "curl" := TClient (show_options "curl");
     "wget" := TClient (show_options "wget") ]}.

Definition sample_targets : gmap string (gmap string (TargetProp (obj string))) :=
  {[ "shell" := sample_target "shell" ]}.

(** A canonical request as [convert] hands it to a generator. *)
Definition sample_canonical (u : string) : Request :=
  {| method := "GET"; url := u; fullUrl := u; httpVersion := "HTTP/1.1";
     queryString := []; headers := []; cookies := [];
     uriObj := url_parse_basic u; queryObj := []; headersObj := [];
     cookiesObj := []; allHeaders := [];
     postData := {| mimeType := "application/octet-stream"; text := None;
                    params := None; boundary := None; jsonObj := JBool false;
                    paramsObj := None |} |}.

(** A target whose second property is no client. *)
Definition clientless_target : gmap string (TargetProp (obj string)) :=
  {[ "info" := TInfo {[ "key" := "notes"; "title" := "Notes"; "extname" := ".txt";
                        "default" := "index" ]};
     "index" := TInfo {[ "about" := "notes" ]} ]}.

(** The messages of the errors that [addTarget] throws. *)
Definition addTarget_errors : list string :=
  ["The supplied custom target must contain an `info` object.";
   "The supplied custom target must have an `info` object with a `key`, `title`, `extname`, and `default` property.";
   "The supplied custom target already exists.";
   "A custom target must have a client defined on it."].

(** ** The constructor of [HTTPSnippet] *)

(** An entry's request as the caller gives it: the properties that the
    constructor fills in may be absent. *)
Module Raw.

Record PostData : Type := {
  mimeType : option string;
  text : option string;
  params : option (list Param);
  boundary : option string
}.

Record Request : Type := {
  method : string;
  url : string;
  httpVersion : option string;
  queryString : option (list Pair);
  headers : option (list Pair);
  cookies : option (list Pair);
  postData : option PostData
}.

End Raw.

(** The data given to the constructor: an archive with its entries, or a
    single request. *)
Inductive HarData : Type :=
| Archive (entries : list Raw.Request)
| SingleRequest (request : Raw.Request).

(** [x || d] for a string that may be absent. *)
Definition or_default (x : option string) (d : string) : string :=
  if truthy (or_empty x) then or_empty x else d.

(** [x || []] for an array that may be absent. *)
Definition or_nil {A} (x : option (list A)) : list A :=
  match x with Some l => l | None => [] end.

(** The optional properties filled in, as at the head of the loop of the
    constructor. *)
Definition fill_optional (r : Raw.Request) : Har.Request :=
  let pd := Raw.postData r in
  {| Har.method := Raw.method r;
     Har.url := Raw.url r;
     Har.httpVersion := or_default (Raw.httpVersion r) "HTTP/1.1";
     Har.queryString := or_nil (Raw.queryString r);
     Har.headers := or_nil (Raw.headers r);
     Har.cookies := or_nil (Raw.cookies r);
     Har.postData :=
       {| Har.mimeType :=
            or_default (match pd with Some d => Raw.mimeType d | None => None end)
              "application/octet-stream";
          Har.text := match pd with Some d => Raw.text d | None => None end;
          Har.params := match pd with Some d => Raw.params d | None => None end;
          Har.boundary := match pd with Some d => Raw.boundary d | None => None end |} |}.

(** [isHAR ? input.log.entries : [{ request: input }]]. *)
Definition entries_of (data : HarData) : list Raw.Request :=
  match data with
  | Archive entries => entries
  | SingleRequest request => [request]
  end.

(** An instance of the class. *)
Record HTTPSnippet : Type := { requests : list Request }.

Section Constructor.

Variable reduce_pair : obj QVal -> Pair -> obj QVal.
Variable url_parse : string -> UrlObject.
Variable JSON_parse : string -> option Json.
Variable multipart_render : list Param -> string -> string.
(** [validate.request]: the validator calls back before it returns, with
    [None] for a valid request and with its error for an invalid one. *)
Variable validate_request : Har.Request -> option string.

(** The loop over the entries, [requests] being the requests pushed so
    far.  The entries are distinct objects, as those of a parsed archive
    are: the loop and [prepare] write to the request they are given. *)
Fixpoint construct_entries (entries : list Raw.Request) (requests : list Request)
  : outcome (list Request) :=
  match entries with
  | [] => Returns requests
  | entry :: rest =>
      let request := fill_optional entry in
      match validate_request request with
      | Some err => Throws err
      | None =>
          bind_outcome
            (prepare reduce_pair url_parse JSON_parse multipart_render request)
            (fun r => construct_entries rest (requests ++ [r]))
      end
  end.

Definition new_HTTPSnippet (data : HarData) : outcome HTTPSnippet :=
  bind_outcome (construct_entries (entries_of data) [])
    (fun rs => Returns {| requests := rs |}).

End Constructor.

(** ** [addTargetClient] and [extname] *)

Section RegistryExtension.

Variable Options : Type.

(** The client given to [addTargetClient]: a generator function whose
    [info] may be absent.  [addTargetClient] writes to the target object
    that the registry holds; the registry is a map of values, which is
    the same thing as long as no two keys hold the same object.  The
    existence test [targets[target].hasOwnProperty(key)] calls what the
    target has under [hasOwnProperty]: the method of [Object.prototype],
    unless the target owns a property of that name, which as an [info] is
    no function and as a client is run on the key.  Under the key
    [__proto__] the assignment replaces the prototype of the target and
    adds no property. *)
Record NewClient : Type := {
  new_info : option (gmap string string);
  new_generate : Request -> Arg Options -> string
}.

Definition addTargetClient (target : string) (client : NewClient)
    (targets : gmap string (gmap string (TargetProp Options)))
  : outcome unit * gmap string (gmap string (TargetProp Options)) :=
  if registry_shadowed Options targets then (Throws "TypeError", targets)
  else
  match targets !! target with
  | None =>
      (Throws ("Sorry, but no " +:+ target +:+ " target exists to add clients to."),
       targets)
  | Some t =>
      match new_info client with
      | None =>
          (Throws "The supplied custom target client must contain an `info` object.",
           targets)
      | Some info =>
          if negb (bool_decide (is_Some (info !! "key")))
             || negb (bool_decide (is_Some (info !! "title")))
          then
            (Throws "The supplied custom target client must have an `info` object with a `key` and `title` property.",
             targets)
          else
            match t !! "hasOwnProperty" with
            | Some (TInfo _) => (Throws "TypeError", targets)
            | Some (TClient _) => (Unmodelled, targets)
            | None =>
                if bool_decide (is_Some (t !! key_of (info !! "key")))
                then
                  (Throws "The supplied custom target client already exists, please use a different key",
                   targets)
                else if String.eqb (key_of (info !! "key")) "__proto__"
                then (Reshapes tt, targets)
                else
                  (Returns tt,
                   <[target :=
                       <[key_of (info !! "key") :=
                           TClient {| client_info := info;
                                      generate := new_generate client |}]> t]> targets)
            end
      end
  end.

(** [extname]: [None] stands for [undefined].  The test [targets[target]]
    reads the registry through its prototype: for a key that the registry
    does not own it finds the methods of [Object.prototype] and, under
    [__proto__], that object itself, none of which has an [info]. *)
Definition extname (targets : gmap string (gmap string (TargetProp Options)))
    (target : string) : outcome (option string) :=
  match targets !! target with
  | Some t =>
      match t !! "info" with
      | Some info => Returns (info_field Options info "extname")
      | None => Throws "TypeError"
      end
  | None =>
      if String.eqb target "__proto__" || is_method target
      then Throws "TypeError"
      else Returns (Some "")
  end.

End RegistryExtension.

(** ** [src/helpers/shell.ts] *)

Module Shell.

(** The characters of [SAFE], [/^[a-z0-9-_/.@%^=:]+$/i]. *)
Definition safe_char (c : ascii) : bool :=
  is_alnum c
  || existsb (Ascii.eqb c) ["-"; "_"; "/"; "."; "@"; "%"; "^"; "="; ":"]%char.

Definition SAFE (value : string) : bool :=
  truthy value && all_chars safe_char value.

(** [util.format('\'%s\'', s)] for a string [s]. *)
Definition format_quoted (s : string) : string := "'" +:+ s +:+ "'".

Definition quote (value : string) : string :=
  if negb (SAFE value)
  then format_quoted (replace_char "'" "'\''" value)
  else value.

Definition escape (value : string) : string :=
  replace_char "010" "\n" (replace_char "013" "\r" value).

End Shell.

(** ** [src/helpers/code-builder.ts] *)

Module CodeBuilder.

(** The arguments of [push] and [unshift], after their signatures: the
    line [null]; a line with the values of its placeholders; an
    indentation level, a line and the values of its placeholders. *)
Inductive LineArgs (Value : Type) : Type :=
| LineNull
| Line (line : string) (args : list Value)
| Indented (level : Z) (line : string) (args : list Value).
Arguments LineNull {Value}.
Arguments Line {Value} line args.
Arguments Indented {Value} level line args.

Record t : Type := {
  _indentation : string;
  _lineJoin : string;
  _code : list (option string)
}.

(** [new CodeBuilder(indentation, lineJoin)]. *)
Definition new (indentation lineJoin : string) : t :=
  {| _indentation := indentation; _lineJoin := lineJoin; _code := [] |}.

(** [String.prototype.repeat] for a count that is not negative. *)
Fixpoint repeat_string (s : string) (n : nat) : string :=
  match n with
  | O => ""
  | S n => s +:+ repeat_string s n
  end.

Section Format.

Variable Value : Type.
(** [util.format]. *)
Variable util_format : string -> list Value -> string.

(** [repeat] throws a [RangeError] for a negative count, with a message
    that shows the count. *)
Definition buildLine (b : t) (a : LineArgs Value) : outcome (option string) :=
  match a with
  | LineNull => Returns None
  | Line line args => Returns (Some (util_format line args))
  | Indented level line args =>
      if (level <? 0)%Z then Throws ("Invalid count value: " +:+ show_Z level)
      else
        Returns
          (Some (util_format (repeat_string (_indentation b) (Z.to_nat level) +:+ line)
                   args))
  end.

Definition unshift (b : t) (a : LineArgs Value) : outcome t :=
  bind_outcome (buildLine b a)
    (fun l => Returns {| _indentation := _indentation b; _lineJoin := _lineJoin b;
                         _code := l :: _code b |}).

Definition push (b : t) (a : LineArgs Value) : outcome t :=
  bind_outcome (buildLine b a)
    (fun l => Returns {| _indentation := _indentation b; _lineJoin := _lineJoin b;
                         _code := _code b ++ [l] |}).

End Format.

Definition blank (b : t) : t :=
  {| _indentation := _indentation b; _lineJoin := _lineJoin b;
     _code := _code b ++ [None] |}.

(** [Array.prototype.join] writes [null] as the empty string. *)
Definition join (b : t) : string :=
  join (_lineJoin b) (map or_empty (_code b)).

End CodeBuilder.

(** ** More vocabulary *)

(** The generator that the client argument of [convert] selects by
    itself, if any. *)
Definition client_generator {Options} (t : gmap string (TargetProp Options))
    (client : Arg Options) : option (Client Options) :=
  match client with
  | ArgString c => match t !! c with Some (TClient g) => Some g | _ => None end
  | _ => None
  end.

(** The client argument of [convert] is the name of a method of
    [Object.prototype] that the target does not hide by a property of
    its own. *)
Definition names_method {Options} (t : gmap string (TargetProp Options))
    (client : Arg Options) : bool :=
  match client with
  | ArgString c => match t !! c with Some _ => false | None => is_method c end
  | _ => false
  end.

(** A property that does not run as [convert] calls it: a value that is
    not a function, or a method of [Object.prototype] that needs its
    [this]. *)
Definition call_throws {Options} (p : Property Options) : bool :=
  match p with
  | Own (TInfo _) | ObjectPrototype => true
  | Method m => negb (String.eqb m "toString") && negb (String.eqb m "constructor")
  | Own (TClient _) | Undefined => false
  end.

(** The function that the client argument of [convert] selects by itself:
    what the target has under the client key, when that is a function. *)
Definition selected {Options} (t : gmap string (TargetProp Options))
    (client : Arg Options) : option (Property Options) :=
  match client with
  | ArgString c =>
      if is_function Options (prop_get Options t c)
      then Some (prop_get Options t c) else None
  | _ => None
  end.

(** A key that names something in every object: a method of
    [Object.prototype], or its accessor [__proto__]. *)
Definition inherited_key (k : string) : bool :=
  String.eqb k "__proto__" || is_method k.

(** A target has a client: one of its properties is a generator. *)
Definition has_client {Options} (t : gmap string (TargetProp Options)) : Prop :=
  exists k g, t !! k = Some (TClient g).

(** Every target of the registry has an [info] with the four properties
    that [addTarget] asks for, and sits under the key that its [info]
    names. *)
Definition registry_wf {Options}
    (targets : gmap string (gmap string (TargetProp Options))) : Prop :=
  forall k t, targets !! k = Some t ->
    exists i, t !! "info" = Some (TInfo i) /\ i !! "key" = Some k
              /\ is_Some (i !! "title") /\ is_Some (i !! "extname")
              /\ is_Some (i !! "default").

(** The options that [convert] hands to the generator. *)
Definition passed_options {Options} (client opts : Arg Options) : Arg Options :=
  if negb (arg_truthy opts) && arg_truthy client then client else opts.

(** A raw request with every optional property absent. *)
Definition bare_request (u : string) : Raw.Request :=
  {| Raw.method := "GET"; Raw.url := u; Raw.httpVersion := None;
     Raw.queryString := None; Raw.headers := None; Raw.cookies := None;
     Raw.postData := None |}.

(** A validator that accepts the requests whose method is not empty. *)
Definition method_present (r : Har.Request) : option string :=
  if truthy (Har.method r) then None else Some "HARError".

(** How a POSIX shell reads a word made of single-quoted parts, of
    characters escaped by a backslash and of plain characters.  Inside
    single quotes every character stands for itself up to the closing
    quote; outside, a backslash makes the next character stand for
    itself, and only the characters that mean nothing to the shell are
    read as plain.  A backslash before a line feed, which continues the
    line, is not among the words read here. *)
Fixpoint sh_read (quoted : bool) (s : string) : option string :=
  match s with
  | EmptyString => if quoted then None else Some EmptyString
  | String c r =>
      if quoted then
        if Ascii.eqb c "'" then sh_read false r
        else option_map (String c) (sh_read true r)
      else if Ascii.eqb c "'" then sh_read true r
      else if Ascii.eqb c "\" then
        match r with
        | String d r' =>
            if Ascii.eqb d "010" then None
            else option_map (String d) (sh_read false r')
        | EmptyString => None
        end
      else if Shell.safe_char c then option_map (String c) (sh_read false r)
      else None
  end.

(** The argument that the shell sees for a word. *)
Definition sh_word (s : string) : option string := sh_read false s.

(** A target whose default key names no client. *)
Definition orphan_target : gmap string (TargetProp (obj string)) :=
  {[ "info" := TInfo {[ "key" := "orphan"; "title" := "Orphan"; "extname" := ".txt";
                        "default" := "native" ]};
     "other" := TClient (show_options "other") ]}.

Definition sample_client (label : string) : NewClient (obj string) :=
  {| new_info := Some {[ "key" := label; "title" := label ]};
     new_generate := generate (obj string) (show_options label) |}.

Definition LF : string := String "010"%char EmptyString.

(** How a reader of a [Cookie] header gets the cookies back: the header
    is cut at every semicolon, the space after a semicolon is dropped,
    each part is cut at its first equals sign, and the percent escapes of
    the two halves are decoded. *)
Fixpoint percent_decode (s : string) : string :=
  match s with
  | EmptyString => EmptyString
  | String "%"%char (String a (String b r) as r0) =>
      match hex_value a, hex_value b with
      | Some x, Some y => String (ascii_of_N (16 * x + y)) (percent_decode r)
      | _, _ => String "%"%char (percent_decode r0)
      end
  | String c r => String c (percent_decode r)
  end.

Definition drop_space (s : string) : string :=
  match s with String " "%char r => r | _ => s end.

Definition cookie_parts (header : string) : list string :=
  match split_all ";" header with
  | first :: rest => first :: map drop_space rest
  | [] => []
  end.

Definition read_cookie (part : string) : Pair :=
  let '(n, v) := split_at "=" part in
  {| name := percent_decode n; value := percent_decode (or_empty v) |}.

Definition read_cookie_header (header : string) : list Pair :=
  map read_cookie (cookie_parts header).

(** The characters that [encodeURIComponent] writes. *)
Definition uri_char (c : ascii) : bool := unreserved c || Ascii.eqb c "%".

(** The text of one cookie in the synthesised header. *)
Definition cookie_text (ck : Pair) : string :=
  encodeURIComponent (name ck) +:+ "=" +:+ encodeURIComponent (value ck).

(** * Properties *)

(** ** Strings *)

Lemma toLowerCase_empty (s : string) : toLowerCase s = "" -> s = "".
Proof. destruct s; simpl; [reflexivity | discriminate]. Qed.

Lemma truthy_true (s : string) : truthy s = true <-> s <> "".
Proof. destruct s; simpl; split; congruence. Qed.

Lemma truthy_false (s : string) : truthy s = false <-> s = "".
Proof. destruct s; simpl; split; congruence. Qed.

Lemma same_header_truthy (n k1 k2 : string) :
  same_header n k1 = true -> same_header n k2 = true ->
  truthy k1 = true -> truthy k2 = true.
Proof.
  unfold same_header. intros H1 H2 T.
  apply String.eqb_eq in H1. apply String.eqb_eq in H2.
  destruct k2; [|reflexivity]. simpl in H2.
  rewrite <- H2 in H1. apply toLowerCase_empty in H1. subst. discriminate.
Qed.

Lemma all_chars_app (P : ascii -> bool) (a b : string) :
  all_chars P (a +:+ b) = all_chars P a && all_chars P b.
Proof.
  induction a as [|c a IH]; simpl; [reflexivity|].
  rewrite IH. apply andb_assoc.
Qed.

Lemma replace_char_absent (c : ascii) (by_ s : string) :
  contains_char c s = false -> replace_char c by_ s = s.
Proof.
  induction s as [|d s IH]; simpl; [reflexivity|].
  destruct (Ascii.eqb d c); simpl; [discriminate|].
  intros H. rewrite IH; auto.
Qed.

Lemma all_chars_excludes (P : ascii -> bool) (c : ascii) (s : string) :
  P c = false -> all_chars P s = true -> contains_char c s = false.
Proof.
  intros Hc. induction s as [|d s IH]; simpl; [reflexivity|].
  intros H. apply andb_true_iff in H as [Hd Hs].
  destruct (Ascii.eqb_spec d c) as [->|]; [congruence|]. simpl. auto.
Qed.

Lemma all_chars_first (P : ascii -> bool) (c : ascii) (s : string) :
  P c = false -> all_chars P s = true -> first_char_is c s = false.
Proof.
  intros Hc. destruct s as [|d s]; simpl; [reflexivity|].
  intros H. apply andb_true_iff in H as [Hd Hs].
  destruct (Ascii.eqb_spec d c) as [->|]; [congruence|reflexivity].
Qed.

Lemma string_app_nil (b : string) : "" +:+ b = b.
Proof. reflexivity. Qed.

Lemma string_app_cons (c : ascii) (a b : string) :
  String c a +:+ b = String c (a +:+ b).
Proof. reflexivity. Qed.

Lemma string_app_assoc (a b c : string) : (a +:+ b) +:+ c = a +:+ (b +:+ c).
Proof.
  induction a as [|d a IH]; [reflexivity|].
  rewrite !string_app_cons, IH. reflexivity.
Qed.

Lemma string_app_empty_r (a : string) : a +:+ "" = a.
Proof.
  induction a as [|d a IH]; [reflexivity|].
  rewrite string_app_cons, IH. reflexivity.
Qed.

Lemma lower_ascii_idem (c : ascii) : lower_ascii (lower_ascii c) = lower_ascii c.
Proof. destruct c as [[] [] [] [] [] [] [] []]; reflexivity. Qed.

Lemma toLowerCase_idem (s : string) : toLowerCase (toLowerCase s) = toLowerCase s.
Proof.
  induction s as [|c s IH]; simpl; [reflexivity|].
  rewrite lower_ascii_idem, IH. reflexivity.
Qed.

Lemma same_header_lower (n k : string) :
  same_header n (toLowerCase k) = same_header n k.
Proof. unfold same_header. rewrite toLowerCase_idem. reflexivity. Qed.

Lemma startsWith_spec (p s : string) :
  startsWith p s = true <-> exists r, s = p +:+ r.
Proof.
  unfold startsWith. revert s. induction p as [|a p IH]; intros s.
  - split; [intros _; exists s; reflexivity|]. intros _. destruct s; reflexivity.
  - destruct s as [|b s]; simpl;
      [split; [discriminate|intros [r Hr]; discriminate]|].
    destruct (ascii_dec a b) as [<-|Hab].
    + rewrite IH. split; intros [r Hr]; exists r.
      * rewrite string_app_cons. congruence.
      * rewrite string_app_cons in Hr. congruence.
    + split; [discriminate|]. intros [r Hr].
      rewrite string_app_cons in Hr. congruence.
Qed.

Lemma contains_char_app (c : ascii) (a b : string) :
  contains_char c (a +:+ b) = contains_char c a || contains_char c b.
Proof.
  induction a as [|d a IH]; [reflexivity|].
  rewrite string_app_cons. simpl. rewrite IH. apply orb_assoc.
Qed.

Lemma split_at_app (c : ascii) (a b : string) :
  contains_char c a = false -> split_at c (a +:+ String c b) = (a, Some b).
Proof.
  induction a as [|d a IH]; simpl; intros H.
  - rewrite ?string_app_nil. simpl. rewrite Ascii.eqb_refl. reflexivity.
  - apply orb_false_iff in H as [Hd Ha]. rewrite ?string_app_cons. simpl.
    rewrite Hd, (IH Ha). reflexivity.
Qed.

Lemma split_at_none (c : ascii) (a : string) :
  contains_char c a = false -> split_at c a = (a, None).
Proof.
  induction a as [|d a IH]; simpl; intros H; [reflexivity|].
  apply orb_false_iff in H as [Hd Ha]. rewrite Hd, (IH Ha). reflexivity.
Qed.

Lemma first_char_is_cons (c : ascii) (s : string) :
  first_char_is c s = true -> exists r, s = String c r.
Proof.
  destruct s as [|d r]; simpl; [discriminate|].
  intros H. apply Ascii.eqb_eq in H. subst d. eauto.
Qed.

Lemma replace_char_absent_after (c : ascii) (by_ s : string) :
  contains_char c by_ = false -> contains_char c (replace_char c by_ s) = false.
Proof.
  intros Hb. induction s as [|d s IH]; simpl; [reflexivity|].
  destruct (Ascii.eqb_spec d c) as [->|Hd].
  - rewrite contains_char_app, Hb, IH. reflexivity.
  - simpl. apply Ascii.eqb_neq in Hd. rewrite Hd. exact IH.
Qed.

Lemma replace_char_keeps_absent (c d : ascii) (by_ s : string) :
  contains_char d by_ = false -> contains_char d s = false ->
  contains_char d (replace_char c by_ s) = false.
Proof.
  intros Hb. induction s as [|e s IH]; simpl; [reflexivity|].
  intros H. apply orb_false_iff in H as [He Hs].
  destruct (Ascii.eqb e c).
  - rewrite contains_char_app, Hb, (IH Hs). reflexivity.
  - simpl. rewrite He. simpl. exact (IH Hs).
Qed.

(** ** Lists *)

Lemma find_pointwise {A} (p q : A -> bool) (l : list A) :
  (forall x, p x = q x) -> List.find p l = List.find q l.
Proof.
  intros H. induction l as [|a l IH]; simpl; [reflexivity|].
  rewrite H, IH. reflexivity.
Qed.

Lemma filter_unique (p : string -> bool) (l : list string) (k : string) :
  List.NoDup l -> In k l -> p k = true ->
  (forall x, In x l -> p x = true -> x = k) ->
  List.filter p l = [k].
Proof.
  induction l as [|a l IH]; simpl; [tauto|].
  intros Hn Hin Hk Hu. inversion Hn as [|? ? Ha Hl]; subst.
  assert (Hrest : ~ In k l -> List.filter p l = []).
  { intros Hk'. clear IH Hn Hl Ha Hin. induction l as [|b l IHl]; [reflexivity|].
    simpl. destruct (p b) eqn:Hb.
    - exfalso. apply Hk'. left. apply Hu; [simpl; auto|exact Hb].
    - apply IHl; [intros x Hx; apply Hu; simpl in *; tauto|].
      intros Hx. apply Hk'. right. exact Hx. }
  destruct (p a) eqn:Hpa.
  - assert (a = k) as -> by (apply Hu; auto).
    rewrite Hrest by assumption. reflexivity.
  - destruct Hin as [->|Hin]; [congruence|]. apply IH; auto.
Qed.

(** ** Objects *)

Section ObjectFacts.

Context {V : Type}.
Implicit Types (o : obj V) (k : string) (v : V).

Lemma obj_get_update o k v k' :
  obj_has o k = true ->
  obj_get (obj_update o k v) k' = if String.eqb k k' then Some v else obj_get o k'.
Proof.
  unfold obj_has. induction o as [|[a b] r IH]; simpl; [discriminate|].
  destruct (String.eqb_spec a k) as [->|Hak]; simpl.
  - intros _. destruct (String.eqb k k'); reflexivity.
  - intros H. destruct (String.eqb_spec a k') as [->|Hak'].
    + destruct (String.eqb_spec k k'); [congruence|reflexivity].
    + apply IH, H.
Qed.

Lemma obj_get_insert_index n o k v k' :
  obj_get o k = None ->
  obj_get (obj_insert_index n k v o) k' = if String.eqb k k' then Some v else obj_get o k'.
Proof.
  induction o as [|[a b] r IH]; simpl.
  - destruct (String.eqb k k'); reflexivity.
  - destruct (String.eqb_spec a k) as [->|Hak]; [discriminate|]. intros H.
    destruct (array_index a) as [m|]; [destruct (m <? n)%N|]; simpl;
      try (destruct (String.eqb k k'); reflexivity).
    destruct (String.eqb_spec a k') as [->|Hak'].
    + destruct (String.eqb_spec k k'); [congruence|reflexivity].
    + apply IH, H.
Qed.

Lemma obj_get_app o1 o2 k :
  obj_get (o1 ++ o2) k = match obj_get o1 k with Some v => Some v | None => obj_get o2 k end.
Proof.
  induction o1 as [|[a b] r IH]; simpl; [reflexivity|].
  destruct (String.eqb a k); [reflexivity|apply IH].
Qed.

(** Reading after defining: the defined key holds the new value, the
    other keys are as before. *)
Lemma obj_get_define o k v k' :
  obj_get (obj_define o k v) k' = if String.eqb k k' then Some v else obj_get o k'.
Proof.
  unfold obj_define. destruct (obj_has o k) eqn:Hh.
  - apply obj_get_update, Hh.
  - unfold obj_has in Hh. destruct (obj_get o k) eqn:Hg; [discriminate|].
    destruct (array_index k).
    + apply obj_get_insert_index, Hg.
    + rewrite obj_get_app. simpl.
      destruct (String.eqb_spec k k') as [<-|].
      * rewrite Hg. reflexivity.
      * destruct (obj_get o k'); reflexivity.
Qed.

Lemma obj_set_named o k v : k <> "__proto__" -> obj_set o k v = obj_define o k v.
Proof.
  intros H. unfold obj_set. apply String.eqb_neq in H. rewrite H, andb_false_r.
  reflexivity.
Qed.

Lemma obj_set_own o k v : obj_has o k = true -> obj_set o k v = obj_define o k v.
Proof. intros H. unfold obj_set. rewrite H. reflexivity. Qed.

(** An assignment to [__proto__] leaves an object that does not own that
    key as it is. *)
Lemma obj_set_proto o v : obj_has o "__proto__" = false -> obj_set o "__proto__" v = o.
Proof. intros H. unfold obj_set. rewrite H. reflexivity. Qed.

(** Reading after writing: the written key holds the written value unless
    the write went to the accessor [__proto__]; the other keys are as
    before. *)
Lemma obj_get_set_any o k v k' :
  obj_get (obj_set o k v) k'
  = if String.eqb k k' && (obj_has o k || negb (String.eqb k "__proto__"))
    then Some v else obj_get o k'.
Proof.
  unfold obj_set. destruct (obj_has o k) eqn:Hh; simpl.
  - rewrite andb_true_r. apply obj_get_define.
  - destruct (String.eqb_spec k "__proto__") as [->|Hk]; simpl.
    + rewrite andb_false_r. reflexivity.
    + rewrite andb_true_r. apply obj_get_define.
Qed.

Lemma obj_get_set o k v k' :
  k <> "__proto__" ->
  obj_get (obj_set o k v) k' = if String.eqb k k' then Some v else obj_get o k'.
Proof. intros H. rewrite obj_set_named by exact H. apply obj_get_define. Qed.

Lemma obj_get_set_eq o k v : k <> "__proto__" -> obj_get (obj_set o k v) k = Some v.
Proof. intros H. rewrite obj_get_set by exact H. rewrite String.eqb_refl. reflexivity. Qed.

Lemma obj_get_set_ne o k v k' : k <> k' -> obj_get (obj_set o k v) k' = obj_get o k'.
Proof.
  intros H. rewrite obj_get_set_any. apply String.eqb_neq in H. rewrite H. reflexivity.
Qed.

(** No assignment gives an object the key [__proto__]. *)
Lemma obj_set_keeps_no_proto o k v :
  obj_get o "__proto__" = None -> obj_get (obj_set o k v) "__proto__" = None.
Proof.
  intros H. rewrite obj_get_set_any.
  destruct (String.eqb_spec k "__proto__") as [->|Hk]; [|exact H].
  unfold obj_has. rewrite H. reflexivity.
Qed.

Lemma obj_get_In o k : obj_get o k <> None <-> In k (obj_keys o).
Proof.
  induction o as [|[a b] r IH]; simpl; [tauto|].
  destruct (String.eqb_spec a k) as [->|Hak].
  - split; [intros _; left; reflexivity | intros _; discriminate].
  - rewrite IH. split; [auto|]. intros [?|?]; [congruence|assumption].
Qed.

Lemma obj_keys_update o k v : obj_keys (obj_update o k v) = obj_keys o.
Proof.
  induction o as [|[a b] r IH]; simpl; [reflexivity|].
  destruct (String.eqb a k); simpl; [reflexivity|]. f_equal. apply IH.
Qed.

Lemma obj_keys_insert_index n o k v x :
  In x (obj_keys (obj_insert_index n k v o)) <-> x = k \/ In x (obj_keys o).
Proof.
  induction o as [|[a b] r IH]; simpl; [intuition|].
  destruct (array_index a) as [m|]; [destruct (m <? n)%N|]; simpl;
    rewrite ?IH; intuition congruence.
Qed.

Lemma obj_keys_insert_index_NoDup n o k v :
  ~ In k (obj_keys o) -> List.NoDup (obj_keys o) ->
  List.NoDup (obj_keys (obj_insert_index n k v o)).
Proof.
  induction o as [|[a b] r IH]; simpl; intros Hk Hn.
  - constructor; [simpl; tauto|constructor].
  - assert (Hc : List.NoDup (k :: a :: obj_keys r)).
    { constructor; [simpl; tauto|assumption]. }
    destruct (array_index a) as [m|]; [destruct (m <? n)%N|]; simpl; try exact Hc.
    inversion Hn; subst. constructor.
    + rewrite obj_keys_insert_index. intuition congruence.
    + apply IH; [tauto|assumption].
Qed.

Lemma obj_define_NoDup o k v :
  List.NoDup (obj_keys o) -> List.NoDup (obj_keys (obj_define o k v)).
Proof.
  intros Hn. unfold obj_define. destruct (obj_has o k) eqn:Hh.
  - rewrite obj_keys_update. exact Hn.
  - assert (Hk : ~ In k (obj_keys o)).
    { rewrite <- obj_get_In. unfold obj_has in Hh.
      destruct (obj_get o k); [discriminate|tauto]. }
    destruct (array_index k).
    + apply obj_keys_insert_index_NoDup; assumption.
    + unfold obj_keys. rewrite map_app. simpl.
      apply NoDup_ListNoDup. apply NoDup_app. repeat split.
      * apply NoDup_ListNoDup, Hn.
      * intros x Hx Hx'. apply list_elem_of_In in Hx.
        apply list_elem_of_In in Hx'. simpl in Hx'. destruct Hx' as [<-|[]].
        exact (Hk Hx).
      * apply NoDup_ListNoDup. constructor; [simpl; tauto|constructor].
Qed.

(** Writing keeps the keys of an object distinct. *)
Lemma obj_set_NoDup o k v :
  List.NoDup (obj_keys o) -> List.NoDup (obj_keys (obj_set o k v)).
Proof.
  intros Hn. unfold obj_set.
  destruct (negb (obj_has o k) && String.eqb k "__proto__"); [exact Hn|].
  apply obj_define_NoDup, Hn.
Qed.

Lemma obj_keys_define o k v x :
  In x (obj_keys (obj_define o k v)) <-> x = k \/ In x (obj_keys o).
Proof.
  rewrite <- !obj_get_In, obj_get_define.
  destruct (String.eqb_spec k x) as [->|Hne].
  - split; [auto|discriminate].
  - split; [auto|]. intros [->|H]; [congruence|exact H].
Qed.

Lemma obj_keys_set o k v x :
  k <> "__proto__" ->
  In x (obj_keys (obj_set o k v)) <-> x = k \/ In x (obj_keys o).
Proof. intros H. rewrite obj_set_named by exact H. apply obj_keys_define. Qed.

(** A key of the object after a write is the written key or an earlier
    key. *)
Lemma obj_keys_set_inv o k v x :
  In x (obj_keys (obj_set o k v)) -> x = k \/ In x (obj_keys o).
Proof.
  unfold obj_set. destruct (negb (obj_has o k) && String.eqb k "__proto__"); [auto|].
  apply obj_keys_define.
Qed.

Lemma obj_assign_keys_get (source : obj V) (ks : list string) (target : obj V) k :
  (forall x, In x ks -> obj_get source x <> None) ->
  obj_get
    (fold_left
       (fun t x => match obj_get source x with Some v => obj_set t x v | None => t end)
       ks target) k
  = if existsb (String.eqb k) ks
       && (obj_has target k || negb (String.eqb k "__proto__"))
    then obj_get source k else obj_get target k.
Proof.
  revert target. induction ks as [|a ks IH]; intros target Hks; simpl; [reflexivity|].
  rewrite IH by (intros x Hx; apply Hks; simpl; auto).
  destruct (obj_get source a) as [va|] eqn:Ha; [|exfalso; apply (Hks a); simpl; auto].
  assert (Hhas : obj_has (obj_set target a va) k || negb (String.eqb k "__proto__")
                 = obj_has target k || negb (String.eqb k "__proto__")).
  { unfold obj_has. rewrite obj_get_set_any.
    destruct (String.eqb_spec a k) as [->|Hak]; simpl; [|reflexivity].
    unfold obj_has. destruct (obj_get target k); simpl; [reflexivity|].
    destruct (String.eqb k "__proto__"); reflexivity. }
  rewrite Hhas.
  destruct (obj_has target k || negb (String.eqb k "__proto__")) eqn:Hs;
    rewrite ?andb_true_r, ?andb_false_r.
  - destruct (existsb (String.eqb k) ks); [rewrite orb_true_r; reflexivity|].
    rewrite orb_false_r. rewrite obj_get_set_any, (String.eqb_sym k a).
    destruct (String.eqb_spec a k) as [->|]; simpl; [|reflexivity].
    rewrite Hs. symmetry. exact Ha.
  - rewrite obj_get_set_any.
    destruct (String.eqb_spec a k) as [->|]; simpl; [|reflexivity].
    rewrite Hs. reflexivity.
Qed.

(** After [Object.assign(target, source)] a key of the source holds the
    value of the source, unless the write went to the accessor
    [__proto__], and any other key the value of the target. *)
Lemma obj_assign_get_any (target source : obj V) k :
  obj_get (obj_assign target source) k
  = match obj_get source k with
    | Some v =>
        if obj_has target k || negb (String.eqb k "__proto__")
        then Some v else obj_get target k
    | None => obj_get target k
    end.
Proof.
  unfold obj_assign. rewrite obj_assign_keys_get.
  - destruct (existsb (String.eqb k) (obj_keys source)) eqn:He; simpl.
    + destruct (obj_get source k) eqn:Hg; [reflexivity|].
      apply existsb_exists in He as (x & Hx & Hkx). apply String.eqb_eq in Hkx.
      subst x. apply obj_get_In in Hx. congruence.
    + destruct (obj_get source k) eqn:Hg; [|reflexivity].
      assert (Hin : In k (obj_keys source)) by (apply obj_get_In; congruence).
      assert (existsb (String.eqb k) (obj_keys source) = true); [|congruence].
      apply existsb_exists. exists k. split; [exact Hin|apply String.eqb_refl].
  - intros x Hx. apply obj_get_In, Hx.
Qed.

(** For a source that does not own [__proto__], as every object that
    assignments have built. *)
Lemma obj_assign_get (target source : obj V) k :
  obj_get source "__proto__" = None ->
  obj_get (obj_assign target source) k
  = match obj_get source k with Some v => Some v | None => obj_get target k end.
Proof.
  intros Hp. rewrite obj_assign_get_any.
  destruct (obj_get source k) as [v|] eqn:Hg; [|reflexivity].
  destruct (String.eqb_spec k "__proto__") as [->|]; [congruence|].
  rewrite orb_true_r. reflexivity.
Qed.

Lemma obj_assign_keys_inv (target source : obj V) k :
  In k (obj_keys (obj_assign target source)) ->
  In k (obj_keys source) \/ In k (obj_keys target).
Proof.
  rewrite <- !obj_get_In, obj_assign_get_any.
  destruct (obj_get source k); [left; discriminate|].
  intros H. right. exact H.
Qed.

End ObjectFacts.

(** ** Header lookup *)

(** The first entry of an object whose key satisfies a predicate. *)
Lemma first_entry_split {V} (p : string -> bool) (o : obj V) (k0 : string) :
  In k0 (obj_keys o) -> p k0 = true ->
  exists before k v after,
    o = before ++ (k, v) :: after
    /\ (forall x, In x (obj_keys before) -> p x = false)
    /\ p k = true.
Proof.
  induction o as [|[a b] r IH]; simpl; [tauto|].
  intros Hin Hp. destruct (p a) eqn:Hpa.
  - exists [], a, b, r. simpl. tauto.
  - destruct Hin as [->|Hin]; [congruence|].
    destruct (IH Hin Hp) as (before & k & v & after & -> & Hb & Hk).
    exists ((a, b) :: before), k, v, after. simpl. repeat split; auto.
    intros x [<-|Hx]; auto.
Qed.

Lemma find_key_split {V} (p : string -> bool) (before after : obj V) k v :
  (forall x, In x (obj_keys before) -> p x = false) -> p k = true ->
  find_key p (before ++ (k, v) :: after) = Some k.
Proof.
  unfold find_key. induction before as [|[a b] r IH]; simpl; intros Hb Hk.
  - rewrite Hk. reflexivity.
  - rewrite (Hb a) by auto. apply IH; auto.
Qed.

Lemma obj_get_split {V} (p : string -> bool) (before after : obj V) k v :
  (forall x, In x (obj_keys before) -> p x = false) -> p k = true ->
  obj_get (before ++ (k, v) :: after) k = Some v.
Proof.
  induction before as [|[a b] r IH]; simpl; intros Hb Hk.
  - rewrite String.eqb_refl. reflexivity.
  - destruct (String.eqb_spec a k) as [->|].
    + rewrite (Hb k) in Hk by auto. discriminate.
    + apply IH; auto.
Qed.

Lemma find_key_Some {V} (p : string -> bool) (o : obj V) k :
  find_key p o = Some k -> In k (obj_keys o) /\ p k = true.
Proof. unfold find_key. apply find_some. Qed.

Lemma getHeaderName_match (headers : obj string) (n k : string) :
  getHeaderName headers n = Some k ->
  In k (obj_keys headers) /\ same_header n k = true.
Proof.
  unfold getHeaderName. intros H. apply find_key_Some in H as [Hin Hp].
  split; [assumption|]. destruct (same_header n k); [reflexivity|discriminate].
Qed.

(** Whenever [hasHeader] answers yes, [getHeaderName] finds a key. *)
Lemma hasHeader_getHeaderName (headers : obj string) (n : string) :
  hasHeader headers n = true -> exists k, getHeaderName headers n = Some k.
Proof.
  unfold hasHeader, getHeaderName, find_key.
  induction (obj_keys headers) as [|a r IH]; simpl; [discriminate|].
  destruct (same_header n a) eqn:Ha.
  - intros ->. eauto.
  - exact IH.
Qed.

(** C10: when two or more distinct keys of a headers object equal the
    looked-up name ignoring case, [getHeader] returns the value of the
    first such key in the order in which the keys are enumerated, and
    [getHeaderName] returns that same first key. *)
Theorem getHeader_first_match (headers : obj string) (n k1 k2 : string) :
  In k1 (obj_keys headers) -> In k2 (obj_keys headers) -> k1 <> k2 ->
  same_header n k1 = true -> same_header n k2 = true ->
  exists before k v after,
    headers = before ++ (k, v) :: after
    /\ (forall x, In x (obj_keys before) -> same_header n x = false)
    /\ same_header n k = true
    /\ getHeader headers n = Some v
    /\ getHeaderName headers n = Some k.
Proof.
  intros H1 H2 Hne M1 M2.
  destruct (first_entry_split (same_header n) headers k1 H1 M1)
    as (before & k & v & after & -> & Hb & Hk).
  exists before, k, v, after. repeat split; auto.
  - unfold getHeader. rewrite (find_key_split _ _ _ _ _ Hb Hk).
    apply (obj_get_split _ _ _ _ _ Hb Hk).
  - assert (Hlive : truthy k = true).
    { destruct (truthy k1) eqn:T1.
      - exact (same_header_truthy n k1 k M1 Hk T1).
      - destruct (truthy k2) eqn:T2.
        + exact (same_header_truthy n k2 k M2 Hk T2).
        + apply truthy_false in T1, T2. congruence. }
    unfold getHeaderName. apply find_key_split.
    + intros x Hx. rewrite (Hb x Hx). reflexivity.
    + rewrite Hk. exact Hlive.
Qed.

Lemma getHeader_first_match_witness :
  let headers := [("Accept", "a"); ("x", "y"); ("accept", "b")] in
  exists before k v after,
    headers = before ++ (k, v) :: after
    /\ (forall x, In x (obj_keys before) -> same_header "ACCEPT" x = false)
    /\ same_header "ACCEPT" k = true
    /\ getHeader headers "ACCEPT" = Some v
    /\ getHeaderName headers "ACCEPT" = Some k.
Proof.
  apply (getHeader_first_match _ "ACCEPT" "Accept" "accept");
    simpl; auto; discriminate.
Defined.

Example getHeader_duplicates :
  getHeader [("Accept", "a"); ("x", "y"); ("accept", "b")] "ACCEPT" = Some "a"
  /\ getHeaderName [("Accept", "a"); ("x", "y"); ("accept", "b")] "ACCEPT"
     = Some "Accept".
Proof. split; reflexivity. Qed.

(** The callback of [getHeaderName] answers with the key, and the empty
    key reads as a failed test. *)
Example getHeaderName_empty_key :
  getHeader [("", "v")] "" = Some "v" /\ getHeaderName [("", "v")] "" = None.
Proof. split; reflexivity. Qed.

Example version_test :
  HTTP_2_VERSION_REGEX "HTTP/2" = true /\ HTTP_2_VERSION_REGEX "HTTP/2.0" = true
  /\ HTTP_2_VERSION_REGEX "HTTP/1.1" = false /\ HTTP_2_VERSION_REGEX "h2" = false.
Proof. repeat split; reflexivity. Qed.

(** ** Keys selected by a predicate *)

Lemma same_header_nonempty (n k : string) :
  n <> "" -> same_header n k = true -> truthy k = true.
Proof.
  intros Hn Hk. destruct k; [|reflexivity]. exfalso. apply Hn.
  unfold same_header in Hk. apply String.eqb_eq in Hk. simpl in Hk.
  symmetry in Hk. apply toLowerCase_empty, Hk.
Qed.

Lemma find_key_None {V} (p : string -> bool) (o : obj V) :
  find_key p o = None <-> forall k, In k (obj_keys o) -> p k = false.
Proof.
  unfold find_key. split.
  - intros H k Hk. exact (find_none _ _ H k Hk).
  - induction (obj_keys o) as [|a l IH]; simpl; [reflexivity|].
    intros H. rewrite (H a) by auto. apply IH. intros k Hk. apply H. auto.
Qed.

Lemma find_key_header_name (headers : obj string) (n : string) :
  n <> "" -> getHeaderName headers n = find_key (same_header n) headers.
Proof.
  intros Hn. unfold getHeaderName, find_key. apply find_pointwise. intros k.
  destruct (same_header n k) eqn:Hk; [|reflexivity].
  exact (same_header_nonempty n k Hn Hk).
Qed.

Lemma hasHeader_false (headers : obj string) (n : string) :
  n <> "" -> hasHeader headers n = false -> find_key (same_header n) headers = None.
Proof.
  intros Hn. unfold hasHeader.
  destruct (find_key (same_header n) headers) as [k|] eqn:Hf; [|reflexivity].
  apply find_key_Some in Hf as [_ Hm].
  rewrite (same_header_nonempty n k Hn Hm). discriminate.
Qed.

Lemma find_key_update {V} (p : string -> bool) (o : obj V) k v :
  find_key p (obj_update o k v) = find_key p o.
Proof. unfold find_key. rewrite obj_keys_update. reflexivity. Qed.

Lemma find_key_app {V} (p : string -> bool) (o1 o2 : obj V) :
  find_key p (o1 ++ o2)
  = match find_key p o1 with Some k => Some k | None => find_key p o2 end.
Proof.
  unfold find_key, obj_keys. rewrite map_app.
  induction (map fst o1) as [|a l IH]; simpl; [reflexivity|].
  destruct (p a); [reflexivity|exact IH].
Qed.

Lemma find_as_filter {A} (p : A -> bool) (l : list A) :
  List.find p l = match List.filter p l with x :: _ => Some x | [] => None end.
Proof.
  induction l as [|a l IH]; simpl; [reflexivity|].
  destruct (p a); [reflexivity|exact IH].
Qed.

Lemma parse_digits_lower (s : string) acc n :
  parse_digits acc s = Some n -> toLowerCase s = s.
Proof.
  revert acc. induction s as [|c s IH]; intros acc; simpl; [reflexivity|].
  destruct (digit_of c) as [d|] eqn:Hd; [|discriminate].
  intros H. rewrite (IH _ H). f_equal.
  unfold digit_of in Hd. unfold lower_ascii, is_upper.
  destruct ((48 <=? N_of_ascii c) && (N_of_ascii c <=? 57))%N eqn:Hr; [|discriminate].
  apply andb_true_iff in Hr as [_ Hr]. apply N.leb_le in Hr.
  destruct ((65 <=? N_of_ascii c) && (N_of_ascii c <=? 90))%N eqn:Hu; [|reflexivity].
  apply andb_true_iff in Hu as [Hu _]. apply N.leb_le in Hu. lia.
Qed.

Lemma array_index_lower (k : string) n :
  array_index k = Some n -> toLowerCase k = k.
Proof.
  unfold array_index. destruct k as [|c k]; [discriminate|].
  destruct (Ascii.eqb_spec c "0") as [->|Hc].
  - destruct k; [reflexivity|discriminate].
  - assert (H : match parse_digits 0 (String c k) with
                | Some n0 => if (n0 <? 4294967295)%N then Some n0 else None
                | None => None
                end = Some n -> toLowerCase (String c k) = String c k).
    { destruct (parse_digits 0 (String c k)) eqn:Hp; [|discriminate].
      intros _. exact (parse_digits_lower _ _ _ Hp). }
    destruct c as [[] [] [] [] [] [] [] []]; try exact H; congruence.
Qed.

Section FilteredKeys.

Context {V : Type}.
Variable p : string -> bool.
Hypothesis p_named : forall k, p k = true -> array_index k = None.

Lemma filter_keys_insert_index n (o : obj V) k v :
  p k = false ->
  List.filter p (obj_keys (obj_insert_index n k v o)) = List.filter p (obj_keys o).
Proof.
  intros Hk. induction o as [|[a b] r IH]; simpl; [rewrite Hk; reflexivity|].
  destruct (array_index a) as [m|]; [destruct (m <? n)%N|]; simpl;
    rewrite ?Hk, ?IH; reflexivity.
Qed.

Lemma filter_keys_define (o : obj V) k v :
  List.filter p (obj_keys (obj_define o k v))
  = List.filter p (obj_keys o)
    ++ (if p k && negb (obj_has o k) then [k] else []).
Proof.
  unfold obj_define. destruct (obj_has o k) eqn:Hh.
  - rewrite obj_keys_update, andb_false_r, app_nil_r. reflexivity.
  - rewrite andb_true_r. destruct (array_index k) as [n|] eqn:Hi.
    + assert (Hk : p k = false).
      { destruct (p k) eqn:E; [|reflexivity]. rewrite (p_named k E) in Hi. discriminate. }
      rewrite filter_keys_insert_index by exact Hk. rewrite Hk, app_nil_r. reflexivity.
    + unfold obj_keys. rewrite map_app, List.filter_app. simpl.
      destruct (p k); reflexivity.
Qed.

(** The keys that [p] selects, after a write: the ones before it, then
    the written key when it is selected and new. *)
Lemma filter_keys_set (o : obj V) k v :
  List.filter p (obj_keys (obj_set o k v))
  = List.filter p (obj_keys o)
    ++ (if p k && negb (obj_has o k) && negb (String.eqb k "__proto__")
        then [k] else []).
Proof.
  unfold obj_set. destruct (obj_has o k) eqn:Hh; simpl.
  - rewrite filter_keys_define, Hh. simpl. rewrite !andb_false_r. reflexivity.
  - destruct (String.eqb k "__proto__"); simpl.
    + rewrite !andb_false_r, app_nil_r. reflexivity.
    + rewrite filter_keys_define, Hh. simpl. rewrite !andb_true_r. reflexivity.
Qed.

Lemma filter_keys_assign_fold (source : obj V) (ks : list string) (target : obj V) :
  List.NoDup ks -> (forall x, In x ks -> obj_get source x <> None) ->
  List.filter p
    (obj_keys
       (fold_left
          (fun t x => match obj_get source x with Some v => obj_set t x v | None => t end)
          ks target))
  = List.filter p (obj_keys target)
    ++ List.filter
         (fun k => p k && negb (obj_has target k) && negb (String.eqb k "__proto__")) ks.
Proof.
  revert target. induction ks as [|a ks IH]; intros target Hn Hs; simpl.
  - rewrite app_nil_r. reflexivity.
  - inversion Hn as [|? ? Ha Hn']; subst.
    destruct (obj_get source a) as [va|] eqn:Hg; [|exfalso; apply (Hs a); simpl; auto].
    rewrite IH by (auto; intros x Hx; apply Hs; simpl; auto).
    rewrite filter_keys_set, <- app_assoc. f_equal.
    assert (Hrest :
      List.filter (fun k => p k && negb (obj_has (obj_set target a va) k)
                            && negb (String.eqb k "__proto__")) ks
      = List.filter (fun k => p k && negb (obj_has target k)
                              && negb (String.eqb k "__proto__")) ks).
    { apply List.filter_ext_in. intros x Hx. unfold obj_has.
      rewrite obj_get_set_ne; [reflexivity|]. intros ->. exact (Ha Hx). }
    rewrite Hrest.
    destruct (p a && negb (obj_has target a) && negb (String.eqb a "__proto__"));
      reflexivity.
Qed.

(** The first key that [p] selects, after a write. *)
Lemma find_key_set (o : obj V) k v :
  (p k = true -> k <> "__proto__") ->
  find_key p (obj_set o k v)
  = match find_key p o with
    | Some k' => Some k'
    | None => if p k then Some k else None
    end.
Proof.
  intros Hk. unfold find_key. rewrite !find_as_filter, filter_keys_set.
  destruct (List.filter p (obj_keys o)) as [|x xs] eqn:Hf; [|reflexivity].
  simpl. destruct (p k) eqn:Hp; [|reflexivity]. simpl.
  assert (Hnew : obj_has o k = false).
  { unfold obj_has. destruct (obj_get o k) eqn:Hg; [|reflexivity]. exfalso.
    assert (Hin : In k (List.filter p (obj_keys o))).
    { apply List.filter_In. split; [apply obj_get_In; congruence|exact Hp]. }
    rewrite Hf in Hin. destruct Hin. }
  rewrite Hnew. simpl.
  assert (String.eqb k "__proto__" = false) as ->
    by (apply String.eqb_neq, Hk; reflexivity).
  reflexivity.
Qed.

(** The first key that [p] selects in an object built by a fold of
    writes: the first such key of the object at the start, and otherwise
    the key of the first element that writes one. *)
Lemma find_key_fold {A} (f : A -> string) (g : A -> V) (l : list A) (o : obj V) :
  (forall k, p k = true -> k <> "__proto__") ->
  find_key p (fold_left (fun o h => obj_set o (f h) (g h)) l o)
  = match find_key p o with
    | Some k => Some k
    | None => option_map f (List.find (fun h => p (f h)) l)
    end.
Proof.
  intros Hp. revert o. induction l as [|a l IH]; intros o; simpl.
  - destruct (find_key p o); reflexivity.
  - rewrite IH, find_key_set by (intros H; apply Hp, H).
    destruct (find_key p o); [reflexivity|].
    destruct (p (f a)); reflexivity.
Qed.

End FilteredKeys.

(** ** Folds that build an object *)



(** A fold of writes, read at a key other than [__proto__]: the value of
    the last element that wrote the key. *)
Lemma fold_left_set_get {A V} (f : A -> string) (g : A -> V) (l : list A)
    (o0 : obj V) k :
  k <> "__proto__" ->
  obj_get (fold_left (fun o h => obj_set o (f h) (g h)) l o0) k
  = match List.find (fun h => String.eqb (f h) k) (rev l) with
    | Some h => Some (g h)
    | None => obj_get o0 k
    end.
Proof.
  intros Hk. induction l as [|a l IH] using rev_ind; simpl; [reflexivity|].
  rewrite fold_left_app, rev_app_distr. simpl.
  rewrite obj_get_set_any.
  destruct (String.eqb_spec (f a) k) as [E|]; simpl; [|apply IH].
  assert (String.eqb (f a) "__proto__" = false) as ->
    by (apply String.eqb_neq; congruence).
  rewrite orb_true_r. reflexivity.
Qed.

Lemma fold_left_set_no_proto {A V} (f : A -> string) (g : A -> V) (l : list A)
    (o0 : obj V) :
  obj_get o0 "__proto__" = None ->
  obj_get (fold_left (fun o h => obj_set o (f h) (g h)) l o0) "__proto__" = None.
Proof.
  revert o0. induction l as [|a l IH]; simpl; intros o0 H; [assumption|].
  apply IH, obj_set_keeps_no_proto, H.
Qed.

Lemma fold_left_set_NoDup {A V} (f : A -> string) (g : A -> V) (l : list A)
    (o0 : obj V) :
  List.NoDup (obj_keys o0) ->
  List.NoDup (obj_keys (fold_left (fun o h => obj_set o (f h) (g h)) l o0)).
Proof.
  revert o0. induction l as [|a l IH]; simpl; intros o0 H; [assumption|].
  apply IH, obj_set_NoDup, H.
Qed.


Lemma fold_right_set_no_proto (l : list Pair) :
  obj_get (fold_right (fun c acc => obj_set acc (name c) (value c)) obj_empty l)
    "__proto__" = None.
Proof.
  induction l as [|a l IH]; simpl; [reflexivity|].
  apply obj_set_keeps_no_proto, IH.
Qed.


Lemma build_headersObj_fold (httpVersion : string) (hs : list Pair) :
  build_headersObj httpVersion hs
  = fold_left (fun o h => obj_set o (inserted_name httpVersion (name h)) (value h))
      hs obj_empty.
Proof. destruct hs; reflexivity. Qed.

Lemma build_headersObj_get (httpVersion : string) (hs : list Pair) k :
  k <> "__proto__" ->
  obj_get (build_headersObj httpVersion hs) k
  = last_value (inserted_name httpVersion) hs k.
Proof.
  intros Hk. rewrite build_headersObj_fold. unfold last_value.
  rewrite (fold_left_set_get (fun h => inserted_name httpVersion (name h)) value)
    by exact Hk.
  destruct (List.find _ _); reflexivity.
Qed.

(** A header named [__proto__] leaves no entry. *)
Lemma build_headersObj_no_proto (httpVersion : string) (hs : list Pair) :
  obj_get (build_headersObj httpVersion hs) "__proto__" = None.
Proof.
  rewrite build_headersObj_fold.
  apply (fold_left_set_no_proto (fun h => inserted_name httpVersion (name h)) value).
  reflexivity.
Qed.

Lemma build_headersObj_NoDup (httpVersion : string) (hs : list Pair) :
  List.NoDup (obj_keys (build_headersObj httpVersion hs)).
Proof.
  rewrite build_headersObj_fold.
  apply (fold_left_set_NoDup (fun h => inserted_name httpVersion (name h)) value).
  constructor.
Qed.


(** A cookie named [__proto__] leaves no entry. *)
Lemma build_cookiesObj_no_proto (cs : list Pair) :
  obj_get (build_cookiesObj cs) "__proto__" = None.
Proof.
  destruct cs as [|c cs]; [reflexivity|]. unfold build_cookiesObj.
  apply fold_right_set_no_proto.
Qed.


Lemma last_value_Some (f : string -> string) (l : list Pair) k v :
  last_value f l k = Some v -> exists h, In h l /\ f (name h) = k /\ value h = v.
Proof.
  unfold last_value. destruct (List.find _ _) as [h|] eqn:Hf; [|discriminate].
  simpl. intros [= <-]. apply find_some in Hf as [Hin Hk].
  exists h. rewrite <- in_rev in Hin. apply String.eqb_eq in Hk. auto.
Qed.

Lemma last_value_In (f : string -> string) (l : list Pair) h :
  In h l -> last_value f l (f (name h)) <> None.
Proof.
  unfold last_value. intros Hin.
  destruct (List.find _ _) as [h'|] eqn:Hf; [discriminate|].
  rewrite in_rev in Hin. apply (find_none _ _ Hf h) in Hin.
  rewrite String.eqb_refl in Hin. discriminate.
Qed.

(** The keys of the folded headers object are inserted names. *)
Lemma build_headersObj_keys (httpVersion : string) (hs : list Pair) x :
  In x (obj_keys (build_headersObj httpVersion hs)) ->
  x <> "__proto__"
  /\ exists h, In h hs /\ x = inserted_name httpVersion (name h).
Proof.
  intros Hx. apply obj_get_In in Hx.
  assert (Hp : x <> "__proto__").
  { intros ->. apply Hx, build_headersObj_no_proto. }
  split; [exact Hp|]. rewrite build_headersObj_get in Hx by exact Hp.
  destruct (last_value _ _ x) as [v|] eqn:Hl; [|congruence].
  apply last_value_Some in Hl as (h & Hin & Hn & _). eauto.
Qed.

(** ** The [content-type] key *)

Lemma content_type_not_proto (k : string) :
  same_header "content-type" k = true -> k <> "__proto__".
Proof. intros H ->. discriminate H. Qed.

Lemma content_type_named (k : string) :
  same_header "content-type" k = true -> array_index k = None.
Proof.
  intros Hk. destruct (array_index k) as [m|] eqn:Hi; [|reflexivity].
  apply array_index_lower in Hi as Hl. unfold same_header in Hk.
  apply String.eqb_eq in Hk. rewrite Hl in Hk. subst k. discriminate Hi.
Qed.

Lemma same_header_inserted (n version x : string) :
  same_header n (inserted_name version x) = same_header n x.
Proof.
  unfold inserted_name. destruct (HTTP_2_VERSION_REGEX version);
    [apply same_header_lower|reflexivity].
Qed.

(** The key that a case-insensitive lookup of [content-type] finds in the
    folded headers object is the inserted name of the first header of
    that name. *)
Lemma build_headersObj_content_type (httpVersion : string) (hs : list Pair) :
  find_key (same_header "content-type") (build_headersObj httpVersion hs)
  = option_map (fun h => inserted_name httpVersion (name h))
      (List.find (fun h => same_header "content-type" (name h)) hs).
Proof.
  rewrite build_headersObj_fold.
  rewrite (find_key_fold (same_header "content-type") content_type_named
             (fun h => inserted_name httpVersion (name h)) value hs obj_empty
             content_type_not_proto).
  simpl. f_equal. apply find_pointwise. intros h. apply same_header_inserted.
Qed.

(** The key that the multipart branch computes at lines 214 to 216. *)
Lemma content_type_key_computed (httpVersion : string) (hs : list Pair) :
  (if hasHeader (build_headersObj httpVersion hs) "content-type"
   then getHeaderName (build_headersObj httpVersion hs) "content-type"
   else Some "content-type")
  = Some (content_type_key httpVersion hs).
Proof.
  assert (Hn : "content-type" <> "") by discriminate.
  rewrite (find_key_header_name _ _ Hn).
  unfold hasHeader, content_type_key.
  rewrite build_headersObj_content_type.
  destruct (List.find _ hs) as [h|] eqn:Hf; simpl; [|reflexivity].
  apply find_some in Hf as [_ Hm].
  assert (Hk : same_header "content-type" (inserted_name httpVersion (name h)) = true)
    by (rewrite same_header_inserted; exact Hm).
  rewrite (same_header_nonempty _ _ Hn Hk). reflexivity.
Qed.

(** The [content-type] key is a key of the folded headers object exactly
    when some header has that name ignoring case. *)
Lemma content_type_key_cases (httpVersion : string) (hs : list Pair) :
  (exists h, In h hs /\ same_header "content-type" (name h) = true
             /\ content_type_key httpVersion hs = inserted_name httpVersion (name h)
             /\ obj_has (build_headersObj httpVersion hs)
                  (content_type_key httpVersion hs) = true)
  \/ ((forall h, In h hs -> same_header "content-type" (name h) = false)
      /\ content_type_key httpVersion hs = "content-type"
      /\ obj_has (build_headersObj httpVersion hs) "content-type" = false).
Proof.
  unfold content_type_key.
  destruct (List.find _ hs) as [h|] eqn:Hf.
  - left. apply find_some in Hf as [Hin Hm]. exists h.
    split; [exact Hin|]. split; [exact Hm|]. split; [reflexivity|].
    unfold obj_has.
    assert (Hk : same_header "content-type" (inserted_name httpVersion (name h)) = true)
      by (rewrite same_header_inserted; exact Hm).
    rewrite build_headersObj_get by (apply content_type_not_proto, Hk).
    pose proof (last_value_In (inserted_name httpVersion) hs h Hin) as Hl.
    destruct (last_value _ _ _); [reflexivity|congruence].
  - right. split; [intros h Hin; exact (find_none _ _ Hf h Hin)|].
    split; [reflexivity|]. unfold obj_has.
    rewrite build_headersObj_get by discriminate.
    destruct (last_value _ _ _) as [v|] eqn:Hl; [|reflexivity].
    apply last_value_Some in Hl as (h & Hin & Hn & _).
    pose proof (find_none _ _ Hf h Hin) as Hm. simpl in Hm.
    rewrite <- (same_header_inserted "content-type" httpVersion), Hn in Hm.
    discriminate Hm.
Qed.

Lemma lower_ascii_not_upper (c : ascii) : is_upper (lower_ascii c) = false.
Proof. destruct c as [[] [] [] [] [] [] [] []]; reflexivity. Qed.

(** A lower-cased string has no upper-case letter. *)
Lemma toLowerCase_no_upper (s : string) : no_upper (toLowerCase s) = true.
Proof.
  unfold no_upper. induction s as [|c s IH]; simpl; [reflexivity|].
  rewrite lower_ascii_not_upper, IH. reflexivity.
Qed.

(** ** Serialised query strings and formatted URLs *)

Lemma percent_byte_chars (c : ascii) : all_chars qs_char (percent_byte c) = true.
Proof. destruct c as [[] [] [] [] [] [] [] []]; reflexivity. Qed.

Lemma qs_escape_chars (s : string) : all_chars qs_char (qs_escape s) = true.
Proof.
  unfold qs_escape. induction s as [|c s IH]; simpl; [reflexivity|].
  destruct (unreserved c) eqn:Hc.
  - simpl. rewrite IH. unfold qs_char. rewrite Hc. reflexivity.
  - rewrite all_chars_app, percent_byte_chars, IH. reflexivity.
Qed.

Lemma qs_stringify_step_chars (fields : string) (kv : string * QVal) :
  all_chars qs_char fields = true ->
  all_chars qs_char (qs_stringify_step fields kv) = true.
Proof.
  intros Hf. unfold qs_stringify_step.
  assert (Hsep : all_chars qs_char (if truthy fields then fields +:+ "&" else fields) = true).
  { destruct (truthy fields); [|exact Hf]. rewrite all_chars_app, Hf. reflexivity. }
  destruct (snd kv) as [v|[|v0 vs]]; [| exact Hf |].
  - rewrite !all_chars_app, Hsep, !qs_escape_chars. reflexivity.
  - assert (H0 : all_chars qs_char
                   ((if truthy fields then fields +:+ "&" else fields)
                    +:+ (qs_escape (fst kv) +:+ "=") +:+ qs_escape v0) = true).
    { rewrite !all_chars_app, Hsep, !qs_escape_chars. reflexivity. }
    revert H0. generalize ((if truthy fields then fields +:+ "&" else fields)
                           +:+ (qs_escape (fst kv) +:+ "=") +:+ qs_escape v0).
    induction vs as [|v vs IH]; simpl; intros acc Hacc; [exact Hacc|].
    apply IH. rewrite !all_chars_app, Hacc, !qs_escape_chars. reflexivity.
Qed.

Lemma qs_stringify_chars (o : obj QVal) : all_chars qs_char (qs_stringify o) = true.
Proof.
  unfold qs_stringify. assert (H : all_chars qs_char "" = true) by reflexivity.
  revert H. generalize "". induction o as [|kv o IH]; simpl; intros acc H; [exact H|].
  apply IH, qs_stringify_step_chars, H.
Qed.

(** The search part of the URL that carries the merged query: a question
    mark and the serialised query, or nothing when the query is empty. *)
Lemma format_search_full (u : UrlObject) (q : obj QVal) :
  format_search (full_uriObj u q)
  = if truthy (qs_stringify q) then "?" +:+ qs_stringify q else "".
Proof.
  pose proof (qs_stringify_chars q) as Hc.
  assert (Hh : contains_char "#" (qs_stringify q) = false)
    by (apply (all_chars_excludes qs_char); [reflexivity|exact Hc]).
  assert (Hq : first_char_is "?" (qs_stringify q) = false)
    by (apply (all_chars_first qs_char); [reflexivity|exact Hc]).
  unfold full_uriObj. simpl.
  destruct (truthy (qs_stringify q)) eqn:Ht; unfold format_search; simpl;
    rewrite Ht; simpl; [|reflexivity].
  rewrite replace_char_absent by exact Hh. rewrite Ht, Hq. reflexivity.
Qed.

Lemma format_search_clean (u : UrlObject) : format_search (clean_uriObj u) = "".
Proof. reflexivity. Qed.

(** The other parts of a formatted URL do not depend on the query. *)
Lemma format_parts_full (u : UrlObject) (q : obj QVal) :
  format_protocol (full_uriObj u q) = format_protocol u
  /\ format_host (full_uriObj u q) = format_host u
  /\ format_pathname (full_uriObj u q) = format_pathname u
  /\ format_hash (full_uriObj u q) = format_hash u.
Proof.
  unfold full_uriObj. simpl. destruct (truthy (qs_stringify q)); repeat split.
Qed.

Lemma format_parts_clean (u : UrlObject) :
  format_protocol (clean_uriObj u) = format_protocol u
  /\ format_host (clean_uriObj u) = format_host u
  /\ format_pathname (clean_uriObj u) = format_pathname u
  /\ format_hash (clean_uriObj u) = format_hash u.
Proof. repeat split. Qed.

(** ** The body branches *)

(** What [url.format] writes for the search and for the fragment. *)
Lemma format_search_shape (u : UrlObject) :
  contains_char "#" (format_search u) = false
  /\ (format_search u = "" \/ exists r, format_search u = String "?" r).
Proof.
  unfold format_search.
  set (s := replace_char "#" "%23" _).
  assert (Hs : contains_char "#" s = false)
    by (apply replace_char_absent_after; reflexivity).
  destruct (truthy s) eqn:Ht; simpl.
  - destruct (first_char_is "?" s) eqn:Hf; simpl.
    + split; [exact Hs|]. right. apply first_char_is_cons, Hf.
    + split; [|right; exists s; reflexivity].
      change ("?" +:+ s) with (String "?" s). simpl. exact Hs.
  - split; [exact Hs|]. left. apply truthy_false, Ht.
Qed.

Lemma format_hash_shape (u : UrlObject) :
  format_hash u = "" \/ exists r, format_hash u = String "#" r.
Proof.
  unfold format_hash. destruct (truthy (or_empty (hash u))) eqn:Ht; simpl.
  - right. destruct (first_char_is "#" (or_empty (hash u))) eqn:Hf; simpl.
    + apply first_char_is_cons, Hf.
    + eexists. reflexivity.
  - left. apply truthy_false, Ht.
Qed.

(** A formatted URL whose protocol, host and path hold no question mark
    and no number sign, without its query: those three parts and the
    fragment. *)
Lemma strip_query_format (u : UrlObject) :
  let base := format_protocol u +:+ format_host u +:+ format_pathname u in
  contains_char "?" base = false -> contains_char "#" base = false ->
  strip_query (url_format u) = base +:+ format_hash u.
Proof.
  intros base Hq Hh.
  assert (Hu : url_format u = base +:+ format_search u +:+ format_hash u).
  { unfold url_format, base. rewrite !string_app_assoc. reflexivity. }
  rewrite Hu. clear Hu.
  destruct (format_search_shape u) as [Hsh Hs].
  assert (Hcut : split_at "?" (base +:+ format_search u) = (base, None)
                 \/ exists r, split_at "?" (base +:+ format_search u) = (base, Some r)).
  { destruct Hs as [->|[r ->]].
    - left. rewrite string_app_empty_r. apply split_at_none, Hq.
    - right. exists r. apply split_at_app, Hq. }
  assert (Hbs : contains_char "#" (base +:+ format_search u) = false)
    by (rewrite contains_char_app, Hh, Hsh; reflexivity).
  unfold strip_query.
  destruct (format_hash_shape u) as [->|[f ->]].
  - rewrite !string_app_empty_r, (split_at_none "#" _ Hbs).
    destruct Hcut as [->|[r ->]]; reflexivity.
  - rewrite <- string_app_assoc, (split_at_app "#" _ f Hbs).
    destruct Hcut as [->|[r ->]]; reflexivity.
Qed.

Section CanonicaliserFacts.

Variable reduce_pair : obj QVal -> Pair -> obj QVal.
Variable url_parse : string -> UrlObject.
Variable JSON_parse : string -> option Json.
Variable multipart_render : list Param -> string -> string.

Local Abbreviation prepare_body' :=
  (prepare_body reduce_pair JSON_parse multipart_render).
Local Abbreviation prepare' :=
  (prepare reduce_pair url_parse JSON_parse multipart_render).

(** The [throw] of [prepare] is never reached. *)
Lemma prepare_body_returns (pd : Har.PostData) (h : obj string) :
  exists body, prepare_body' pd h = Returns body.
Proof.
  unfold prepare_body. destruct (is_multipart (Har.mimeType pd)).
  - destruct (Har.params pd) as [ps|]; [|eauto].
    destruct (hasHeader h "content-type") eqn:Hh; [|eauto].
    destruct (hasHeader_getHeaderName _ _ Hh) as [k ->]. eauto.
  - destruct (String.eqb _ _); [destruct (Har.params pd); eauto|].
    destruct (is_json _); eauto.
Qed.

(** The headers object after the body branch: untouched, or with one key
    that equals [content-type] ignoring case rewritten. *)
Lemma prepare_body_headers (pd : Har.PostData) (h : obj string) pd' h' :
  prepare_body' pd h = Returns (pd', h') ->
  (rewrites_content_type pd = false /\ h' = h)
  \/ (rewrites_content_type pd = true
      /\ exists k v, same_header "content-type" k = true /\ h' = obj_set h k v).
Proof.
  unfold prepare_body, rewrites_content_type.
  destruct (is_multipart (Har.mimeType pd)); simpl.
  - destruct (Har.params pd) as [ps|]; [|intros [= <- <-]; auto].
    right. split; [reflexivity|].
    destruct (hasHeader h "content-type") eqn:Hh.
    + destruct (getHeaderName h "content-type") as [k|] eqn:Hk; [|discriminate].
      apply getHeaderName_match in Hk as [_ Hk].
      injection H as <- <-. eauto.
    + injection H as <- <-. exists "content-type". eauto.
  - left. split; [reflexivity|]. revert H.
    destruct (String.eqb _ _); [destruct (Har.params pd); congruence|].
    destruct (is_json _); congruence.
Qed.

(** The headers object after the body branch, for the object that the
    fold over the headers built. *)
Lemma prepare_body_rewrite (pd : Har.PostData) (version : string)
    (hs : list Pair) pd' h' :
  prepare_body' pd (build_headersObj version hs) = Returns (pd', h') ->
  h' = if rewrites_content_type pd
       then obj_set (build_headersObj version hs) (content_type_key version hs)
              multipart_content_type
       else build_headersObj version hs.
Proof.
  unfold prepare_body, rewrites_content_type.
  destruct (is_multipart (Har.mimeType pd)); simpl.
  - destruct (Har.params pd) as [ps|]; [|intros [= _ <-]; reflexivity].
    rewrite content_type_key_computed. intros [= _ <-]. reflexivity.
  - destruct (String.eqb _ _); [destruct (Har.params pd); intros [= _ <-]; reflexivity|].
    destruct (is_json _); intros [= _ <-]; reflexivity.
Qed.

Lemma content_type_key_not_proto (version : string) (hs : list Pair) :
  content_type_key version hs <> "__proto__".
Proof.
  destruct (content_type_key_cases version hs)
    as [(h & _ & Hm & -> & _)|(_ & -> & _)]; [|discriminate].
  apply content_type_not_proto. rewrite same_header_inserted. exact Hm.
Qed.

Lemma prepare_unfold (request : Har.Request) :
  exists pd' h',
    prepare_body' (Har.postData request)
      (build_headersObj (Har.httpVersion request) (Har.headers request))
    = Returns (pd', h')
    /\ exists c, prepare' request = Returns c
         /\ headersObj c = h' /\ postData c = pd'
         /\ cookiesObj c = build_cookiesObj (Har.cookies request)
         /\ queryObj c
            = obj_assign (build_queryObj reduce_pair (Har.queryString request))
                (match query (url_parse (Har.url request)) with
                 | Some q => q | None => obj_empty end)
         /\ url c = url_format (clean_uriObj (url_parse (Har.url request)))
         /\ fullUrl c
            = url_format (full_uriObj (url_parse (Har.url request)) (queryObj c)).
Proof.
  destruct (prepare_body_returns (Har.postData request)
              (build_headersObj (Har.httpVersion request) (Har.headers request)))
    as [[pd' h'] Hb].
  exists pd', h'. split; [exact Hb|].
  unfold prepare. rewrite Hb. simpl. eexists. split; [reflexivity|].
  simpl. repeat split; reflexivity.
Qed.

(** ** The headers object *)

(** The canonical headers object is the folded one, with the
    [content-type] key rewritten by the multipart branch. *)
Lemma headersObj_shape (request : Har.Request) :
  exists c, prepare' request = Returns c
    /\ headersObj c
       = if rewrites_content_type (Har.postData request)
         then obj_set (build_headersObj (Har.httpVersion request) (Har.headers request))
                (content_type_key (Har.httpVersion request) (Har.headers request))
                multipart_content_type
         else build_headersObj (Har.httpVersion request) (Har.headers request).
Proof.
  destruct (prepare_unfold request) as (pd' & h' & Hb & c & Hc & Hh & _).
  exists c. split; [exact Hc|]. rewrite Hh.
  exact (prepare_body_rewrite _ _ _ _ _ Hb).
Qed.

Lemma headersObj_NoDup (request : Har.Request) c :
  prepare' request = Returns c -> List.NoDup (obj_keys (headersObj c)).
Proof.
  intros Hc. destruct (headersObj_shape request) as (c' & Hc' & Hh).
  rewrite Hc in Hc'. injection Hc' as <-. rewrite Hh.
  destruct (rewrites_content_type _);
    [apply obj_set_NoDup|]; apply build_headersObj_NoDup.
Qed.

(** The canonical headers object never has the key [__proto__]. *)
Lemma headersObj_no_proto (request : Har.Request) c :
  prepare' request = Returns c -> obj_get (headersObj c) "__proto__" = None.
Proof.
  intros Hc. destruct (headersObj_shape request) as (c' & Hc' & Hh).
  rewrite Hc in Hc'. injection Hc' as <-. rewrite Hh.
  destruct (rewrites_content_type _);
    [apply obj_set_keeps_no_proto|]; apply build_headersObj_no_proto.
Qed.

(** A key of the canonical headers object, other than [__proto__], reads
    as the fold over the header sequence reads it, unless it is the key
    that the multipart branch rewrote. *)
Lemma headersObj_lookup (request : Har.Request) (k : string) :
  k <> "__proto__" ->
  exists c, prepare' request = Returns c
    /\ obj_get (headersObj c) k
       = if rewrites_content_type (Har.postData request)
            && String.eqb k (content_type_key (Har.httpVersion request)
                               (Har.headers request))
         then Some multipart_content_type
         else last_value (inserted_name (Har.httpVersion request))
                (Har.headers request) k.
Proof.
  intros Hk. destruct (headersObj_shape request) as (c & Hc & Hh).
  exists c. split; [exact Hc|]. rewrite Hh.
  destruct (rewrites_content_type _); simpl.
  - rewrite obj_get_set by apply content_type_key_not_proto.
    rewrite (String.eqb_sym k).
    destruct (String.eqb _ k); [reflexivity|apply build_headersObj_get, Hk].
  - apply build_headersObj_get, Hk.
Qed.

(** The keys of the canonical headers object: inserted names of headers,
    and the key [content-type] that the multipart branch adds when no
    header has that name. *)
Lemma headersObj_keys (request : Har.Request) (c : Request) (x : string) :
  prepare' request = Returns c ->
  In x (obj_keys (headersObj c)) ->
  (exists h, In h (Har.headers request)
             /\ x = inserted_name (Har.httpVersion request) (name h))
  \/ (rewrites_content_type (Har.postData request) = true
      /\ x = "content-type"
      /\ forall h, In h (Har.headers request) ->
           same_header "content-type" (name h) = false).
Proof.
  intros Hc Hx. destruct (headersObj_shape request) as (c' & Hc' & Hh).
  rewrite Hc in Hc'. injection Hc' as <-. rewrite Hh in Hx.
  destruct (rewrites_content_type _) eqn:Hr.
  - apply obj_keys_set_inv in Hx as [->|Hx].
    + destruct (content_type_key_cases (Har.httpVersion request) (Har.headers request))
        as [(h & Hin & _ & -> & _)|(Hnone & -> & _)]; [left; eauto|right; auto].
    + left. apply build_headersObj_keys in Hx as [_ Hx]. exact Hx.
  - left. apply build_headersObj_keys in Hx as [_ Hx]. exact Hx.
Qed.

(** C1, amended: canonicalisation builds the headers object by a left
    fold over the header sequence in which a later entry overwrites an
    earlier one of the same inserted name; the inserted name is the
    lower-cased name exactly when the protocol version starts with
    [HTTP/2], so that no key then has an upper-case letter, and the name
    with its original casing for every other version.  A key other than
    [__proto__] reads as the value of the last header inserted under it,
    except for the key that the multipart branch writes afterwards, which
    reads as the multipart content type. *)
Theorem prepare_headersObj_fold (request : Har.Request) (k : string) :
  k <> "__proto__" ->
  exists c, prepare' request = Returns c
    /\ (HTTP_2_VERSION_REGEX (Har.httpVersion request) = true
        <-> exists rest, Har.httpVersion request = "HTTP/2" +:+ rest)
    /\ (HTTP_2_VERSION_REGEX (Har.httpVersion request) = true ->
        forall x, In x (obj_keys (headersObj c)) -> no_upper x = true)
    /\ obj_get (headersObj c) k
       = if rewrites_content_type (Har.postData request)
            && String.eqb k (content_type_key (Har.httpVersion request)
                               (Har.headers request))
         then Some multipart_content_type
         else last_value
                (fun n => if startsWith "HTTP/2" (Har.httpVersion request)
                          then toLowerCase n else n)
                (Har.headers request) k.
Proof.
  intros Hk. destruct (headersObj_lookup request k Hk) as (c & Hc & Hg).
  exists c. split; [exact Hc|]. split; [apply startsWith_spec|].
  split; [|exact Hg].
  intros Hv x Hx.
  destruct (headersObj_keys request c x Hc Hx) as [(h & _ & ->)|(_ & -> & _)];
    [|reflexivity].
  unfold inserted_name. rewrite Hv. apply toLowerCase_no_upper.
Qed.

(** C2, amended: for a header whose inserted name is not [__proto__], the
    headers object holds exactly one entry for the name, where two names
    are the same name when they are equal ignoring case under a protocol
    version that starts with [HTTP/2], and when they are equal for every
    other version.  Its value is the value of the last occurrence of that
    name in sequence order, except for the key that the multipart branch
    writes afterwards, whose value is the multipart content type. *)
Theorem prepare_headersObj_duplicates (request : Har.Request) (h : Pair) :
  In h (Har.headers request) ->
  inserted_name (Har.httpVersion request) (name h) <> "__proto__" ->
  exists c, prepare' request = Returns c
    /\ exists k,
         List.filter (name_match (Har.httpVersion request) (name h))
           (obj_keys (headersObj c)) = [k]
         /\ obj_get (headersObj c) k
            = if rewrites_content_type (Har.postData request)
                 && String.eqb k (content_type_key (Har.httpVersion request)
                                    (Har.headers request))
              then Some multipart_content_type
              else option_map value
                     (List.find
                        (fun h' => name_match (Har.httpVersion request) (name h) (name h'))
                        (rev (Har.headers request))).
Proof.
  intros Hin Hp.
  set (ver := Har.httpVersion request) in *.
  set (k := inserted_name ver (name h)) in *.
  destruct (headersObj_lookup request k Hp) as (c & Hc & Hg).
  fold ver in Hg.
  exists c. split; [exact Hc|]. exists k.
  assert (Hmatch : forall x, name_match ver (name h) (inserted_name ver x)
                             = String.eqb (inserted_name ver x) k).
  { intros x. unfold name_match, k, inserted_name, same_header.
    destruct (HTTP_2_VERSION_REGEX ver); [|reflexivity].
    rewrite toLowerCase_idem. reflexivity. }
  assert (Hmatch' : forall x, name_match ver (name h) x
                              = String.eqb (inserted_name ver x) k).
  { intros x. unfold name_match, k, inserted_name, same_header.
    destruct (HTTP_2_VERSION_REGEX ver); reflexivity. }
  split.
  - apply filter_unique; [exact (headersObj_NoDup request c Hc)| | |].
    + apply obj_get_In. rewrite Hg.
      destruct (_ && _); [discriminate|]. apply last_value_In, Hin.
    + unfold k. rewrite Hmatch. apply String.eqb_refl.
    + intros x Hx Hm.
      destruct (headersObj_keys request c x Hc Hx)
        as [(h' & _ & ->)|(_ & -> & Hnone)]; fold ver in Hm |- *.
      * rewrite Hmatch in Hm. apply String.eqb_eq, Hm.
      * exfalso. specialize (Hnone h Hin).
        rewrite Hmatch' in Hm. apply String.eqb_eq in Hm.
        rewrite <- (same_header_inserted "content-type" ver) in Hnone.
        fold k in Hnone. rewrite <- Hm in Hnone.
        rewrite same_header_inserted in Hnone. discriminate Hnone.
  - rewrite Hg. destruct (_ && _); [reflexivity|].
    unfold last_value. f_equal. apply find_pointwise. intros h'.
    rewrite Hmatch'. reflexivity.
Qed.

(** ** The cookies object *)


(** ** The query object and the URLs *)

(** C4: a key that the object of the explicit query-string sequence and
    the query component of the URL both have holds, in the final query
    object, the value that the URL gives it.  So does every key of the
    query of the URL other than [__proto__], whether the explicit
    sequence has it or not. *)
Theorem prepare_queryObj_url_wins (request : Har.Request) (q : obj QVal)
    (k : string) (v : QVal) :
  query (url_parse (Har.url request)) = Some q ->
  obj_get q k = Some v ->
  exists c, prepare' request = Returns c
    /\ (obj_has (build_queryObj reduce_pair (Har.queryString request)) k = true ->
        obj_get (queryObj c) k = Some v)
    /\ (k <> "__proto__" -> obj_get (queryObj c) k = Some v).
Proof.
  intros Hq Hk.
  destruct (prepare_unfold request)
    as (pd' & h' & _ & c & Hc & _ & _ & _ & Hqo & _).
  exists c. split; [exact Hc|].
  rewrite Hqo, Hq, obj_assign_get_any, Hk. split.
  - intros ->. reflexivity.
  - intros Hne. apply String.eqb_neq in Hne. rewrite Hne, orb_true_r. reflexivity.
Qed.

(** C5, amended: for a request without explicit query-string pairs, [url]
    is the parsed URL formatted without its query, that is protocol, host
    and path followed by the fragment; it is the raw URL without its query
    when the raw URL is what [url.format] writes for its parse.
    [fullUrl] has the same protocol, host and path, then a question mark
    and the serialised query object when that is not empty, then the
    fragment.  So [fullUrl] is [url] followed by the question mark and
    the serialised query when the URL has no fragment. *)
Theorem prepare_url_fullUrl (request : Har.Request) :
  Har.queryString request = [] ->
  exists c, prepare' request = Returns c
    /\ let u := url_parse (Har.url request) in
       let qs := qs_stringify (queryObj c) in
       let base := format_protocol u +:+ format_host u +:+ format_pathname u in
       url c = base +:+ format_hash u
       /\ (Har.url request = url_format u ->
           contains_char "?" base = false -> contains_char "#" base = false ->
           url c = strip_query (Har.url request))
       /\ fullUrl c = base +:+ (if truthy qs then "?" +:+ qs else "") +:+ format_hash u
       /\ (format_hash u = "" ->
           fullUrl c = if truthy qs then url c +:+ "?" +:+ qs else url c).
Proof.
  intros Hqs.
  destruct (prepare_unfold request)
    as (pd' & h' & _ & c & Hc & _ & _ & _ & Hqo & Hu & Hf).
  exists c. split; [exact Hc|]. cbv zeta.
  set (u := url_parse (Har.url request)) in *.
  assert (Hurl : url c = (format_protocol u +:+ format_host u +:+ format_pathname u)
                         +:+ format_hash u).
  { rewrite Hu. unfold url_format.
    destruct (format_parts_clean u) as (-> & -> & -> & ->).
    rewrite format_search_clean, string_app_nil, !string_app_assoc. reflexivity. }
  assert (Hfull : fullUrl c
                  = (format_protocol u +:+ format_host u +:+ format_pathname u)
                    +:+ (if truthy (qs_stringify (queryObj c))
                         then "?" +:+ qs_stringify (queryObj c) else "")
                    +:+ format_hash u).
  { rewrite Hf. unfold url_format.
    destruct (format_parts_full u (queryObj c)) as (-> & -> & -> & ->).
    rewrite format_search_full, !string_app_assoc. reflexivity. }
  split; [exact Hurl|]. split; [|split; [exact Hfull|]].
  - intros Hraw Hq Hh. rewrite Hurl, Hraw. symmetry.
    apply strip_query_format; assumption.
  - intros Hh. rewrite Hfull, Hurl, Hh.
    destruct (truthy (qs_stringify (queryObj c)));
      rewrite ?string_app_empty_r, ?string_app_nil, ?string_app_assoc,
        ?string_app_empty_r; reflexivity.
Qed.

(** ** The body *)

Lemma is_json_branch (mime : string) :
  is_json mime = true ->
  is_multipart mime = false
  /\ String.eqb mime "application/x-www-form-urlencoded" = false.
Proof.
  unfold is_json. simpl. rewrite !orb_true_iff.
  intros [H|[H|[H|[H|H]]]]; try discriminate;
    apply String.eqb_eq in H; subst mime; split; reflexivity.
Qed.

(** C6: under a mime type of the JSON family the canonical mime type is
    [application/json]; a text that is not empty and parses as JSON is
    held, parsed, by [jsonObj]; when the parse fails the mime type falls
    back to [text/plain]; the text is left as it is, and [prepare]
    returns in every case. *)
Theorem prepare_json (request : Har.Request) :
  is_json (Har.mimeType (Har.postData request)) = true ->
  exists c, prepare' request = Returns c
    /\ text (postData c) = Har.text (Har.postData request)
    /\ (forall t v, Har.text (Har.postData request) = Some t -> t <> "" ->
          JSON_parse t = Some v ->
          mimeType (postData c) = "application/json" /\ jsonObj (postData c) = v)
    /\ (forall t, Har.text (Har.postData request) = Some t -> t <> "" ->
          JSON_parse t = None ->
          mimeType (postData c) = "text/plain")
    /\ (or_empty (Har.text (Har.postData request)) = "" ->
          mimeType (postData c) = "application/json"
          /\ jsonObj (postData c) = JBool false).
Proof.
  intros Hj. destruct (is_json_branch _ Hj) as [Hm Hu].
  destruct (prepare_unfold request) as (pd' & h' & Hb & c & Hc & _ & Hpd & _).
  exists c. split; [exact Hc|]. rewrite Hpd. clear Hc Hpd.
  unfold prepare_body in Hb. rewrite Hm, Hu, Hj in Hb.
  injection Hb as <- _. simpl.
  split; [reflexivity|]. split; [|split].
  - intros t v Ht Hne Hp. rewrite Ht. simpl.
    apply truthy_true in Hne. rewrite Hne, Hp. split; reflexivity.
  - intros t Ht Hne Hp. rewrite Ht. simpl.
    apply truthy_true in Hne. rewrite Hne, Hp. reflexivity.
  - intros He. rewrite He. split; reflexivity.
Qed.

End CanonicaliserFacts.

(** ** The serialisation of a mapping of strings *)












Section UrlEncodedBody.

Variable url_parse : string -> UrlObject.
Variable JSON_parse : string -> option Json.
Variable multipart_render : list Param -> string -> string.


End UrlEncodedBody.

(** ** The canonicaliser on concrete requests *)

Lemma prepare_headersObj_fold_witness :
  let request :=
    sample_request "http://x.test/upload" "HTTP/2" []
      [pair "Accept" "a"; pair "Content-Type" "text/plain"; pair "ACCEPT" "b"] []
      (sample_postData "multipart/form-data" None (Some [param "foo" "bar"])) in
  exists c, prepare_basic request = Returns c
    /\ obj_get (headersObj c) "accept" = Some "b"
    /\ obj_get (headersObj c) "Accept" = None
    /\ obj_get (headersObj c) "content-type"
       = Some "multipart/form-data; boundary=---011000010111000001101001".
Proof.
  intros request.
  destruct (prepare_headersObj_fold reducer url_parse_basic json_parse
              form_data_render request "accept") as (c & Hc & _ & _ & Ha);
    [discriminate|].
  destruct (prepare_headersObj_fold reducer url_parse_basic json_parse
              form_data_render request "Accept") as (c1 & Hc1 & _ & _ & Hb);
    [discriminate|].
  destruct (prepare_headersObj_fold reducer url_parse_basic json_parse
              form_data_render request "content-type") as (c2 & Hc2 & _ & _ & Ht);
    [discriminate|].
  rewrite Hc in Hc1, Hc2. injection Hc1 as <-. injection Hc2 as <-.
  exists c. split; [exact Hc|]. rewrite Ha, Hb, Ht. repeat split; reflexivity.
Defined.

Example headersObj_http2 :
  exists c,
    prepare_basic
      (sample_request "http://x.test/" "HTTP/2.0" []
         [pair "Accept" "a"; pair "X-Id" "1"; pair "ACCEPT" "b"] [] no_body)
    = Returns c
    /\ headersObj c = [("accept", "b"); ("x-id", "1")].
Proof. eexists. split; reflexivity. Qed.

Example headersObj_http1 :
  exists c,
    prepare_basic
      (sample_request "http://x.test/" "HTTP/1.1" []
         [pair "Accept" "a"; pair "X-Id" "1"; pair "Accept" "b"] [] no_body)
    = Returns c
    /\ headersObj c = [("Accept", "b"); ("X-Id", "1")].
Proof. eexists. split; reflexivity. Qed.

(** C1, as stated, fails in two places.  The multipart branch writes the
    [content-type] key after the fold, so that key does not hold the value
    of the last header of that name; and a header named [__proto__] is
    not inserted at all. *)
Lemma headersObj_fold_counterexample :
  (exists c,
     prepare_basic
       (sample_request "http://x.test/upload" "HTTP/1.1" []
          [pair "Content-Type" "text/plain"] []
          (sample_postData "multipart/form-data" None (Some [param "foo" "bar"])))
     = Returns c
     /\ last_value (fun n => n) [pair "Content-Type" "text/plain"] "Content-Type"
        = Some "text/plain"
     /\ obj_get (headersObj c) "Content-Type"
        = Some "multipart/form-data; boundary=---011000010111000001101001"
     /\ obj_get (headersObj c) "Content-Type"
        <> last_value (fun n => n) [pair "Content-Type" "text/plain"] "Content-Type")
  /\ (exists c,
        prepare_basic
          (sample_request "http://x.test/" "HTTP/1.1" []
             [pair "__proto__" "x"] [] no_body)
        = Returns c
        /\ last_value (fun n => n) [pair "__proto__" "x"] "__proto__" = Some "x"
        /\ headersObj c = []
        /\ obj_get (headersObj c) "__proto__"
           <> last_value (fun n => n) [pair "__proto__" "x"] "__proto__").
Proof.
  split; eexists; (split; [reflexivity|]); repeat split; try reflexivity;
    discriminate.
Qed.

Lemma prepare_headersObj_duplicates_witness :
  let request :=
    sample_request "http://x.test/upload" "HTTP/2" []
      [pair "Accept" "a"; pair "Content-Type" "text/plain"; pair "ACCEPT" "b"] []
      (sample_postData "multipart/form-data" None (Some [param "foo" "bar"])) in
  exists c, prepare_basic request = Returns c
    /\ exists k,
         List.filter (same_header "Accept") (obj_keys (headersObj c)) = [k]
         /\ obj_get (headersObj c) k = Some "b".
Proof.
  intros request.
  destruct (prepare_headersObj_duplicates reducer url_parse_basic json_parse
              form_data_render request (pair "Accept" "a"))
    as (c & Hc & k & Hk & Hv); [simpl; auto|discriminate|].
  exists c. split; [exact Hc|]. exists k. split; [exact Hk|].
  rewrite Hv.
  assert (k = "accept") as ->.
  { unfold prepare_basic in Hc. pose proof Hc as Hc'. vm_compute in Hc'.
    injection Hc' as <-. vm_compute in Hk. congruence. }
  reflexivity.
Defined.

(** C2, as stated, fails in three places.  For a version other than
    HTTP/2 two names that differ in case only are two entries of the
    headers object.  Headers named [__proto__] leave no entry.  And the
    entry that the multipart branch writes does not hold the value of the
    last occurrence. *)
Lemma headersObj_case_insensitive_counterexample :
  (exists c,
     prepare_basic
       (sample_request "http://x.test/" "HTTP/1.1" []
          [pair "Accept" "a"; pair "accept" "b"] [] no_body)
     = Returns c
     /\ List.filter (same_header "accept") (obj_keys (headersObj c))
        = ["Accept"; "accept"]
     /\ ~ one_entry_ignoring_case (headersObj c) "accept" "b")
  /\ (exists c,
        prepare_basic
          (sample_request "http://x.test/" "HTTP/2" []
             [pair "__proto__" "a"; pair "__PROTO__" "b"] [] no_body)
        = Returns c
        /\ List.filter (same_header "__proto__") (obj_keys (headersObj c)) = []
        /\ ~ one_entry_ignoring_case (headersObj c) "__proto__" "b")
  /\ (exists c,
        prepare_basic
          (sample_request "http://x.test/upload" "HTTP/2" []
             [pair "Content-Type" "a"; pair "content-type" "b"] []
             (sample_postData "multipart/form-data" None (Some [param "foo" "bar"])))
        = Returns c
        /\ headersObj c
           = [("content-type", "multipart/form-data; boundary=---011000010111000001101001")]
        /\ ~ one_entry_ignoring_case (headersObj c) "content-type" "b").
Proof.
  split; [|split]; eexists; (split; [reflexivity|]); (split; [reflexivity|]).
  - intros (k & Hk & _). discriminate Hk.
  - intros (k & Hk & _). discriminate Hk.
  - intros (k & Hk & Hv). injection Hk as <-. discriminate Hv.
Qed.


Example cookiesObj_first_wins :
  exists c,
    prepare_basic
      (sample_request "http://x.test/" "HTTP/1.1" [] []
         [pair "sid" "1"; pair "lang" "en"; pair "sid" "2"] no_body)
    = Returns c
    /\ obj_get (cookiesObj c) "sid" = Some "1"
    /\ obj_keys (cookiesObj c) = ["sid"; "lang"]
    /\ obj_get (allHeaders c) "cookie" = Some "sid=1; lang=en; sid=2".
Proof. eexists. repeat split; reflexivity. Qed.


Lemma prepare_queryObj_url_wins_witness :
  exists c,
    prepare_basic
      (sample_request "http://x.test/path?a=2" "HTTP/1.1" [pair "a" "1"] [] []
         no_body)
    = Returns c
    /\ obj_get (queryObj c) "a" = Some (QStr "2").
Proof.
  destruct (prepare_queryObj_url_wins reducer url_parse_basic json_parse
              form_data_render
              (sample_request "http://x.test/path?a=2" "HTTP/1.1" [pair "a" "1"] [] []
                 no_body)
              [("a", QStr "2")] "a" (QStr "2") eq_refl eq_refl)
    as (c & Hc & Hboth & _).
  exists c. split; [exact Hc|]. apply Hboth. reflexivity.
Defined.

(** The URL wins over the explicit pairs key by key; the other keys of
    both stay. *)
Example queryObj_merge :
  exists c,
    prepare_basic
      (sample_request "http://x.test/path?a=2&c=3" "HTTP/1.1"
         [pair "a" "1"; pair "b" "1"] [] [] no_body)
    = Returns c
    /\ queryObj c = [("a", QStr "2"); ("b", QStr "1"); ("c", QStr "3")]
    /\ fullUrl c = "http://x.test/path?a=2&b=1&c=3".
Proof. eexists. repeat split; reflexivity. Qed.

(** A key [__proto__] of the query of the URL is not copied. *)
Example queryObj_proto :
  exists c,
    prepare_basic
      (sample_request "http://x.test/path?__proto__=2&a=1" "HTTP/1.1" [] [] []
         no_body)
    = Returns c
    /\ query (url_parse_basic "http://x.test/path?__proto__=2&a=1")
       = Some [("__proto__", QStr "2"); ("a", QStr "1")]
    /\ queryObj c = [("a", QStr "1")]
    /\ fullUrl c = "http://x.test/path?a=1".
Proof. eexists. repeat split; reflexivity. Qed.

Lemma prepare_url_fullUrl_witness :
  let request := sample_request "http://x.test/p?x=1" "HTTP/1.1" [] [] [] no_body in
  exists c, prepare_basic request = Returns c
    /\ url c = "http://x.test/p"
    /\ url c = strip_query "http://x.test/p?x=1"
    /\ fullUrl c = "http://x.test/p?x=1"
    /\ fullUrl c = url c +:+ "?" +:+ "x=1".
Proof.
  intros request.
  destruct (prepare_url_fullUrl reducer url_parse_basic json_parse form_data_render
              request eq_refl) as (c & Hc & H).
  cbv zeta in H. destruct H as (Hurl & Htie & Hfull & Happ).
  exists c. split; [exact Hc|].
  assert (Hq : qs_stringify (queryObj c) = "x=1").
  { unfold prepare_basic in Hc. pose proof Hc as Hc'. vm_compute in Hc'.
    injection Hc' as <-. reflexivity. }
  rewrite Hq in Hfull, Happ.
  split; [rewrite Hurl; reflexivity|].
  split; [apply Htie; reflexivity|].
  split; [rewrite Hfull; reflexivity|].
  apply Happ. reflexivity.
Defined.

Example url_round_trip :
  exists c,
    prepare_basic (sample_request "http://x.test/p?x=1" "HTTP/1.1" [] [] [] no_body)
    = Returns c
    /\ url c = "http://x.test/p" /\ fullUrl c = "http://x.test/p?x=1".
Proof. eexists. repeat split; reflexivity. Qed.

(** C5, as stated, fails in two places.  For a URL with a fragment the
    serialised query is not appended to [url]: it goes before the
    fragment.  And [url] is the formatted parse of the raw URL, which
    writes the scheme and the host in lower case: it is not the raw URL
    without its query when the raw URL is written otherwise. *)
Lemma fullUrl_append_counterexample :
  (exists c,
     prepare_basic
       (sample_request "http://x.test/p?x=1#top" "HTTP/1.1" [] [] [] no_body)
     = Returns c
     /\ url c = "http://x.test/p#top"
     /\ qs_stringify (queryObj c) = "x=1"
     /\ fullUrl c = "http://x.test/p?x=1#top"
     /\ fullUrl c <> url c +:+ "?" +:+ qs_stringify (queryObj c))
  /\ (exists c,
        prepare_basic
          (sample_request "HTTP://X.test/p?x=1" "HTTP/1.1" [] [] [] no_body)
        = Returns c
        /\ url c = "http://x.test/p"
        /\ strip_query "HTTP://X.test/p?x=1" = "HTTP://X.test/p"
        /\ url c <> strip_query "HTTP://X.test/p?x=1").
Proof.
  split; eexists; (split; [reflexivity|]); repeat split; try reflexivity;
    discriminate.
Qed.

Lemma prepare_json_witness :
  let request :=
    sample_request "http://x.test/" "HTTP/1.1" [] [] []
      (sample_postData "text/x-json" (Some "{bad json") None) in
  exists c, prepare_basic request = Returns c
    /\ text (postData c) = Some "{bad json"
    /\ mimeType (postData c) = "text/plain".
Proof.
  intros request.
  destruct (prepare_json reducer url_parse_basic json_parse form_data_render request)
    as (c & Hc & Ht & _ & Hfail & _); [reflexivity|].
  exists c. split; [exact Hc|]. split; [exact Ht|].
  apply (Hfail "{bad json"); [reflexivity|discriminate|reflexivity].
Defined.

Example json_parsed :
  exists c,
    prepare_basic
      (sample_request "http://x.test/" "HTTP/1.1" [] [] []
         (sample_postData "text/json" (Some "[1, true]") None))
    = Returns c
    /\ mimeType (postData c) = "application/json"
    /\ jsonObj (postData c) = JArray [JNumber "1"; JBool true].
Proof. eexists. repeat split; reflexivity. Qed.

Example json_bad_text :
  exists c,
    prepare_basic
      (sample_request "http://x.test/" "HTTP/1.1" [] [] []
         (sample_postData "application/json" (Some "{bad json") None))
    = Returns c
    /\ mimeType (postData c) = "text/plain"
    /\ text (postData c) = Some "{bad json".
Proof. eexists. repeat split; reflexivity. Qed.


Example urlencoded_text :
  exists c,
    prepare_basic
      (sample_request "http://x.test/" "HTTP/1.1" [] [] []
         (sample_postData "application/x-www-form-urlencoded" (Some "old")
            (Some [param "a" "1"; param "b c" "x&y"; param "a" "2"])))
    = Returns c
    /\ text (postData c) = Some "a=2&b%20c=x%26y".
Proof. eexists. split; reflexivity. Qed.

(** ** The registry of targets *)

Section RegistryFacts.

Variable Options : Type.

Implicit Types (target : gmap string (TargetProp Options))
  (targets : gmap string (gmap string (TargetProp Options))).

Lemma registry_unshadowed targets :
  targets !! "hasOwnProperty" = None -> registry_shadowed Options targets = false.
Proof.
  intros H. unfold registry_shadowed. rewrite H.
  apply bool_decide_eq_false_2. intros [? ?]. discriminate.
Qed.

(** Whatever [addTarget] throws, the registry is the one it was given. *)
Lemma addTarget_throws_unchanged target targets msg targets' :
  addTarget Options target targets = (Throws msg, targets') -> targets' = targets.
Proof.
  unfold addTarget. destruct (target !! "info") as [info|]; [|congruence].
  repeat match goal with
         | |- context [if ?b then _ else _] => destruct b
         end; congruence.
Qed.

(** A target with an [info] and a client has two properties at least. *)
Lemma has_client_size target i :
  target !! "info" = Some (TInfo i) -> has_client target -> size target <> 1.
Proof.
  intros Hi (k & g & Hk) Hs.
  assert (Hne : k <> "info") by (intros ->; congruence).
  assert (Hd : size (delete "info" target) = 0).
  { rewrite map_size_delete, Hi, Hs. reflexivity. }
  apply map_size_empty_inv in Hd.
  assert (H : delete "info" target !! k = Some (TClient g))
    by (rewrite lookup_delete_ne by congruence; exact Hk).
  rewrite Hd, lookup_empty in H. discriminate.
Qed.

(** The key that a complete [info] gives. *)
Lemma complete_info_key (info : TargetProp Options) :
  negb (info_has Options info "key") || negb (info_has Options info "title")
  || negb (info_has Options info "extname") || negb (info_has Options info "default")
  = false ->
  exists i key, info = TInfo i /\ i !! "key" = Some key
    /\ key_of (info_field Options info "key") = key.
Proof.
  intros Hf.
  apply orb_false_iff in Hf as [Hf _]. apply orb_false_iff in Hf as [Hf _].
  apply orb_false_iff in Hf as [Hf _]. apply negb_false_iff in Hf.
  destruct info as [i|g]; [|discriminate]. simpl in Hf.
  apply bool_decide_eq_true in Hf as [key Hkey].
  exists i, key. simpl. rewrite Hkey. auto.
Qed.

(** C8, amended: [addTarget] throws when the target has no [info], when
    [info] lacks one of [key], [title], [extname] and [default], when the
    key of the target is already a key of the registry, and when [info]
    is the only property of the target; it counts the properties and does
    not look for a client among them.  When it throws the registry is
    unchanged, so that an earlier registration under the same key stays,
    and unless the registry has a target under the key [hasOwnProperty]
    the error is one of the four of [addTarget].  When it returns, the
    target is in the registry under its key; it returns so for every
    target with a complete [info], a key that is new and is not
    [__proto__], and a second property, in a registry without the key
    [hasOwnProperty].  Under the key [__proto__] it registers nothing. *)
Theorem addTarget_spec target targets :
  (target !! "info" = None
   \/ (exists info f, target !! "info" = Some info
         /\ In f ["key"; "title"; "extname"; "default"]
         /\ info_has Options info f = false)
   \/ (exists info, target !! "info" = Some info
         /\ is_Some (targets !! key_of (info_field Options info "key")))
   \/ size target = 1 ->
   exists msg, addTarget Options target targets = (Throws msg, targets))
  /\ (forall msg targets',
        addTarget Options target targets = (Throws msg, targets') ->
        targets' = targets
        /\ (targets !! "hasOwnProperty" = None -> In msg addTarget_errors))
  /\ (forall targets',
        addTarget Options target targets = (Returns tt, targets') ->
        exists info key,
          target !! "info" = Some (TInfo info) /\ info !! "key" = Some key
          /\ key <> "__proto__"
          /\ targets !! key = None
          /\ targets' = <[key := target]> targets
          /\ targets' !! key = Some target)
  /\ (forall info key,
        target !! "info" = Some (TInfo info) -> info !! "key" = Some key ->
        is_Some (info !! "title") -> is_Some (info !! "extname") ->
        is_Some (info !! "default") ->
        targets !! key = None -> targets !! "hasOwnProperty" = None ->
        size target <> 1 \/ has_client target ->
        addTarget Options target targets
        = if String.eqb key "__proto__" then (Reshapes tt, targets)
          else (Returns tt, <[key := target]> targets)).
Proof.
  split; [|split; [|split]].
  - unfold addTarget. intros [H|[(info & f & Hi & Hf & Hh)|[(info & Hi & Hk)|Hs]]].
    + rewrite H. eauto.
    + rewrite Hi.
      assert (negb (info_has Options info "key") || negb (info_has Options info "title")
              || negb (info_has Options info "extname")
              || negb (info_has Options info "default") = true) as ->; [|eauto].
      simpl in Hf. destruct Hf as [<-|[<-|[<-|[<-|[]]]]]; rewrite Hh; simpl;
        rewrite ?orb_true_r; reflexivity.
    + rewrite Hi. destruct (_ || _); [eauto|].
      destruct (registry_shadowed _ _); [eauto|].
      rewrite bool_decide_eq_true_2 by exact Hk. eauto.
    + destruct (target !! "info"); [|eauto].
      destruct (_ || _); [eauto|]. destruct (registry_shadowed _ _); [eauto|].
      destruct (bool_decide _); [eauto|].
      rewrite Hs. simpl. eauto.
  - intros msg targets' H. split; [exact (addTarget_throws_unchanged _ _ _ _ H)|].
    intros Hs. revert H. unfold addTarget, addTarget_errors.
    rewrite (registry_unshadowed _ Hs).
    destruct (target !! "info") as [info|]; [|intros [= <- _]; simpl; auto].
    repeat match goal with
           | |- context [if ?b then _ else _] => destruct b
           end; intros [= <- _] || discriminate; simpl; auto.
  - intros targets'. unfold addTarget.
    destruct (target !! "info") as [info|] eqn:Hi; [|discriminate].
    destruct (_ || _) eqn:Hf; [discriminate|].
    destruct (registry_shadowed _ _); [discriminate|].
    destruct (bool_decide _) eqn:Hk; [discriminate|].
    destruct (Nat.eqb _ _); [discriminate|].
    destruct (String.eqb _ _) eqn:Hp; [discriminate|]. intros [= <-].
    destruct (complete_info_key _ Hf) as (i & key & -> & Hkey & Hko).
    rewrite Hko in *. apply bool_decide_eq_false in Hk. apply String.eqb_neq in Hp.
    exists i, key.
    split; [reflexivity|]. split; [exact Hkey|]. split; [exact Hp|]. split.
    + destruct (targets !! key) eqn:Ht; [|reflexivity].
      exfalso. apply Hk. eauto.
    + split; [reflexivity|apply lookup_insert_eq].
  - intros info key Hi Hk Ht He Hd Hfree Hsh Hs. unfold addTarget. rewrite Hi. simpl.
    rewrite !bool_decide_eq_true_2 by (rewrite ?Hk; eauto). simpl.
    rewrite (registry_unshadowed _ Hsh).
    rewrite Hk. simpl. rewrite bool_decide_eq_false_2
      by (rewrite Hfree; intros [? ?]; discriminate).
    assert (Hs' : size target <> 1).
    { destruct Hs as [Hs|Hs]; [exact Hs|exact (has_client_size _ _ Hi Hs)]. }
    apply Nat.eqb_neq in Hs'. rewrite Hs'. reflexivity.
Qed.

(** The function that [_matchTarget] finds for a resolved client. *)
Lemma _matchTarget_resolved targets (target : string) t (client : Arg Options) g :
  targets !! "hasOwnProperty" = None ->
  targets !! target = Some t -> resolved_client t client = Some g ->
  names_method t client = false ->
  _matchTarget Options targets target client = Returns (MatchProp (Own (TClient g))).
Proof.
  intros Hsh Ht Hg Hn. unfold _matchTarget.
  rewrite (registry_unshadowed _ Hsh), Ht.
  assert (Hd : default_client t = Some g ->
               match t !! "info" with
               | Some info =>
                   Returns (MatchProp
                              (prop_get Options t (key_of (info_field Options info "default"))))
               | None => Throws "TypeError"
               end = Returns (MatchProp (Own (TClient g)))).
  { unfold default_client, prop_get.
    destruct (t !! "info") as [[i|?]|]; try discriminate.
    simpl. destruct (i !! "default") as [d|]; [|discriminate]. simpl.
    destruct (t !! d) as [[?|g']|]; try discriminate. congruence. }
  unfold resolved_client in Hg. destruct client as [|c|o]; auto.
  unfold prop_get. simpl in Hn.
  destruct (t !! c) as [[?|g']|]; simpl; auto; [congruence|].
  destruct (String.eqb c "__proto__"); simpl; auto.
  rewrite Hn. simpl. auto.
Qed.

Lemma convert_resolved targets (requests : list Request) (target : string) t
    (client opts : Arg Options) g :
  targets !! "hasOwnProperty" = None ->
  targets !! target = Some t -> resolved_client t client = Some g ->
  names_method t client = false ->
  convert Options targets requests target client opts
  = Returns (one_or_many
               (map (fun r => generate Options g r (passed_options client opts))
                  requests)).
Proof.
  intros Hsh Ht Hg Hn. unfold convert.
  rewrite (_matchTarget_resolved _ _ _ _ _ Hsh Ht Hg Hn). reflexivity.
Qed.

(** C9, amended: in a registry without a target under the key
    [hasOwnProperty], [convert] returns [false], and does not throw, for a
    target key that the registry does not know.  For a known target it
    applies the resolved client to every request of the batch, and
    returns the one result when the batch has exactly one request and the
    sequence of the results, in the order of the batch, otherwise; this
    for a client key that names a client of the target, and for one that
    names neither a client nor a method that every object inherits.  The
    options that the client receives are the second argument whenever the
    third is falsy and the second is truthy, also when the second names a
    client of the target. *)
Theorem convert_spec targets (requests : list Request) (target : string)
    (client opts : Arg Options) :
  let passed :=
    if negb (arg_truthy opts) && arg_truthy client then client else opts in
  targets !! "hasOwnProperty" = None ->
  (targets !! target = None ->
   convert Options targets requests target client opts = Returns ConvFalse)
  /\ (forall t g,
        targets !! target = Some t -> resolved_client t client = Some g ->
        names_method t client = false ->
        convert Options targets requests target client opts
        = Returns (one_or_many (map (fun r => generate Options g r passed) requests))
        /\ (forall r, requests = [r] ->
              convert Options targets requests target client opts
              = Returns (ConvOne (generate Options g r passed)))
        /\ (length requests <> 1 ->
              convert Options targets requests target client opts
              = Returns (ConvMany (map (fun r => generate Options g r passed) requests)))).
Proof.
  intros passed Hsh. split.
  - intros Ht. unfold convert, _matchTarget.
    rewrite (registry_unshadowed _ Hsh), Ht. reflexivity.
  - intros t g Ht Hg Hn.
    pose proof (convert_resolved targets requests target t client opts g Hsh Ht Hg Hn)
      as Hc.
    fold passed in Hc. change (passed_options client opts) with passed in Hc.
    split; [exact Hc|]. split.
    + intros r ->. exact Hc.
    + intros Hl. rewrite Hc. destruct requests as [|r [|r' rs]]; try reflexivity.
      simpl in Hl. congruence.
Qed.

End RegistryFacts.

Lemma addTarget_spec_witness :
  (exists msg,
     addTarget (obj string) (sample_target "shell") sample_targets
     = (Throws msg, sample_targets))
  /\ sample_targets !! "shell" = Some (sample_target "shell")
  /\ addTarget (obj string) (sample_target "node") sample_targets
     = (Returns tt, <["node" := sample_target "node"]> sample_targets).
Proof.
  destruct (addTarget_spec (obj string) (sample_target "shell") sample_targets)
    as (Hfail & _).
  destruct (addTarget_spec (obj string) (sample_target "node") sample_targets)
    as (_ & _ & _ & Hok).
  split; [|split].
  - apply Hfail. right. right. left.
    exists (TInfo {[ "key" := "shell"; "title" := "shell"; "extname" := ".sh";
                     "default" := "curl" ]}).
    split; [reflexivity|]. exists (sample_target "shell"). reflexivity.
  - reflexivity.
  - apply (Hok {[ "key" := "node"; "title" := "node"; "extname" := ".sh";
                  "default" := "curl" ]} "node"); try reflexivity;
      try (eexists; reflexivity).
    right. exists "curl", (show_options "curl"). reflexivity.
Defined.

(** A second registration under a key fails and the first one stays. *)
Example addTarget_twice :
  let first := sample_target "node" in
  let second := <["axios" := TClient (show_options "axios")]> (sample_target "node") in
  exists targets1,
    addTarget (obj string) first sample_targets = (Returns tt, targets1)
    /\ addTarget (obj string) second targets1
       = (Throws "The supplied custom target already exists.", targets1)
    /\ targets1 !! "node" = Some first.
Proof.
  eexists. split; [reflexivity|]. split; reflexivity.
Qed.

Example addTarget_failures :
  addTarget (obj string) {[ "curl" := TClient (show_options "curl") ]} sample_targets
  = (Throws "The supplied custom target must contain an `info` object.",
     sample_targets)
  /\ addTarget (obj string)
       {[ "info" := TInfo {[ "key" := "k"; "title" := "t"; "default" := "d" ]};
          "curl" := TClient (show_options "curl") ]}
       sample_targets
     = (Throws "The supplied custom target must have an `info` object with a `key`, `title`, `extname`, and `default` property.",
        sample_targets)
  /\ addTarget (obj string)
       {[ "info" := TInfo {[ "key" := "k"; "title" := "t"; "extname" := ".x";
                             "default" := "d" ]} ]}
       sample_targets
     = (Throws "A custom target must have a client defined on it.", sample_targets).
Proof. repeat split; reflexivity. Qed.

(** C8, as stated, fails in three places.  A target whose second
    property is not a client is registered: the check counts the
    properties.  A target whose key is [__proto__] is accepted without
    being registered: the call returns and the registry has no such key.
    And once a target is registered under the key [hasOwnProperty], a
    second registration under a key fails with a [TypeError], which is
    none of the errors of [addTarget]. *)
Lemma addTarget_counterexample :
  (~ has_client clientless_target
   /\ addTarget (obj string) clientless_target sample_targets
      = (Returns tt, <["notes" := clientless_target]> sample_targets))
  /\ (has_client (sample_target "__proto__")
      /\ addTarget (obj string) (sample_target "__proto__") sample_targets
         = (Reshapes tt, sample_targets)
      /\ sample_targets !! "__proto__" = None)
  /\ (exists targets',
        addTarget (obj string) (sample_target "hasOwnProperty") sample_targets
        = (Returns tt, targets')
        /\ targets' !! "shell" = Some (sample_target "shell")
        /\ addTarget (obj string) (sample_target "shell") targets'
           = (Throws "TypeError", targets')
        /\ ~ In "TypeError" addTarget_errors).
Proof.
  split; [|split]; [split; [|reflexivity]|split; [|split; reflexivity]|].
  - intros (k & g & H). unfold clientless_target in H.
    destruct (decide (k = "info")) as [->|Hi]; [discriminate H|].
    rewrite lookup_insert_ne in H by congruence.
    destruct (decide (k = "index")) as [->|Hx]; [discriminate H|].
    rewrite lookup_singleton_ne in H by congruence. discriminate H.
  - exists "curl", (show_options "curl"). reflexivity.
  - eexists. split; [reflexivity|]. split; [reflexivity|]. split; [reflexivity|].
    simpl. intros [H|[H|[H|[H|[]]]]]; discriminate H.
Qed.

Lemma convert_spec_witness :
  convert (obj string) sample_targets [sample_canonical "http://x.test/"] "ruby"
    ArgUndefined ArgUndefined = Returns ConvFalse
  /\ convert (obj string) sample_targets
       [sample_canonical "http://a.test/"; sample_canonical "http://b.test/"]
       "shell" (ArgString "wget") (ArgOptions [("indent", "  ")])
     = Returns (ConvMany ["wget http://a.test/ object"; "wget http://b.test/ object"])
  /\ convert (obj string) sample_targets [sample_canonical "http://a.test/"]
       "shell" (ArgString "axios") ArgUndefined
     = Returns (ConvOne "curl http://a.test/ string:axios").
Proof.
  split; [|split].
  - apply (convert_spec (obj string)); reflexivity.
  - destruct (convert_spec (obj string) sample_targets
                [sample_canonical "http://a.test/"; sample_canonical "http://b.test/"]
                "shell" (ArgString "wget") (ArgOptions [("indent", "  ")]) eq_refl)
      as [_ H].
    destruct (H (sample_target "shell") (show_options "wget") eq_refl eq_refl eq_refl)
      as (_ & _ & Hmany).
    apply Hmany. simpl. lia.
  - destruct (convert_spec (obj string) sample_targets
                [sample_canonical "http://a.test/"] "shell" (ArgString "axios")
                ArgUndefined eq_refl) as [_ H].
    destruct (H (sample_target "shell") (show_options "curl") eq_refl eq_refl eq_refl)
      as (_ & Hone & _).
    apply (Hone (sample_canonical "http://a.test/")). reflexivity.
Defined.

(** C9, as stated, fails in three places.  Where it says that the second
    of two arguments is the options only if it is not a client key:
    [wget] is a client of the target, it selects the generator, and the
    generator receives it as its options all the same.  Where it says
    that the default client runs when no generator is registered under
    the client key: no client of the target is called [toString], and
    [convert] runs the method of that name that every object inherits.
    And where it says that an unknown target key gives [false] and no
    error: once a target is registered under the key [hasOwnProperty],
    [convert] throws. *)
Lemma convert_client_key_as_options_counterexample :
  (sample_target "shell" !! "wget" = Some (TClient (show_options "wget"))
   /\ convert (obj string) sample_targets [sample_canonical "http://a.test/"]
        "shell" (ArgString "wget") ArgUndefined
      = Returns (ConvOne (generate (obj string) (show_options "wget")
                            (sample_canonical "http://a.test/") (ArgString "wget")))
   /\ generate (obj string) (show_options "wget")
        (sample_canonical "http://a.test/") (ArgString "wget")
      <> generate (obj string) (show_options "wget")
           (sample_canonical "http://a.test/") ArgUndefined)
  /\ (sample_target "shell" !! "toString" = None
      /\ resolved_client (sample_target "shell") (ArgString "toString")
         = Some (show_options "curl")
      /\ convert (obj string) sample_targets [sample_canonical "http://a.test/"]
           "shell" (ArgString "toString") ArgUndefined
         = Returns (ConvOne "[object Undefined]")
      /\ generate (obj string) (show_options "curl")
           (sample_canonical "http://a.test/") (ArgString "toString")
         = "curl http://a.test/ string:toString")
  /\ (addTarget (obj string) (sample_target "hasOwnProperty") sample_targets
      = (Returns tt, <["hasOwnProperty" := sample_target "hasOwnProperty"]> sample_targets)
      /\ (<["hasOwnProperty" := sample_target "hasOwnProperty"]> sample_targets)
           !! "ruby" = None
      /\ convert (obj string)
           (<["hasOwnProperty" := sample_target "hasOwnProperty"]> sample_targets)
           [sample_canonical "http://a.test/"] "ruby" ArgUndefined ArgUndefined
         = Throws "TypeError").
Proof.
  split; [|split].
  - split; [reflexivity|]. split; [reflexivity|]. discriminate.
  - repeat split; reflexivity.
  - repeat split; reflexivity.
Qed.

(** * Further properties of the code *)

(** ** [src/helpers/headers.ts] *)

(** X1: [getHeader] answers [undefined] exactly when no key of the object
    equals the name ignoring case; otherwise it answers with the value of
    a key that does. *)
Theorem getHeader_undefined_iff (headers : obj string) (n : string) :
  (getHeader headers n = None
   <-> forall k, In k (obj_keys headers) -> same_header n k = false)
  /\ (forall v, getHeader headers n = Some v ->
        exists k, In k (obj_keys headers) /\ same_header n k = true
                  /\ obj_get headers k = Some v).
Proof.
  unfold getHeader. destruct (find_key (same_header n) headers) as [key|] eqn:Hf.
  - apply find_key_Some in Hf as [Hin Hm]. split.
    + split.
      * intros Hg. apply obj_get_In in Hin. congruence.
      * intros Hall. rewrite (Hall key Hin) in Hm. discriminate.
    + intros v Hv. eauto.
  - split; [|discriminate]. split; [|reflexivity].
    intros _. apply find_key_None, Hf.
Qed.

(** X2: For a name that is not empty the three helpers agree: [hasHeader]
    answers yes exactly when [getHeader] finds a value and exactly when
    [getHeaderName] finds a key, and the value found is the value of the
    key found. *)
Theorem header_helpers_agree (headers : obj string) (n : string) :
  n <> "" ->
  (hasHeader headers n = true <-> getHeader headers n <> None)
  /\ (hasHeader headers n = true <-> getHeaderName headers n <> None)
  /\ (forall k, getHeaderName headers n = Some k ->
        same_header n k = true /\ getHeader headers n = obj_get headers k).
Proof.
  intros Hn.
  assert (Hname : getHeaderName headers n = find_key (same_header n) headers).
  { unfold getHeaderName, find_key. apply find_pointwise. intros k.
    destruct (same_header n k) eqn:Hk; [|reflexivity].
    exact (same_header_nonempty n k Hn Hk). }
  rewrite Hname. unfold hasHeader, getHeader.
  destruct (find_key (same_header n) headers) as [key|] eqn:Hf.
  - apply find_key_Some in Hf as [Hin Hm].
    rewrite (same_header_nonempty n key Hn Hm).
    apply obj_get_In in Hin.
    split; [split; congruence|]. split; [split; congruence|].
    intros k [= <-]. split; [exact Hm|reflexivity].
  - split; [split; congruence|]. split; [split; congruence|]. discriminate.
Qed.

Lemma header_helpers_agree_witness :
  let headers := [("Accept", "a"); ("Content-Type", "text/plain")] in
  (hasHeader headers "content-type" = true
   <-> getHeader headers "content-type" <> None)
  /\ (hasHeader headers "content-type" = true
      <-> getHeaderName headers "content-type" <> None)
  /\ (forall k, getHeaderName headers "content-type" = Some k ->
        same_header "content-type" k = true
        /\ getHeader headers "content-type" = obj_get headers k).
Proof. apply header_helpers_agree. discriminate. Defined.

Lemma find_empty_key (headers : obj string) :
  find_key (same_header "") headers
  = match obj_get headers "" with Some _ => Some "" | None => None end.
Proof.
  unfold find_key. induction headers as [|[a b] r IH]; simpl; [reflexivity|].
  unfold same_header at 1. simpl.
  destruct a; simpl; [reflexivity|exact IH].
Qed.

Lemma empty_name_lookup (headers : obj string) :
  hasHeader headers "" = false
  /\ getHeaderName headers "" = None
  /\ getHeader headers "" = obj_get headers "".
Proof.
  unfold hasHeader, getHeader. rewrite find_empty_key.
  split; [destruct (obj_get headers ""); reflexivity|]. split.
  - unfold getHeaderName. apply find_key_None. intros k _.
    destruct k; reflexivity.
  - destruct (obj_get headers "") eqn:H; [exact H|reflexivity].
Qed.

(** X3: The empty name is never reported as present: [hasHeader] answers no
    and [getHeaderName] finds no key, also for an object that has the
    empty key, whose value [getHeader] still returns. *)
Theorem empty_header_name (headers : obj string) :
  hasHeader headers "" = false
  /\ getHeaderName headers "" = None
  /\ getHeader headers "" = obj_get headers "".
Proof. exact (empty_name_lookup headers). Qed.

(** X4: The lookups do not see the case of the name they are given. *)
Theorem header_lookup_ignores_case (headers : obj string) (n n' : string) :
  toLowerCase n = toLowerCase n' ->
  getHeader headers n = getHeader headers n'
  /\ getHeaderName headers n = getHeaderName headers n'
  /\ hasHeader headers n = hasHeader headers n'.
Proof.
  intros H.
  assert (Hs : forall k, same_header n k = same_header n' k)
    by (intros k; unfold same_header; rewrite H; reflexivity).
  unfold getHeader, getHeaderName, hasHeader, find_key.
  rewrite (find_pointwise (same_header n) (same_header n') _ Hs).
  rewrite (find_pointwise
             (fun k => if same_header n k then truthy k else false)
             (fun k => if same_header n' k then truthy k else false))
    by (intros k; rewrite Hs; reflexivity).
  auto.
Qed.

Lemma header_lookup_ignores_case_witness :
  let headers := [("Accept", "a"); ("Content-Type", "text/plain")] in
  getHeader headers "CONTENT-TYPE" = getHeader headers "content-type"
  /\ getHeaderName headers "CONTENT-TYPE" = getHeaderName headers "content-type"
  /\ hasHeader headers "CONTENT-TYPE" = hasHeader headers "content-type".
Proof. apply header_lookup_ignores_case. reflexivity. Defined.

(** ** [HTTPSnippet.prepare] *)

Lemma string_length_app (a b : string) :
  String.length (a +:+ b) = String.length a + String.length b.
Proof.
  induction a as [|c a IH]; [reflexivity|].
  rewrite string_app_cons. simpl. rewrite IH. reflexivity.
Qed.

Lemma string_app_fixed (x h : string) : x +:+ h = h -> x = "".
Proof.
  intros H. apply (f_equal String.length) in H. rewrite string_length_app in H.
  destruct x; [reflexivity|]. simpl in H. lia.
Qed.

Section CanonicaliserMore.

Variable reduce_pair : obj QVal -> Pair -> obj QVal.
Variable url_parse : string -> UrlObject.
Variable JSON_parse : string -> option Json.
Variable multipart_render : list Param -> string -> string.

Local Abbreviation body' := (prepare_body reduce_pair JSON_parse multipart_render).
Local Abbreviation canon := (prepare reduce_pair url_parse JSON_parse multipart_render).

(** Every field of the canonical request, in terms of the body branch. *)
Lemma prepare_fields (request : Har.Request) :
  exists pd' h',
    body' (Har.postData request)
      (build_headersObj (Har.httpVersion request) (Har.headers request))
    = Returns (pd', h')
    /\ exists c, canon request = Returns c
         /\ headersObj c = h' /\ postData c = pd'
         /\ allHeaders c = obj_assign (cookie_header (Har.cookies request)) h'
         /\ uriObj c = full_uriObj (url_parse (Har.url request)) (queryObj c)
         /\ method c = Har.method request
         /\ httpVersion c = Har.httpVersion request
         /\ queryString c = Har.queryString request
         /\ headers c = Har.headers request
         /\ cookies c = Har.cookies request.
Proof.
  destruct (prepare_body_returns reduce_pair JSON_parse multipart_render
              (Har.postData request)
              (build_headersObj (Har.httpVersion request) (Har.headers request)))
    as [[pd' h'] Hb].
  exists pd', h'. split; [exact Hb|].
  unfold prepare. rewrite Hb. simpl. eexists. split; [reflexivity|].
  simpl. repeat split; reflexivity.
Qed.

Lemma prepare_body_params (pd : Har.PostData) (h : obj string) pd' h' :
  body' pd h = Returns (pd', h') -> params pd' = Har.params pd.
Proof.
  unfold prepare_body.
  repeat match goal with
         | |- context [if ?b then _ else _] => destruct b
         | |- context [match Har.params pd with _ => _ end] => destruct (Har.params pd)
         | |- context [match getHeaderName ?a ?b with _ => _ end] =>
             destruct (getHeaderName a b)
         end; intros [= <- <-]; reflexivity.
Qed.

Lemma prepare_returns (request : Har.Request) :
  exists c, canon request = Returns c
    /\ method c = Har.method request
    /\ httpVersion c = Har.httpVersion request
    /\ queryString c = Har.queryString request
    /\ headers c = Har.headers request
    /\ cookies c = Har.cookies request
    /\ params (postData c) = Har.params (Har.postData request).
Proof.
  destruct (prepare_fields request)
    as (pd' & h' & Hb & c & Hc & _ & Hpd & _ & _ & Hm & Hv & Hq & Hh & Hck).
  exists c. repeat split; try assumption.
  rewrite Hpd. exact (prepare_body_params _ _ _ _ Hb).
Qed.

(** X5: The one [throw] of [prepare], the error [How did you get here?] of
    the multipart branch, cannot be reached.  What [prepare] returns
    carries the method, the version, the three sequences and the
    parameters of the request it was given. *)
Theorem prepare_guard_unreachable (request : Har.Request) :
  canon request <> Throws "How did you get here?"
  /\ forall c, canon request = Returns c ->
       method c = Har.method request
       /\ httpVersion c = Har.httpVersion request
       /\ queryString c = Har.queryString request
       /\ headers c = Har.headers request
       /\ cookies c = Har.cookies request
       /\ params (postData c) = Har.params (Har.postData request).
Proof.
  destruct (prepare_returns request) as (c & Hc & H).
  rewrite Hc. split; [discriminate|]. intros c' [= <-]. exact H.
Qed.

(** X6: [allHeaders] reads as the headers object wherever that has a key, and
    elsewhere as the synthesised [cookie] header, which exists exactly
    when the request has cookies: an explicit header wins over the
    synthesised one. *)
Theorem prepare_allHeaders (request : Har.Request) :
  exists c, canon request = Returns c
    /\ forall k,
         obj_get (allHeaders c) k
         = match obj_get (headersObj c) k with
           | Some v => Some v
           | None =>
               match Har.cookies request with
               | [] => None
               | cs =>
                   if String.eqb k "cookie"
                   then Some (join "; "
                                (map (fun ck => encodeURIComponent (name ck) +:+ "="
                                                +:+ encodeURIComponent (value ck)) cs))
                   else None
               end
           end.
Proof.
  destruct (prepare_fields request) as (pd' & h' & _ & c & Hc & Hh & _ & Ha & _).
  exists c. split; [exact Hc|]. intros k.
  pose proof (headersObj_no_proto reduce_pair url_parse JSON_parse multipart_render
                request c Hc) as Hp.
  rewrite Ha, <- Hh, obj_assign_get by exact Hp.
  destruct (obj_get (headersObj c) k); [reflexivity|].
  unfold cookie_header. destruct (Har.cookies request) as [|ck cs]; [reflexivity|].
  cbn [map]. rewrite obj_get_set by discriminate. simpl obj_get.
  rewrite (String.eqb_sym k "cookie").
  destruct (String.eqb "cookie" k); reflexivity.
Qed.

(** X7: For a body of the multipart family that has parameters, the canonical
    mime type is [multipart/form-data], the boundary is the fixed one, the
    text is what the form renders, and the headers object answers a
    case-insensitive lookup of [content-type] with the multipart content
    type.  The existing header of that name is overwritten in its place,
    and a [content-type] key is added only when there was none. *)
Theorem prepare_multipart (request : Har.Request) (ps : list Param) :
  is_multipart (Har.mimeType (Har.postData request)) = true ->
  Har.params (Har.postData request) = Some ps ->
  exists c, canon request = Returns c
    /\ mimeType (postData c) = "multipart/form-data"
    /\ boundary (postData c) = Some multipart_boundary
    /\ text (postData c) = Some (multipart_render ps multipart_boundary)
    /\ getHeader (headersObj c) "content-type"
       = Some ("multipart/form-data; boundary=" +:+ multipart_boundary)
    /\ let h0 := build_headersObj (Har.httpVersion request) (Har.headers request) in
       obj_keys (headersObj c)
       = if hasHeader h0 "content-type" then obj_keys h0
         else obj_keys h0 ++ ["content-type"].
Proof.
  intros Hm Hp.
  destruct (prepare_fields request) as (pd' & h' & Hb & c & Hc & Hh & Hpd & _).
  exists c. split; [exact Hc|]. rewrite Hh, Hpd. clear Hc Hh Hpd.
  set (h0 := build_headersObj (Har.httpVersion request) (Har.headers request)) in *.
  assert (Hn : "content-type" <> "") by discriminate.
  unfold prepare_body in Hb. rewrite Hm, Hp in Hb.
  destruct (hasHeader h0 "content-type") eqn:Hh.
  - destruct (getHeaderName h0 "content-type") as [k|] eqn:Hk; [|discriminate].
    injection Hb as <- <-. simpl.
    split; [reflexivity|]. split; [reflexivity|]. split; [reflexivity|].
    rewrite find_key_header_name in Hk by exact Hn.
    pose proof (find_key_Some _ _ _ Hk) as [Hin _].
    assert (Hhas : obj_has h0 k = true).
    { unfold obj_has. apply obj_get_In in Hin. destruct (obj_get h0 k); congruence. }
    split.
    + unfold getHeader, obj_set, obj_define. rewrite Hhas. simpl.
      rewrite find_key_update, Hk.
      rewrite (obj_get_update h0 k _ k Hhas), String.eqb_refl. reflexivity.
    + fold h0. rewrite Hh. unfold obj_set, obj_define. rewrite Hhas. simpl.
      apply obj_keys_update.
  - injection Hb as <- <-. simpl.
    split; [reflexivity|]. split; [reflexivity|]. split; [reflexivity|].
    pose proof (hasHeader_false _ _ Hn Hh) as Hf0. fold h0. rewrite Hh.
    clear Hh. rename Hf0 into Hh.
    assert (Hnone : obj_has h0 "content-type" = false).
    { unfold obj_has. destruct (obj_get h0 "content-type") eqn:Hg; [|reflexivity].
      exfalso. assert (Hin : In "content-type" (obj_keys h0))
        by (apply obj_get_In; congruence).
      pose proof (proj1 (find_key_None _ _) Hh _ Hin) as Hf. discriminate Hf. }
    unfold obj_set, obj_define. rewrite Hnone. simpl. split.
    + unfold getHeader. rewrite find_key_app, Hh. simpl.
      rewrite obj_get_app. unfold obj_has in Hnone.
      destruct (obj_get h0 "content-type"); [discriminate|reflexivity].
    + unfold obj_keys. rewrite map_app. reflexivity.
Qed.

Lemma prepare_passes_through (request : Har.Request) :
  is_multipart (Har.mimeType (Har.postData request)) = false ->
  Har.mimeType (Har.postData request) <> "application/x-www-form-urlencoded" ->
  is_json (Har.mimeType (Har.postData request)) = false ->
  exists c, canon request = Returns c
    /\ mimeType (postData c) = Har.mimeType (Har.postData request)
    /\ text (postData c) = Har.text (Har.postData request)
    /\ boundary (postData c) = Har.boundary (Har.postData request)
    /\ jsonObj (postData c) = JBool false
    /\ paramsObj (postData c) = None
    /\ headersObj c
       = build_headersObj (Har.httpVersion request) (Har.headers request).
Proof.
  intros Hm Hu Hj.
  destruct (prepare_fields request) as (pd' & h' & Hb & c & Hc & Hh & Hpd & _).
  exists c. split; [exact Hc|]. rewrite Hh, Hpd.
  unfold prepare_body in Hb. apply String.eqb_neq in Hu.
  rewrite Hm, Hu, Hj in Hb. injection Hb as <- <-. repeat split.
Qed.

(** X8: A mime type outside the multipart, URL-encoded and JSON families is
    passed through: the mime type and the text are the request's, no JSON
    value and no parameters object are derived, and the headers object is
    the one the fold built. *)
Theorem prepare_other_body (request : Har.Request) :
  is_multipart (Har.mimeType (Har.postData request)) = false ->
  Har.mimeType (Har.postData request) <> "application/x-www-form-urlencoded" ->
  is_json (Har.mimeType (Har.postData request)) = false ->
  exists c, canon request = Returns c
    /\ mimeType (postData c) = Har.mimeType (Har.postData request)
    /\ text (postData c) = Har.text (Har.postData request)
    /\ boundary (postData c) = Har.boundary (Har.postData request)
    /\ jsonObj (postData c) = JBool false
    /\ paramsObj (postData c) = None
    /\ headersObj c
       = build_headersObj (Har.httpVersion request) (Har.headers request).
Proof. exact (prepare_passes_through request). Qed.

(** X9: The final query object is the merge of the explicit pairs with the
    query of the URL: a key that the URL defines reads as the URL has it,
    and every other key reads as in the object folded from the explicit
    query-string sequence.  The key [__proto__] of the URL is the
    exception: it is copied only into an object that has that key
    already. *)
Theorem prepare_queryObj_merge (request : Har.Request) :
  exists c, canon request = Returns c
    /\ forall k,
         let explicit := fold_left reduce_pair (Har.queryString request) obj_empty in
         obj_get (queryObj c) k
         = match obj_get (match query (url_parse (Har.url request)) with
                          | Some q => q | None => obj_empty end) k with
           | Some v =>
               if String.eqb k "__proto__" && negb (obj_has explicit k)
               then None else Some v
           | None => obj_get explicit k
           end.
Proof.
  destruct (prepare_unfold reduce_pair url_parse JSON_parse multipart_render request)
    as (pd' & h' & _ & c & Hc & _ & _ & _ & Hq & _).
  exists c. split; [exact Hc|]. intros k explicit. rewrite Hq, obj_assign_get_any.
  assert (He : build_queryObj reduce_pair (Har.queryString request) = explicit)
    by (unfold build_queryObj, explicit; destruct (Har.queryString request); reflexivity).
  rewrite He. destruct (obj_get _ k) as [v|]; [|reflexivity].
  unfold obj_has. destruct (obj_get explicit k) eqn:Hg; simpl.
  - rewrite andb_false_r. reflexivity.
  - rewrite andb_true_r. destruct (String.eqb k "__proto__"); reflexivity.
Qed.

(** X10: For every request, [url] is protocol, host and path followed by the
    fragment, and never carries a query; [fullUrl] is [url_format] of the
    final URL object, whose [search] is the serialised final query
    object; and [fullUrl] is [url] exactly when that serialisation is
    empty. *)
Theorem prepare_urls (request : Har.Request) :
  exists c, canon request = Returns c
    /\ let u := url_parse (Har.url request) in
       let qs := qs_stringify (queryObj c) in
       url c = format_protocol u +:+ format_host u +:+ format_pathname u
               +:+ format_hash u
       /\ fullUrl c = url_format (uriObj c)
       /\ query (uriObj c) = Some (queryObj c)
       /\ search (uriObj c) = Some qs
       /\ path (uriObj c)
          = (if truthy qs then Some (str_of_nullable (pathname u) +:+ "?" +:+ qs)
             else pathname u)
       /\ (fullUrl c = url c <-> qs = "").
Proof.
  destruct (prepare_unfold reduce_pair url_parse JSON_parse multipart_render request)
    as (pd' & h' & _ & c & Hc & _ & _ & _ & _ & Hu & Hf).
  destruct (prepare_fields request) as (_ & _ & _ & c' & Hc' & _ & _ & _ & Huri & _).
  rewrite Hc in Hc'. injection Hc' as <-.
  exists c. split; [exact Hc|]. cbv zeta.
  set (u := url_parse (Har.url request)) in *.
  set (qs := qs_stringify (queryObj c)) in *.
  assert (Hurl : url c = format_protocol u +:+ format_host u +:+ format_pathname u
                         +:+ format_hash u).
  { rewrite Hu. unfold url_format.
    destruct (format_parts_clean u) as (-> & -> & -> & ->).
    rewrite format_search_clean, string_app_nil. reflexivity. }
  assert (Hfull : fullUrl c
                  = format_protocol u +:+ format_host u +:+ format_pathname u
                    +:+ (if truthy qs then "?" +:+ qs else "") +:+ format_hash u).
  { rewrite Hf. unfold url_format.
    destruct (format_parts_full u (queryObj c)) as (-> & -> & -> & ->).
    rewrite format_search_full. reflexivity. }
  assert (Hiff : fullUrl c = url c <-> qs = "").
  { rewrite Hfull, Hurl. destruct (truthy qs) eqn:Ht.
    - split; [|intros Hq; rewrite Hq in Ht; discriminate].
      intros H. do 3 apply String.app_inj in H.
      apply string_app_fixed in H. discriminate H.
    - rewrite string_app_nil. split; [intros _; apply truthy_false, Ht|reflexivity]. }
  split; [exact Hurl|]. split; [rewrite Huri; exact Hf|].
  rewrite Huri. unfold full_uriObj. simpl. fold qs.
  destruct (truthy qs); simpl; repeat split; apply Hiff.
Qed.

(** X11: Under a protocol version that starts with [HTTP/2] no key of the
    headers object and no key of [allHeaders] has an upper-case letter,
    whatever the body branch did. *)
Theorem prepare_http2_lowercase (request : Har.Request) :
  HTTP_2_VERSION_REGEX (Har.httpVersion request) = true ->
  exists c, canon request = Returns c
    /\ (forall k, In k (obj_keys (headersObj c)) -> toLowerCase k = k)
    /\ (forall k, In k (obj_keys (allHeaders c)) -> toLowerCase k = k).
Proof.
  intros Hv.
  destruct (prepare_fields request) as (pd' & h' & Hb & c & Hc & Hh & _ & Ha & _).
  exists c. split; [exact Hc|]. rewrite Ha, Hh.
  set (h0 := build_headersObj (Har.httpVersion request) (Har.headers request)) in *.
  assert (H0 : forall k, In k (obj_keys h0) -> toLowerCase k = k).
  { intros k Hk. apply build_headersObj_keys in Hk as (_ & h & _ & ->).
    unfold inserted_name. rewrite Hv. apply toLowerCase_idem. }
  assert (H1 : forall k, In k (obj_keys h') -> toLowerCase k = k).
  { unfold prepare_body in Hb.
    destruct (is_multipart _).
    - destruct (Har.params _) as [ps|]; [|injection Hb as _ <-; exact H0].
      destruct (hasHeader h0 "content-type").
      + destruct (getHeaderName h0 "content-type") as [cth|] eqn:Hg; [|discriminate].
        injection Hb as _ <-. apply getHeaderName_match in Hg as [Hin _].
        intros k Hk. apply obj_keys_set_inv in Hk as [->|Hk]; auto.
      + injection Hb as _ <-.
        intros k Hk. apply obj_keys_set_inv in Hk as [->|Hk]; auto.
    - destruct (String.eqb _ _);
        [destruct (Har.params _); injection Hb as _ <-; exact H0|].
      destruct (is_json _); injection Hb as _ <-; exact H0. }
  split; [exact H1|]. intros k Hk. apply obj_assign_keys_inv in Hk as [Hk|Hk]; [auto|].
  unfold cookie_header in Hk. destruct (Har.cookies request); [destruct Hk|].
  cbn [map] in Hk. apply obj_keys_set_inv in Hk as [->|[]]. reflexivity.
Qed.

End CanonicaliserMore.

Lemma prepare_multipart_witness :
  let request :=
    sample_request "http://x.test/upload" "HTTP/1.1" []
      [pair "Content-Type" "text/plain"; pair "content-type" "x"] []
      (sample_postData "multipart/related" (Some "old") (Some [param "foo" "bar"])) in
  exists c, prepare_basic request = Returns c
    /\ mimeType (postData c) = "multipart/form-data"
    /\ getHeader (headersObj c) "content-type"
       = Some ("multipart/form-data; boundary=" +:+ multipart_boundary)
    /\ headersObj c
       = [("Content-Type", "multipart/form-data; boundary=---011000010111000001101001");
          ("content-type", "x")].
Proof.
  intros request.
  destruct (prepare_multipart reducer url_parse_basic json_parse form_data_render
              request [param "foo" "bar"] eq_refl eq_refl)
    as (c & Hc & Hm & _ & _ & Hg & _).
  exists c. split; [exact Hc|]. split; [exact Hm|]. split; [exact Hg|].
  unfold prepare_basic in Hc. vm_compute in Hc. injection Hc as <-. reflexivity.
Defined.

Lemma prepare_other_body_witness :
  let request :=
    sample_request "http://x.test/" "HTTP/1.1" [] [pair "Accept" "a"] []
      (sample_postData "text/plain" (Some "{bad json") None) in
  exists c, prepare_basic request = Returns c
    /\ mimeType (postData c) = "text/plain"
    /\ text (postData c) = Some "{bad json"
    /\ headersObj c = [("Accept", "a")].
Proof.
  intros request.
  destruct (prepare_other_body reducer url_parse_basic json_parse form_data_render
              request) as (c & Hc & Hm & Ht & _ & _ & _ & Hh);
    [reflexivity|discriminate|reflexivity|].
  exists c. split; [exact Hc|]. split; [exact Hm|]. split; [exact Ht|exact Hh].
Defined.

Lemma prepare_http2_lowercase_witness :
  let request :=
    sample_request "http://x.test/" "HTTP/2" [] [pair "X-Request-Id" "1"]
      [pair "Sid" "1"]
      (sample_postData "multipart/form-data" None (Some [param "f" "v"])) in
  exists c, prepare_basic request = Returns c
    /\ (forall k, In k (obj_keys (headersObj c)) -> toLowerCase k = k)
    /\ (forall k, In k (obj_keys (allHeaders c)) -> toLowerCase k = k).
Proof.
  apply (prepare_http2_lowercase reducer url_parse_basic json_parse form_data_render).
  reflexivity.
Defined.

Example allHeaders_explicit_cookie_wins :
  exists c,
    prepare_basic
      (sample_request "http://x.test/" "HTTP/1.1" []
         [pair "cookie" "explicit=1"; pair "Accept" "a"] [pair "sid" "1"] no_body)
    = Returns c
    /\ allHeaders c = [("cookie", "explicit=1"); ("Accept", "a")].
Proof. eexists. split; reflexivity. Qed.

(** ** The constructor *)

Section ConstructorFacts.

Variable reduce_pair : obj QVal -> Pair -> obj QVal.
Variable url_parse : string -> UrlObject.
Variable JSON_parse : string -> option Json.
Variable multipart_render : list Param -> string -> string.
Variable validate_request : Har.Request -> option string.

Local Abbreviation canon := (prepare reduce_pair url_parse JSON_parse multipart_render).
Local Abbreviation build :=
  (new_HTTPSnippet reduce_pair url_parse JSON_parse multipart_render validate_request).
Local Abbreviation loop :=
  (construct_entries reduce_pair url_parse JSON_parse multipart_render validate_request).

Lemma construct_entries_valid (entries : list Raw.Request) :
  (forall e, In e entries -> validate_request (fill_optional e) = None) ->
  forall acc, exists rs,
    loop entries acc = Returns (acc ++ rs)
    /\ Forall2 (fun e r => canon (fill_optional e) = Returns r) entries rs.
Proof.
  induction entries as [|e rest IH]; intros Hv acc.
  - exists []. rewrite app_nil_r. split; [reflexivity|constructor].
  - simpl. rewrite (Hv e) by (simpl; auto).
    destruct (prepare_returns reduce_pair url_parse JSON_parse multipart_render
                (fill_optional e)) as (c & Hc & _).
    rewrite Hc. simpl.
    destruct (IH (fun x Hx => Hv x (or_intror Hx)) (acc ++ [c])) as (rs & Hrs & Hall).
    exists (c :: rs). rewrite Hrs, <- app_assoc. split; [reflexivity|].
    constructor; assumption.
Qed.

Lemma construct_entries_invalid (before after : list Raw.Request) e err :
  (forall x, In x before -> validate_request (fill_optional x) = None) ->
  validate_request (fill_optional e) = Some err ->
  forall acc, loop (before ++ e :: after) acc = Throws err.
Proof.
  induction before as [|b before IH]; intros Hv He acc; simpl.
  - rewrite He. reflexivity.
  - rewrite (Hv b) by (simpl; auto).
    destruct (prepare_returns reduce_pair url_parse JSON_parse multipart_render
                (fill_optional b)) as (c & Hc & _).
    rewrite Hc. simpl. apply IH; [|exact He]. intros x Hx. apply Hv. simpl. auto.
Qed.

(** X14: When the validator accepts every entry and [prepare] returns on
    every entry, the constructor returns an instance that holds one
    canonical request per entry, in the order of the entries.  When the
    validator rejects an entry, after entries that it accepts and on
    which [prepare] returns, the constructor throws the error of that
    entry.  And it returns an instance only if the validator accepts
    every entry and [prepare] returns on every entry. *)
Theorem new_HTTPSnippet_spec (data : HarData) :
  ((forall e, In e (entries_of data) -> validate_request (fill_optional e) = None) ->
   (forall e, In e (entries_of data) -> exists c, canon (fill_optional e) = Returns c) ->
   exists inst, build data = Returns inst
     /\ Forall2 (fun e r => canon (fill_optional e) = Returns r)
          (entries_of data) (requests inst)
     /\ length (requests inst) = length (entries_of data))
  /\ (forall before e after err,
        entries_of data = before ++ e :: after ->
        (forall x, In x before -> validate_request (fill_optional x) = None) ->
        (forall x, In x before -> exists c, canon (fill_optional x) = Returns c) ->
        validate_request (fill_optional e) = Some err ->
        build data = Throws err)
  /\ (forall inst, build data = Returns inst ->
        forall e, In e (entries_of data) ->
          validate_request (fill_optional e) = None
          /\ exists c, canon (fill_optional e) = Returns c).
Proof.
  split; [|split].
  - intros Hv _. destruct (construct_entries_valid _ Hv []) as (rs & Hrs & Hall).
    exists {| requests := rs |}. unfold new_HTTPSnippet. rewrite Hrs. simpl.
    split; [reflexivity|]. split; [exact Hall|].
    apply Forall2_length in Hall. simpl. symmetry. exact Hall.
  - intros before e after err He Hv _ Hbad. unfold new_HTTPSnippet.
    rewrite He, (construct_entries_invalid before after e err Hv Hbad). reflexivity.
  - intros inst Hi. unfold new_HTTPSnippet in Hi.
    generalize dependent (@nil Request).
    induction (entries_of data) as [|e rest IH]; intros acc Hi x Hx; [destruct Hx|].
    simpl in Hi. destruct (validate_request (fill_optional e)) as [err|] eqn:Hv;
      [discriminate|].
    destruct (canon (fill_optional e)) as [c|m|c|] eqn:Hc; try discriminate.
    simpl in Hi.
    destruct Hx as [<-|Hx]; [split; [exact Hv|eauto]|]. exact (IH _ Hi x Hx).
Qed.

(** X15: A request given without its optional properties is canonicalised as
    an [HTTP/1.1] request with an [application/octet-stream] body and no
    text: the names of its headers keep their case, a name other than
    [__proto__] reads as the value of the last header of that name, and
    nothing is derived from the body. *)
Theorem constructor_defaults (r : Raw.Request) (inst : HTTPSnippet) :
  or_empty (Raw.httpVersion r) = "" ->
  Raw.postData r = None ->
  build (SingleRequest r) = Returns inst ->
  exists c, requests inst = [c]
    /\ httpVersion c = "HTTP/1.1"
    /\ mimeType (postData c) = "application/octet-stream"
    /\ text (postData c) = None
    /\ jsonObj (postData c) = JBool false
    /\ queryString c = or_nil (Raw.queryString r)
    /\ cookies c = or_nil (Raw.cookies r)
    /\ forall k, k <> "__proto__" ->
         obj_get (headersObj c) k
         = last_value (fun n => n) (or_nil (Raw.headers r)) k.
Proof.
  intros Hv Hp Hb. unfold new_HTTPSnippet in Hb. simpl in Hb.
  destruct (validate_request (fill_optional r)); [discriminate|].
  destruct (prepare_passes_through reduce_pair url_parse JSON_parse multipart_render
              (fill_optional r)) as (c & Hc & Hm & Ht & _ & Hj & _ & Hh);
    try (simpl; rewrite Hp; reflexivity).
  { simpl. rewrite Hp. discriminate. }
  destruct (prepare_returns reduce_pair url_parse JSON_parse multipart_render
              (fill_optional r)) as (c' & Hc' & _ & Hver & Hq & _ & Hck & _).
  rewrite Hc in Hc'. injection Hc' as <-.
  rewrite Hc in Hb. simpl in Hb. injection Hb as <-.
  exists c. split; [reflexivity|].
  assert (Hver' : httpVersion c = "HTTP/1.1").
  { rewrite Hver. simpl. unfold or_default. rewrite Hv. reflexivity. }
  split; [exact Hver'|]. rewrite Hm, Ht, Hj, Hq, Hck, Hh. simpl. rewrite Hp.
  repeat split. intros k Hk. unfold or_default at 1. rewrite Hv. simpl.
  apply (build_headersObj_get "HTTP/1.1"). exact Hk.
Qed.

End ConstructorFacts.

Lemma constructor_defaults_witness :
  exists inst c,
    new_HTTPSnippet reducer url_parse_basic json_parse form_data_render
      method_present (SingleRequest (bare_request "http://x.test/p?x=1"))
    = Returns inst
    /\ requests inst = [c]
    /\ httpVersion c = "HTTP/1.1"
    /\ mimeType (postData c) = "application/octet-stream".
Proof.
  eexists. 
  destruct (constructor_defaults reducer url_parse_basic json_parse form_data_render
              method_present (bare_request "http://x.test/p?x=1") _
              eq_refl eq_refl eq_refl) as (c & Hc & Hv & Hm & _).
  exists c. split; [reflexivity|]. split; [exact Hc|]. split; [exact Hv|exact Hm].
Defined.

Lemma new_HTTPSnippet_spec_witness :
  let data := Archive [bare_request "http://a.test/"; bare_request "http://b.test/"] in
  exists inst,
    new_HTTPSnippet reducer url_parse_basic json_parse form_data_render
      method_present data = Returns inst
    /\ length (requests inst) = 2.
Proof.
  intros data.
  destruct (new_HTTPSnippet_spec reducer url_parse_basic json_parse form_data_render
              method_present data) as (Hok & _).
  destruct Hok as (inst & Hi & _ & Hl).
  - intros e [<-|[<-|[]]]; reflexivity.
  - intros e [<-|[<-|[]]]; eexists; reflexivity.
  - exists inst. split; [exact Hi|exact Hl].
Defined.

Example constructor_rejects :
  new_HTTPSnippet reducer url_parse_basic json_parse form_data_render method_present
    (Archive [bare_request "http://a.test/";
              {| Raw.method := ""; Raw.url := "http://b.test/";
                 Raw.httpVersion := None; Raw.queryString := None;
                 Raw.headers := None; Raw.cookies := None; Raw.postData := None |};
              bare_request "http://c.test/"])
  = Throws "HARError".
Proof. reflexivity. Qed.

(** ** Registration and dispatch *)

Section RegistryMore.

Variable Options : Type.

Implicit Types (t : gmap string (TargetProp Options))
  (targets : gmap string (gmap string (TargetProp Options))).

Lemma registry_shadowed_false targets :
  registry_shadowed Options targets = false -> targets !! "hasOwnProperty" = None.
Proof.
  unfold registry_shadowed. intros H. apply bool_decide_eq_false in H.
  destruct (targets !! "hasOwnProperty"); [exfalso; apply H; eauto|reflexivity].
Qed.

Lemma registry_shadowed_true targets :
  registry_shadowed Options targets = true -> is_Some (targets !! "hasOwnProperty").
Proof. unfold registry_shadowed. apply bool_decide_eq_true. Qed.

(** [convert(target, options)] is [convert(target, undefined, options)]:
    an options object given as the second argument selects the default
    client and is handed to it. *)
Theorem convert_options_as_second targets (requests : list Request)
    (target : string) (o : Options) :
  convert Options targets requests target (ArgOptions o) ArgUndefined
  = convert Options targets requests target ArgUndefined (ArgOptions o).
Proof. reflexivity. Qed.

(** When the call of a matched property throws. *)
Lemma call_matched_throws (p : Property Options) (requests : list Request)
    (opts : Arg Options) :
  (exists msg,
     match MatchProp p with
     | MatchProp (Own (TClient g)) =>
         Returns (one_or_many
                    (map (fun request => generate Options g request opts) requests))
     | MatchProp (Method m) =>
         if String.eqb m "toString"
         then Returns (one_or_many (map (fun _ => "[object Undefined]") requests))
         else if String.eqb m "constructor"
         then Returns (one_or_many_requests requests)
         else call_fails requests
     | MatchProp (Own (TInfo _)) | MatchProp ObjectPrototype => call_fails requests
     | MatchProp Undefined | MatchFalse => Returns ConvFalse
     end = Throws msg)
  <-> call_throws p = true /\ requests <> [].
Proof.
  destruct p as [[i|g]|m| |]; simpl;
    try destruct (String.eqb m "toString"); try destruct (String.eqb m "constructor");
    simpl; unfold call_fails; destruct requests as [|r rs];
    (split; [intros [msg H];
             first [discriminate H|split; [reflexivity|discriminate]]
            |intros [H1 H2]; try discriminate H1; try congruence; eauto]).
Qed.

(** X17: [convert] throws in these situations only: the registry has a
    target under the key [hasOwnProperty]; the client key selects a
    function that cannot run as it is called, while there is a request to
    convert; the client key selects no function and the target has no
    [info]; or it selects no function and the default key of the [info]
    names a property that cannot run, while there is a request to
    convert.  What cannot run is a value that is not a function and a
    method of [Object.prototype] other than [toString] and
    [constructor]. *)
Theorem convert_throws_iff targets (requests : list Request) (target : string)
    (client opts : Arg Options) :
  (exists msg, convert Options targets requests target client opts = Throws msg)
  <-> is_Some (targets !! "hasOwnProperty")
      \/ exists t,
           targets !! target = Some t
           /\ match selected t client with
              | Some f => call_throws f = true /\ requests <> []
              | None =>
                  t !! "info" = None
                  \/ exists info,
                       t !! "info" = Some info
                       /\ call_throws
                            (prop_get Options t (key_of (info_field Options info "default")))
                          = true
                       /\ requests <> []
              end.
Proof.
  unfold convert, _matchTarget.
  destruct (registry_shadowed Options targets) eqn:Hs.
  { apply registry_shadowed_true in Hs. simpl. split; [auto|eauto]. }
  apply registry_shadowed_false in Hs.
  destruct (targets !! target) as [t|] eqn:Ht; simpl.
  2:{ split; [intros [msg H]; discriminate|].
      intros [[x Hx]|(t & H & _)]; congruence. }
  set (passed := if negb (arg_truthy opts) && arg_truthy client then client else opts).
  assert (Hdef :
    (exists msg,
       bind_outcome
         match t !! "info" with
         | Some info =>
             Returns (MatchProp
                        (prop_get Options t (key_of (info_field Options info "default"))))
         | None => Throws "TypeError"
         end
         (fun func =>
            match func with
            | MatchProp (Own (TClient g)) =>
                Returns (one_or_many
                           (map (fun request => generate Options g request passed)
                              requests))
            | MatchProp (Method m) =>
                if String.eqb m "toString"
                then Returns (one_or_many (map (fun _ => "[object Undefined]") requests))
                else if String.eqb m "constructor"
                then Returns (one_or_many_requests requests)
                else call_fails requests
            | MatchProp (Own (TInfo _)) | MatchProp ObjectPrototype =>
                call_fails requests
            | MatchProp Undefined | MatchFalse => Returns ConvFalse
            end) = @Throws Converted msg)
    <-> (t !! "info" = None
         \/ exists info,
              t !! "info" = Some info
              /\ call_throws
                   (prop_get Options t (key_of (info_field Options info "default")))
                 = true
              /\ requests <> [])).
  { destruct (t !! "info") as [info|] eqn:Hi; simpl.
    - rewrite (call_matched_throws _ requests passed). split.
      + intros H. right. exists info. auto.
      + intros [H|(info' & [= <-] & H)]; [discriminate|exact H].
    - split; [auto|eauto]. }
  assert (Hnone : selected t client = None ->
    ((t !! "info" = None
      \/ exists info,
           t !! "info" = Some info
           /\ call_throws
                (prop_get Options t (key_of (info_field Options info "default"))) = true
           /\ requests <> [])
     <-> is_Some (targets !! "hasOwnProperty")
         \/ exists t',
              Some t = Some t'
              /\ match selected t' client with
                 | Some f => call_throws f = true /\ requests <> []
                 | None =>
                     t' !! "info" = None
                     \/ exists info,
                          t' !! "info" = Some info
                          /\ call_throws
                               (prop_get Options t'
                                  (key_of (info_field Options info "default"))) = true
                          /\ requests <> []
                 end)).
  { intros Hsel. split.
    - intros H. right. exists t. rewrite Hsel. auto.
    - intros [[x Hx]|(t' & [= <-] & H)]; [congruence|].
      rewrite Hsel in H. exact H. }
  destruct client as [|c|o]; [rewrite Hdef; apply Hnone; reflexivity| |
                              rewrite Hdef; apply Hnone; reflexivity].
  destruct (is_function Options (prop_get Options t c)) eqn:Hf.
  - simpl. rewrite (call_matched_throws _ requests passed). split.
    + intros H. right. exists t. simpl. rewrite Hf. auto.
    + intros [[x Hx]|(t' & [= <-] & H)]; [congruence|].
      simpl in H. rewrite Hf in H. exact H.
  - rewrite Hdef. apply Hnone. simpl. rewrite Hf. reflexivity.
Qed.

(** X18: When nothing resolves, that is the client key names no function
    of the target and the default key of the target names nothing,
    neither a property of the target nor a property that every object
    inherits, [convert] returns [false] as it does for an unknown
    target. *)
Theorem convert_unresolved targets (requests : list Request) (target : string)
    (client opts : Arg Options) t info :
  targets !! "hasOwnProperty" = None ->
  targets !! target = Some t ->
  client_generator t client = None ->
  names_method t client = false ->
  t !! "info" = Some info ->
  t !! key_of (info_field Options info "default") = None ->
  inherited_key (key_of (info_field Options info "default")) = false ->
  convert Options targets requests target client opts = Returns ConvFalse.
Proof.
  intros Hs Ht Hc Hn Hi Hd Hk. unfold convert, _matchTarget. cbv zeta.
  rewrite (registry_unshadowed _ _ Hs), Ht.
  apply orb_false_iff in Hk as [Hk1 Hk2].
  assert (Hdef : match t !! "info" with
                 | Some info =>
                     Returns (MatchProp
                                (prop_get Options t
                                   (key_of (info_field Options info "default"))))
                 | None => Throws "TypeError"
                 end = Returns (MatchProp Undefined)).
  { rewrite Hi. unfold prop_get. rewrite Hd, Hk1, Hk2. reflexivity. }
  destruct client as [|c|o]; rewrite ?Hdef; try reflexivity.
  assert (Hf : is_function Options (prop_get Options t c) = false).
  { unfold prop_get. simpl in Hc, Hn.
    destruct (t !! c) as [[i|g]|]; [reflexivity|discriminate|].
    destruct (String.eqb c "__proto__"); [reflexivity|]. rewrite Hn. reflexivity. }
  rewrite Hf. reflexivity.
Qed.

Lemma addTargetClient_throws_unchanged (target : string) (client : NewClient Options)
    targets msg targets' :
  addTargetClient Options target client targets = (Throws msg, targets') ->
  targets' = targets.
Proof.
  unfold addTargetClient.
  destruct (registry_shadowed Options targets); [congruence|].
  destruct (targets !! target) as [t|]; [|congruence].
  destruct (new_info Options client); [|congruence].
  destruct (_ || _); [congruence|].
  destruct (t !! "hasOwnProperty") as [[?|?]|]; try congruence.
  destruct (bool_decide _); [congruence|].
  destruct (String.eqb _ _); congruence.
Qed.

Lemma addTargetClient_returns (target : string) (client : NewClient Options)
    targets targets' :
  addTargetClient Options target client targets = (Returns tt, targets') ->
  targets !! "hasOwnProperty" = None
  /\ exists t info key,
       targets !! target = Some t /\ new_info Options client = Some info
       /\ info !! "key" = Some key /\ is_Some (info !! "title")
       /\ key <> "__proto__"
       /\ t !! key = None
       /\ targets'
          = <[target :=
                <[key := TClient {| client_info := info;
                                    generate := new_generate Options client |}]> t]>
              targets.
Proof.
  unfold addTargetClient.
  destruct (registry_shadowed Options targets) eqn:Hs; [discriminate|].
  apply registry_shadowed_false in Hs. intros H. split; [exact Hs|]. revert H.
  destruct (targets !! target) as [t|]; [|discriminate].
  destruct (new_info Options client) as [info|]; [|discriminate].
  destruct (_ || _) eqn:Hf; [discriminate|].
  destruct (t !! "hasOwnProperty") as [[?|?]|]; try discriminate.
  destruct (bool_decide (is_Some (t !! _))) eqn:Hk; [discriminate|].
  destruct (String.eqb _ _) eqn:Hp; [discriminate|]. intros [= <-].
  apply orb_false_iff in Hf as [Hkey Htitle].
  apply negb_false_iff, bool_decide_eq_true in Hkey as [key Hkey].
  apply negb_false_iff, bool_decide_eq_true in Htitle.
  apply bool_decide_eq_false in Hk. rewrite Hkey in Hk, Hp |- *. simpl in Hk, Hp |- *.
  apply String.eqb_neq in Hp.
  exists t, info, key. repeat split; try assumption.
  destruct (t !! key) eqn:E; [|reflexivity]. exfalso. apply Hk. eauto.
Qed.

(** X19: In a registry without a target under the key [hasOwnProperty],
    and for a target without a property of that name, [addTargetClient]
    throws when the target is unknown, when the client has no [info],
    when its [info] lacks [key] or [title], and when the target already
    has a property under the key of the client; when it throws the
    registry is unchanged; when it returns, the client is a property of
    the target under its key, and it returns whenever none of the four
    cases applies and the key of the client is not [__proto__], under
    which it adds no property. *)
Theorem addTargetClient_spec (target : string) (client : NewClient Options) targets :
  registry_wf targets ->
  targets !! "hasOwnProperty" = None ->
  (forall t, targets !! target = Some t -> t !! "hasOwnProperty" = None) ->
  (targets !! target = None
   \/ new_info Options client = None
   \/ (exists info, new_info Options client = Some info
         /\ (info !! "key" = None \/ info !! "title" = None))
   \/ (exists t info, targets !! target = Some t
         /\ new_info Options client = Some info
         /\ is_Some (t !! key_of (info !! "key"))) ->
   exists msg, addTargetClient Options target client targets = (Throws msg, targets))
  /\ (forall msg targets',
        addTargetClient Options target client targets = (Throws msg, targets') ->
        targets' = targets)
  /\ (forall targets',
        addTargetClient Options target client targets = (Returns tt, targets') ->
        exists t info key,
          targets !! target = Some t /\ new_info Options client = Some info
          /\ info !! "key" = Some key /\ is_Some (info !! "title")
          /\ key <> "__proto__"
          /\ t !! key = None
          /\ targets'
             = <[target :=
                   <[key := TClient {| client_info := info;
                                       generate := new_generate Options client |}]> t]>
                 targets)
  /\ (forall t info key,
        targets !! target = Some t -> new_info Options client = Some info ->
        info !! "key" = Some key -> is_Some (info !! "title") -> t !! key = None ->
        addTargetClient Options target client targets
        = if String.eqb key "__proto__" then (Reshapes tt, targets)
          else
            (Returns tt,
             <[target :=
                 <[key := TClient {| client_info := info;
                                     generate := new_generate Options client |}]> t]>
               targets)).
Proof.
  intros _ Hs Hown. split; [|split; [|split]].
  - unfold addTargetClient. rewrite (registry_unshadowed _ _ Hs).
    intros [H|[H|[(info & Hi & Hf)|(t & info & Ht & Hi & Hk)]]].
    + rewrite H. eauto.
    + destruct (targets !! target); [|eauto]. rewrite H. eauto.
    + destruct (targets !! target); [|eauto]. rewrite Hi.
      assert (negb (bool_decide (is_Some (info !! "key")))
              || negb (bool_decide (is_Some (info !! "title"))) = true) as ->; [|eauto].
      destruct Hf as [Hf|Hf]; rewrite Hf;
        rewrite (bool_decide_eq_false_2 (is_Some (@None string)))
          by (intros [? ?]; discriminate);
        simpl; rewrite ?orb_true_r; reflexivity.
    + rewrite Ht, Hi. destruct (_ || _); [eauto|].
      rewrite (Hown t Ht).
      rewrite bool_decide_eq_true_2 by exact Hk. eauto.
  - intros msg targets'. apply addTargetClient_throws_unchanged.
  - intros targets' H. apply addTargetClient_returns in H as [_ H]. exact H.
  - intros t info key Ht Hi Hkey Htitle Hfree. unfold addTargetClient.
    rewrite (registry_unshadowed _ _ Hs), Ht, Hi, Hkey.
    rewrite !bool_decide_eq_true_2 by eauto. simpl.
    rewrite (Hown t Ht).
    rewrite bool_decide_eq_false_2 by (rewrite Hfree; intros [? ?]; discriminate).
    reflexivity.
Qed.



(** X21: After [addTargetClient] has returned on a well-formed registry,
    [convert] with the key of the new client applies the generator of
    that client, and the other targets convert as before. *)
Theorem addTargetClient_then_convert (target : string) (client : NewClient Options)
    targets targets' info key (requests : list Request) (opts : Arg Options) :
  registry_wf targets ->
  addTargetClient Options target client targets = (Returns tt, targets') ->
  new_info Options client = Some info -> info !! "key" = Some key ->
  convert Options targets' requests target (ArgString key) opts
  = Returns (one_or_many
               (map (fun r => new_generate Options client r
                                (passed_options (ArgString key) opts)) requests))
  /\ (forall other c o, other <> target ->
        convert Options targets' requests other c o
        = convert Options targets requests other c o).
Proof.
  intros _ Ha Hi Hk.
  destruct (addTargetClient_returns _ _ _ _ Ha)
    as (Hs & t & info' & key' & Ht & Hi' & Hk' & _ & _ & Hfree & ->).
  rewrite Hi in Hi'. injection Hi' as <-. rewrite Hk in Hk'. injection Hk' as <-.
  set (t' := <[key := TClient {| client_info := info;
                                 generate := new_generate Options client |}]> t).
  assert (Hs' : <[target := t']> targets !! "hasOwnProperty" = None).
  { rewrite lookup_insert_ne; [exact Hs|]. intros ->. congruence. }
  split.
  - rewrite (convert_resolved Options _ requests target t' (ArgString key) opts
               {| client_info := info; generate := new_generate Options client |}).
    + reflexivity.
    + exact Hs'.
    + apply lookup_insert_eq.
    + unfold resolved_client, t'. rewrite lookup_insert_eq. reflexivity.
    + unfold names_method, t'. rewrite lookup_insert_eq. reflexivity.
  - intros other c o Hne. unfold convert, _matchTarget.
    rewrite (registry_unshadowed _ _ Hs), (registry_unshadowed _ _ Hs').
    rewrite lookup_insert_ne by congruence. reflexivity.
Qed.


(** X23: [extname] answers with the empty string for a target that is
    unknown and whose key names nothing that every object inherits; for
    an unknown key that does, a method of [Object.prototype] or
    [__proto__], it throws.  It answers with the [extname] of the
    target's [info], without throwing, for every target of a well-formed
    registry; after [addTarget] has returned it answers with the
    [extname] that the new target declares. *)
Theorem extname_spec targets (target : string) :
  (targets !! target = None ->
   extname Options targets target
   = if inherited_key target then Throws "TypeError" else Returns (Some ""))
  /\ (registry_wf targets -> forall t, targets !! target = Some t ->
        exists i e, t !! "info" = Some (TInfo i) /\ i !! "extname" = Some e
                    /\ extname Options targets target = Returns (Some e))
  /\ (forall new targets' i key,
        addTarget Options new targets = (Returns tt, targets') ->
        new !! "info" = Some (TInfo i) -> i !! "key" = Some key ->
        extname Options targets' key = Returns (i !! "extname")
        /\ is_Some (i !! "extname")).
Proof.
  split; [|split].
  - intros H. unfold extname, inherited_key. rewrite H. reflexivity.
  - intros Hwf t Ht. destruct (Hwf _ _ Ht) as (i & Hi & _ & _ & [e He] & _).
    exists i, e. unfold extname. rewrite Ht, Hi. simpl. rewrite He. auto.
  - intros new targets' i key Ha Hi Hk. unfold addTarget in Ha. rewrite Hi in Ha.
    simpl in Ha. destruct (_ || _) eqn:Hf; [discriminate|].
    destruct (registry_shadowed Options targets); [discriminate|].
    destruct (bool_decide (is_Some (targets !! _))); [discriminate|].
    destruct (Nat.eqb _ _); [discriminate|].
    destruct (String.eqb _ _); [discriminate|]. injection Ha as <-.
    rewrite Hk. simpl. unfold extname. rewrite lookup_insert_eq, Hi. simpl.
    split; [reflexivity|].
    apply orb_false_iff in Hf as [Hf _]. apply orb_false_iff in Hf as [_ He].
    apply negb_false_iff, bool_decide_eq_true in He. exact He.
Qed.

(** X24: After [addTarget] has returned, the targets that were registered
    before are as they were.  Unless the new target sits under the key
    [hasOwnProperty], [convert] for any other target key gives what it
    gave before; if it does, every later [convert] throws. *)
Theorem addTarget_keeps_others (new : gmap string (TargetProp Options)) targets
    targets' :
  addTarget Options new targets = (Returns tt, targets') ->
  (forall k t, targets !! k = Some t -> targets' !! k = Some t)
  /\ (targets' !! "hasOwnProperty" = None ->
      forall (requests : list Request) k c o,
        is_Some (targets !! k) ->
        convert Options targets' requests k c o
        = convert Options targets requests k c o)
  /\ (is_Some (targets' !! "hasOwnProperty") ->
      forall (requests : list Request) k c o,
        convert Options targets' requests k c o = Throws "TypeError").
Proof.
  intros Ha. unfold addTarget in Ha.
  destruct (new !! "info") as [info|]; [|discriminate].
  destruct (_ || _); [discriminate|].
  destruct (registry_shadowed Options targets) eqn:Hs; [discriminate|].
  destruct (bool_decide (is_Some (targets !! _))) eqn:Hk; [discriminate|].
  destruct (Nat.eqb _ _); [discriminate|].
  destruct (String.eqb _ _); [discriminate|]. injection Ha as <-.
  apply bool_decide_eq_false in Hk.
  assert (Hkeep : forall k t, targets !! k = Some t ->
            <[key_of (info_field Options info "key") := new]> targets !! k = Some t).
  { intros k t Hkt. rewrite lookup_insert_ne; [exact Hkt|].
    intros <-. apply Hk. eauto. }
  split; [exact Hkeep|]. split.
  - intros Hs' requests k c o [t Ht]. unfold convert, _matchTarget.
    rewrite Hs, (registry_unshadowed _ _ Hs'), (Hkeep k t Ht), Ht. reflexivity.
  - intros Hs' requests k c o. unfold convert, _matchTarget, registry_shadowed.
    rewrite bool_decide_eq_true_2 by exact Hs'. reflexivity.
Qed.

End RegistryMore.

Lemma sample_targets_wf : registry_wf sample_targets.
Proof.
  intros k t H. unfold sample_targets in H.
  apply lookup_singleton_Some in H as [<- <-].
  eexists. split; [reflexivity|].
  split; [reflexivity|]. repeat split; eexists; reflexivity.
Qed.

Lemma convert_unresolved_witness :
  convert (obj string) {[ "orphan" := orphan_target ]}
    [sample_canonical "http://a.test/"] "orphan" (ArgString "curl") ArgUndefined
  = Returns ConvFalse.
Proof.
  apply (convert_unresolved (obj string) _ _ "orphan" (ArgString "curl") ArgUndefined
           orphan_target
           (TInfo {[ "key" := "orphan"; "title" := "Orphan"; "extname" := ".txt";
                     "default" := "native" ]})); reflexivity.
Defined.

Lemma addTargetClient_then_convert_witness :
  exists targets',
    addTargetClient (obj string) "shell" (sample_client "httpie") sample_targets
    = (Returns tt, targets')
    /\ convert (obj string) targets' [sample_canonical "http://a.test/"] "shell"
         (ArgString "httpie") (ArgOptions [("indent", "  ")])
       = Returns (ConvOne "httpie http://a.test/ object").
Proof.
  eexists. split; [reflexivity|].
  apply (addTargetClient_then_convert (obj string) "shell" (sample_client "httpie")
           sample_targets _ {[ "key" := "httpie"; "title" := "httpie" ]} "httpie");
    try reflexivity.
  exact sample_targets_wf.
Defined.


Lemma addTarget_keeps_others_witness :
  exists targets',
    addTarget (obj string) (sample_target "node") sample_targets
    = (Returns tt, targets')
    /\ targets' !! "shell" = Some (sample_target "shell")
    /\ convert (obj string) targets' [sample_canonical "http://a.test/"] "shell"
         ArgUndefined ArgUndefined
       = Returns (ConvOne "curl http://a.test/ undefined").
Proof.
  eexists. split; [reflexivity|].
  destruct (addTarget_keeps_others (obj string) (sample_target "node") sample_targets
              _ eq_refl) as (Hkeep & Hconv & _).
  split; [apply Hkeep; reflexivity|].
  rewrite Hconv; [reflexivity|reflexivity|eexists; reflexivity].
Defined.

(** A target registered under the key [hasOwnProperty] stops every later
    [convert] and every later registration. *)
Example registry_shadowing :
  exists targets',
    addTarget (obj string) (sample_target "hasOwnProperty") sample_targets
    = (Returns tt, targets')
    /\ convert (obj string) targets' [sample_canonical "http://a.test/"] "shell"
         ArgUndefined ArgUndefined = Throws "TypeError"
    /\ addTarget (obj string) (sample_target "node") targets'
       = (Throws "TypeError", targets')
    /\ addTargetClient (obj string) "shell" (sample_client "httpie") targets'
       = (Throws "TypeError", targets').
Proof. eexists. repeat split; reflexivity. Qed.

(** The methods that every object inherits, as client keys and as default
    keys. *)
Example convert_inherited_methods :
  convert (obj string) sample_targets [sample_canonical "http://a.test/"] "shell"
    (ArgString "toString") ArgUndefined = Returns (ConvOne "[object Undefined]")
  /\ convert (obj string) sample_targets [sample_canonical "http://a.test/"] "shell"
       (ArgString "constructor") ArgUndefined
     = Returns (ConvRequest (sample_canonical "http://a.test/"))
  /\ convert (obj string) sample_targets [sample_canonical "http://a.test/"] "shell"
       (ArgString "valueOf") ArgUndefined = Throws "TypeError"
  /\ convert (obj string) sample_targets [sample_canonical "http://a.test/"] "shell"
       (ArgString "__proto__") ArgUndefined
     = Returns (ConvOne "curl http://a.test/ string:__proto__").
Proof. repeat split; reflexivity. Qed.

Example addTargetClient_failures :
  addTargetClient (obj string) "ruby" (sample_client "x") sample_targets
  = (Throws "Sorry, but no ruby target exists to add clients to.", sample_targets)
  /\ addTargetClient (obj string) "shell" (sample_client "curl") sample_targets
     = (Throws "The supplied custom target client already exists, please use a different key",
        sample_targets)
  /\ addTargetClient (obj string) "shell" (sample_client "info") sample_targets
     = (Throws "The supplied custom target client already exists, please use a different key",
        sample_targets)
  /\ addTargetClient (obj string) "shell"
       {| new_info := None;
          new_generate := generate (obj string) (show_options "x") |}
       sample_targets
     = (Throws "The supplied custom target client must contain an `info` object.",
        sample_targets)
  /\ addTargetClient (obj string) "shell" (sample_client "__proto__") sample_targets
     = (Reshapes tt, sample_targets).
Proof. repeat split; reflexivity. Qed.

Example extname_examples :
  extname (obj string) sample_targets "shell" = Returns (Some ".sh")
  /\ extname (obj string) sample_targets "ruby" = Returns (Some "")
  /\ extname (obj string) sample_targets "constructor" = Throws "TypeError"
  /\ extname (obj string) sample_targets "__proto__" = Throws "TypeError".
Proof. repeat split; reflexivity. Qed.

(** ** [src/helpers/shell.ts] *)

Lemma sh_read_plain (s : string) :
  all_chars Shell.safe_char s = true -> sh_read false s = Some s.
Proof.
  induction s as [|c s IH]; simpl; [reflexivity|].
  intros H. apply andb_true_iff in H as [Hc Hs].
  assert (Ascii.eqb c "'" = false) as ->
    by (destruct (Ascii.eqb_spec c "'") as [->|]; [discriminate Hc|reflexivity]).
  assert (Ascii.eqb c "\" = false) as ->
    by (destruct (Ascii.eqb_spec c "\") as [->|]; [discriminate Hc|reflexivity]).
  rewrite Hc, (IH Hs). reflexivity.
Qed.

Lemma sh_read_quoted (s : string) :
  sh_read true (replace_char "'" "'\''" s +:+ "'") = Some s.
Proof.
  induction s as [|c s IH]; [reflexivity|].
  simpl replace_char. destruct (Ascii.eqb_spec c "'") as [->|Hc].
  - rewrite string_app_assoc, !string_app_cons, string_app_nil.
    cbn [sh_read]. simpl Ascii.eqb. cbn iota. rewrite IH. reflexivity.
  - rewrite string_app_cons. cbn [sh_read].
    assert (Ascii.eqb c "'" = false) as -> by (apply Ascii.eqb_neq, Hc).
    rewrite IH. reflexivity.
Qed.

(** X25: What [quote] returns is one shell word, and the argument that the
    shell reads from it is the value that was quoted. *)
Theorem quote_round_trip (value : string) :
  sh_word (Shell.quote value) = Some value.
Proof.
  unfold sh_word, Shell.quote, Shell.SAFE.
  destruct (truthy value && all_chars Shell.safe_char value) eqn:Hs; simpl.
  - apply andb_true_iff in Hs as [_ Hs]. apply sh_read_plain, Hs.
  - unfold Shell.format_quoted.
    change ("'" +:+ replace_char "'" "'\''" value +:+ "'")
      with (String "'" (replace_char "'" "'\''" value +:+ "'")).
    cbn [sh_read]. simpl Ascii.eqb. cbn iota. apply sh_read_quoted.
Qed.

Lemma replace_char_length (c : ascii) (by_ s : string) :
  1 <= String.length by_ ->
  String.length s <= String.length (replace_char c by_ s).
Proof.
  intros Hb. induction s as [|d s IH]; simpl; [lia|].
  destruct (Ascii.eqb d c); [rewrite string_length_app|simpl]; lia.
Qed.

Lemma format_quoted_cons (s : string) :
  Shell.format_quoted s = String "'" (s +:+ "'").
Proof. reflexivity. Qed.

(** X26: [quote] never returns the empty string, and it returns the value as
    it is exactly when the value is not empty and made of safe
    characters only. *)
Theorem quote_unchanged_iff (value : string) :
  Shell.quote value <> ""
  /\ (Shell.quote value = value
      <-> value <> "" /\ all_chars Shell.safe_char value = true).
Proof.
  unfold Shell.quote, Shell.SAFE.
  destruct (truthy value) eqn:Ht; simpl.
  - apply truthy_true in Ht.
    destruct (all_chars Shell.safe_char value) eqn:Hs; simpl.
    + split; [exact Ht|]. split; auto.
    + rewrite format_quoted_cons. split; [discriminate|].
      split; [|intros [_ H]; discriminate].
      intros H. exfalso. apply (f_equal String.length) in H. simpl in H.
      rewrite string_length_app in H. simpl in H.
      pose proof (replace_char_length "'" "'\''" value) as Hl. simpl in Hl. lia.
  - apply truthy_false in Ht. subst value. rewrite format_quoted_cons.
    split; [discriminate|]. split; [discriminate|]. intros [H _]. congruence.
Qed.

(** X27: What [escape] returns has no carriage return and no line feed, and it
    is the value itself exactly when the value has neither; escaping
    twice is escaping once. *)
Theorem escape_no_line_break (value : string) :
  contains_char "013" (Shell.escape value) = false
  /\ contains_char "010" (Shell.escape value) = false
  /\ (Shell.escape value = value
      <-> contains_char "013" value = false /\ contains_char "010" value = false)
  /\ Shell.escape (Shell.escape value) = Shell.escape value.
Proof.
  unfold Shell.escape.
  assert (Hcr : contains_char "013" (replace_char "010" "\n" (replace_char "013" "\r" value))
                = false).
  { apply replace_char_keeps_absent; [reflexivity|].
    apply replace_char_absent_after. reflexivity. }
  assert (Hlf : contains_char "010" (replace_char "010" "\n" (replace_char "013" "\r" value))
                = false)
    by (apply replace_char_absent_after; reflexivity).
  split; [exact Hcr|]. split; [exact Hlf|]. split.
  - split.
    + intros H. rewrite <- H. split; [exact Hcr|exact Hlf].
    + intros [H1 H2]. rewrite (replace_char_absent "013" _ value H1).
      apply replace_char_absent, H2.
  - rewrite (replace_char_absent "013" "\r" _ Hcr).
    apply replace_char_absent, Hlf.
Qed.

Example quote_examples :
  Shell.quote "a/b.c" = "a/b.c" /\ Shell.quote "" = "''"
  /\ Shell.quote "it's" = "'it'\''s'" /\ Shell.quote "a b" = "'a b'".
Proof. repeat split; reflexivity. Qed.

(** ** [src/helpers/code-builder.ts] *)

Lemma join_snoc (sep : string) (l : list string) (x : string) :
  join sep (l ++ [x])
  = match l with [] => x | _ => join sep l +:+ sep +:+ x end.
Proof.
  induction l as [|a l IH]; [reflexivity|].
  destruct l as [|b l]; [reflexivity|].
  change (join sep ((a :: b :: l) ++ [x]))
    with (a +:+ sep +:+ join sep ((b :: l) ++ [x])).
  rewrite IH.
  change (join sep (a :: b :: l)) with (a +:+ sep +:+ join sep (b :: l)).
  rewrite !string_app_assoc. reflexivity.
Qed.

Lemma join_cons (sep : string) (l : list string) (x : string) :
  join sep (x :: l) = match l with [] => x | _ => x +:+ sep +:+ join sep l end.
Proof. destruct l; reflexivity. Qed.

Section CodeBuilderFacts.

Variable Value : Type.
Variable util_format : string -> list Value -> string.

Local Abbreviation buildLine' := (CodeBuilder.buildLine Value util_format).
Local Abbreviation push' := (CodeBuilder.push Value util_format).
Local Abbreviation unshift' := (CodeBuilder.unshift Value util_format).

(** X28: A line pushed on a builder comes last in the snippet: [join] after
    [push] is [join] before it, then the line separator and the new line,
    or the new line alone on an empty builder.  The line [null], which
    [blank] pushes, is written as the empty string. *)
Theorem push_join (b b' : CodeBuilder.t) (a : CodeBuilder.LineArgs Value) :
  push' b a = Returns b' ->
  exists line, buildLine' b a = Returns line
    /\ CodeBuilder._code b' = CodeBuilder._code b ++ [line]
    /\ CodeBuilder.join b'
       = match CodeBuilder._code b with
         | [] => or_empty line
         | _ => CodeBuilder.join b +:+ CodeBuilder._lineJoin b +:+ or_empty line
         end
    /\ CodeBuilder.join (CodeBuilder.blank b)
       = match CodeBuilder._code b with
         | [] => ""
         | _ => CodeBuilder.join b +:+ CodeBuilder._lineJoin b
         end.
Proof.
  unfold CodeBuilder.push. destruct (buildLine' b a) as [line|m|line|];
    try discriminate.
  simpl. intros [= <-]. exists line. split; [reflexivity|]. split; [reflexivity|].
  unfold CodeBuilder.join, CodeBuilder.blank. simpl.
  rewrite !map_app. simpl map. rewrite !join_snoc.
  destruct (CodeBuilder._code b); simpl map; cbv iota;
    rewrite ?string_app_empty_r; auto.
Qed.

(** X29: A line put on top with [unshift] comes first in the snippet. *)
Theorem unshift_join (b b' : CodeBuilder.t) (a : CodeBuilder.LineArgs Value) :
  unshift' b a = Returns b' ->
  exists line, buildLine' b a = Returns line
    /\ CodeBuilder._code b' = line :: CodeBuilder._code b
    /\ CodeBuilder.join b'
       = match CodeBuilder._code b with
         | [] => or_empty line
         | _ => or_empty line +:+ CodeBuilder._lineJoin b +:+ CodeBuilder.join b
         end.
Proof.
  unfold CodeBuilder.unshift. destruct (buildLine' b a) as [line|m|line|];
    try discriminate.
  simpl. intros [= <-]. exists line. split; [reflexivity|]. split; [reflexivity|].
  unfold CodeBuilder.join.
  cbn [CodeBuilder._code CodeBuilder._lineJoin map]. rewrite join_cons.
  destruct (CodeBuilder._code b); reflexivity.
Qed.

(** X30: Adding a line at the bottom and adding a line on top do not
    depend on each other: when both lines can be built, the two orders
    give the same builder, with the one line on top and the other at the
    bottom. *)
Theorem push_unshift_commute (b : CodeBuilder.t)
    (bottom top : CodeBuilder.LineArgs Value) l1 l2 :
  buildLine' b bottom = Returns l1 ->
  buildLine' b top = Returns l2 ->
  exists b',
    bind_outcome (push' b bottom) (fun b1 => unshift' b1 top) = Returns b'
    /\ bind_outcome (unshift' b top) (fun b2 => push' b2 bottom) = Returns b'
    /\ CodeBuilder._code b' = l2 :: CodeBuilder._code b ++ [l1]
    /\ CodeBuilder._indentation b' = CodeBuilder._indentation b
    /\ CodeBuilder._lineJoin b' = CodeBuilder._lineJoin b.
Proof.
  intros H1 H2. unfold CodeBuilder.push, CodeBuilder.unshift.
  assert (Hb : forall c a,
    buildLine' {| CodeBuilder._indentation := CodeBuilder._indentation b;
                  CodeBuilder._lineJoin := CodeBuilder._lineJoin b;
                  CodeBuilder._code := c |} a = buildLine' b a)
    by (intros c [| |]; reflexivity).
  rewrite H1, H2. simpl. rewrite !Hb, H1, H2. simpl.
  eexists. split; [reflexivity|]. split; [reflexivity|]. repeat split.
Qed.

End CodeBuilderFacts.

Lemma push_join_witness :
  let b := CodeBuilder.blank (CodeBuilder.new "  " LF) in
  exists b',
    CodeBuilder.push string (fun s _ => s) b (CodeBuilder.Indented 2 "x = 1" [])
    = Returns b'
    /\ CodeBuilder.join b' = LF +:+ "    x = 1".
Proof.
  intros b. eexists. split; [reflexivity|].
  destruct (push_join string (fun s _ => s) b _ (CodeBuilder.Indented 2 "x = 1" [])
              eq_refl) as (line & Hl & _ & Hj & _).
  rewrite Hj. injection Hl as <-. reflexivity.
Defined.

Lemma push_unshift_commute_witness :
  let b := CodeBuilder.new "  " LF in
  bind_outcome
    (CodeBuilder.push string (fun s _ => s) b (CodeBuilder.Indented 1 "exit 0" []))
    (fun b1 => CodeBuilder.unshift string (fun s _ => s) b1
                 (CodeBuilder.Line "#!/bin/sh" []))
  = bind_outcome
      (CodeBuilder.unshift string (fun s _ => s) b (CodeBuilder.Line "#!/bin/sh" []))
      (fun b2 => CodeBuilder.push string (fun s _ => s) b2
                   (CodeBuilder.Indented 1 "exit 0" []))
  /\ exists b',
       bind_outcome
         (CodeBuilder.push string (fun s _ => s) b (CodeBuilder.Indented 1 "exit 0" []))
         (fun b1 => CodeBuilder.unshift string (fun s _ => s) b1
                      (CodeBuilder.Line "#!/bin/sh" []))
       = Returns b'
       /\ CodeBuilder._code b' = [Some "#!/bin/sh"; Some "  exit 0"].
Proof.
  intros b.
  destruct (push_unshift_commute string (fun s _ => s) b
              (CodeBuilder.Indented 1 "exit 0" []) (CodeBuilder.Line "#!/bin/sh" [])
              _ _ eq_refl eq_refl) as (b' & Hp & Hu & Hc & _).
  split; [rewrite Hp, Hu; reflexivity|].
  exists b'. split; [exact Hp|exact Hc].
Defined.

(** A negative level makes [push] throw, with a message that shows it. *)
Example push_negative_level :
  CodeBuilder.push string (fun s _ => s) (CodeBuilder.new "  " LF)
    (CodeBuilder.Indented (-2) "x" [])
  = Throws "Invalid count value: -2".
Proof. reflexivity. Qed.

Lemma unshift_join_witness :
  let b := CodeBuilder.blank (CodeBuilder.new "  " LF) in
  exists b',
    CodeBuilder.unshift string (fun s _ => s) b (CodeBuilder.Line "#!/bin/sh" [])
    = Returns b'
    /\ CodeBuilder.join b' = "#!/bin/sh" +:+ LF.
Proof.
  intros b. eexists. split; [reflexivity|].
  destruct (unshift_join string (fun s _ => s) b _ (CodeBuilder.Line "#!/bin/sh" [])
              eq_refl) as (line & Hl & _ & Hj).
  rewrite Hj. injection Hl as <-. reflexivity.
Defined.

(** ** From the constructor to the generator *)

Section EndToEnd.

Variable Options : Type.
Variable reduce_pair : obj QVal -> Pair -> obj QVal.
Variable url_parse : string -> UrlObject.
Variable JSON_parse : string -> option Json.
Variable multipart_render : list Param -> string -> string.
Variable validate_request : Har.Request -> option string.

(** X16: An instance made from a single request converts to the bare result
    of the resolved generator on the canonical form of that request; an
    instance made from an archive converts to one result per entry, in
    the order of the entries, as a sequence unless the archive has
    exactly one entry.  This in a registry without a target under the key
    [hasOwnProperty], and for a client key that names a client of the
    target or names no method that every object inherits. *)
Theorem construct_then_convert (data : HarData) (inst : HTTPSnippet)
    (targets : gmap string (gmap string (TargetProp Options)))
    (target : string) (client opts : Arg Options) t g :
  new_HTTPSnippet reduce_pair url_parse JSON_parse multipart_render
    validate_request data = Returns inst ->
  targets !! "hasOwnProperty" = None ->
  targets !! target = Some t ->
  resolved_client t client = Some g ->
  names_method t client = false ->
  exists cs,
    Forall2 (fun e c => prepare reduce_pair url_parse JSON_parse multipart_render
                          (fill_optional e) = Returns c)
      (entries_of data) cs
    /\ convert Options targets (requests inst) target client opts
       = Returns (one_or_many
                    (map (fun c => generate Options g c (passed_options client opts)) cs))
    /\ (forall r, data = SingleRequest r ->
          exists c, cs = [c]
            /\ convert Options targets (requests inst) target client opts
               = Returns (ConvOne (generate Options g c (passed_options client opts)))).
Proof.
  intros Hb Hs Ht Hg Hn. unfold new_HTTPSnippet in Hb.
  destruct (construct_entries _ _ _ _ _ (entries_of data) []) as [rs|m|rs|] eqn:Hl;
    try discriminate.
  simpl in Hb. injection Hb as <-. simpl.
  assert (Hall : forall entries acc rs',
            construct_entries reduce_pair url_parse JSON_parse multipart_render
              validate_request entries acc = Returns rs' ->
            exists cs, rs' = acc ++ cs
              /\ Forall2 (fun e c => prepare reduce_pair url_parse JSON_parse
                                       multipart_render (fill_optional e) = Returns c)
                   entries cs).
  { induction entries as [|e rest IH]; intros acc rs' H; simpl in H.
    - injection H as <-. exists []. rewrite app_nil_r. split; [reflexivity|constructor].
    - destruct (validate_request (fill_optional e)); [discriminate|].
      destruct (prepare _ _ _ _ (fill_optional e)) as [c|m|c|] eqn:Hc;
        try discriminate.
      simpl in H. destruct (IH _ _ H) as (cs & -> & Hcs).
      exists (c :: cs). rewrite <- app_assoc. split; [reflexivity|].
      constructor; assumption. }
  destruct (Hall _ _ _ Hl) as (cs & -> & Hcs). simpl.
  exists cs. split; [exact Hcs|].
  rewrite (convert_resolved Options targets cs target t client opts g Hs Ht Hg Hn).
  split; [reflexivity|].
  intros r ->. simpl in Hcs. inversion Hcs as [|? c ? cs' Hc Hrest]; subst.
  inversion Hrest; subst. exists c. split; reflexivity.
Qed.

End EndToEnd.

Lemma construct_then_convert_witness :
  exists inst,
    new_HTTPSnippet reducer url_parse_basic json_parse form_data_render
      method_present (SingleRequest (bare_request "http://x.test/p?x=1"))
    = Returns inst
    /\ convert (obj string) sample_targets (requests inst) "shell"
         (ArgString "wget") (ArgOptions [])
       = Returns (ConvOne "wget http://x.test/p object").
Proof.
  eexists. split; [reflexivity|].
  destruct (construct_then_convert (obj string) reducer url_parse_basic json_parse
              form_data_render method_present
              (SingleRequest (bare_request "http://x.test/p?x=1")) _
              sample_targets "shell" (ArgString "wget") (ArgOptions [])
              (sample_target "shell") (show_options "wget") eq_refl eq_refl eq_refl
              eq_refl eq_refl)
    as (cs & Hcs & _ & Hone).
  destruct (Hone _ eq_refl) as (c & -> & Hconv).
  rewrite Hconv. inversion Hcs as [|? ? ? ? Hc _]; subst.
  vm_compute in Hc. injection Hc as <-. reflexivity.
Defined.

(** ** Header lookups in [allHeaders] *)

Section AllHeadersLookup.

Variable reduce_pair : obj QVal -> Pair -> obj QVal.
Variable url_parse : string -> UrlObject.
Variable JSON_parse : string -> option Json.
Variable multipart_render : list Param -> string -> string.

(** X12: A case-insensitive lookup in [allHeaders] finds what it finds in the
    headers object, key and value, for every name that is not an array
    index and is not [cookie] ignoring case: the synthesised cookie
    header never hides or reorders the explicit headers. *)
Theorem allHeaders_lookup (request : Har.Request) (n : string) :
  array_index (toLowerCase n) = None ->
  same_header n "cookie" = false ->
  exists c, prepare reduce_pair url_parse JSON_parse multipart_render request = Returns c
    /\ getHeader (allHeaders c) n = getHeader (headersObj c) n
    /\ getHeaderName (allHeaders c) n = getHeaderName (headersObj c) n
    /\ hasHeader (allHeaders c) n = hasHeader (headersObj c) n.
Proof.
  intros Hidx Hck.
  destruct (prepare_fields reduce_pair url_parse JSON_parse multipart_render request)
    as (pd' & h' & _ & c & Hc & Hh & _ & Ha & _).
  exists c. split; [exact Hc|].
  pose proof (headersObj_NoDup reduce_pair url_parse JSON_parse multipart_render
                request c Hc) as Hnd.
  pose proof (headersObj_no_proto reduce_pair url_parse JSON_parse multipart_render
                request c Hc) as Hp.
  rewrite Hh in Hnd, Hp. rewrite Ha, Hh. clear Ha Hh Hc.
  assert (Hnamed : forall k, same_header n k = true -> array_index k = None).
  { intros k Hk. destruct (array_index k) as [m|] eqn:Hi; [|reflexivity].
    apply array_index_lower in Hi as Hl. unfold same_header in Hk.
    apply String.eqb_eq in Hk. rewrite Hl in Hk. rewrite <- Hk in Hidx. congruence. }
  destruct (String.eqb_spec n "") as [->|Hnn].
  { destruct (empty_name_lookup (obj_assign (cookie_header (Har.cookies request)) h'))
      as (-> & -> & ->).
    destruct (empty_name_lookup h') as (-> & -> & ->).
    rewrite obj_assign_get by exact Hp. split; [|split; reflexivity].
    destruct (obj_get h' ""); [reflexivity|].
    unfold cookie_header. destruct (Har.cookies request); reflexivity. }
  assert (Hcookie : forall k, same_header n k = true ->
            obj_has (cookie_header (Har.cookies request)) k = false).
  { intros k Hk. unfold cookie_header.
    destruct (Har.cookies request) as [|ck cs]; [reflexivity|]. cbn [map].
    unfold obj_has. rewrite obj_get_set by discriminate. simpl obj_get.
    destruct (String.eqb_spec "cookie" k) as [<-|]; [congruence|reflexivity]. }
  assert (Hkeys : List.filter (same_header n)
                    (obj_keys (obj_assign (cookie_header (Har.cookies request)) h'))
                  = List.filter (same_header n) (obj_keys h')).
  { unfold obj_assign.
    rewrite (filter_keys_assign_fold (same_header n) Hnamed h' (obj_keys h') _ Hnd)
      by (intros x Hx; apply obj_get_In, Hx).
    assert (List.filter (same_header n)
              (obj_keys (cookie_header (Har.cookies request))) = []) as ->.
    { unfold cookie_header. destruct (Har.cookies request); [reflexivity|].
      cbn [map]. unfold obj_set, obj_define. simpl. rewrite Hck. reflexivity. }
    simpl. apply List.filter_ext_in. intros k Hin.
    destruct (same_header n k) eqn:Hk; [|reflexivity].
    rewrite (Hcookie k Hk). simpl.
    destruct (String.eqb_spec k "__proto__") as [->|]; [|reflexivity].
    apply obj_get_In in Hin. congruence. }
  assert (Hfind : find_key (same_header n)
                    (obj_assign (cookie_header (Har.cookies request)) h')
                  = find_key (same_header n) h').
  { unfold find_key. rewrite !find_as_filter, Hkeys. reflexivity. }
  rewrite !find_key_header_name by exact Hnn.
  unfold getHeader, hasHeader. rewrite Hfind.
  split; [|split; reflexivity].
  destruct (find_key (same_header n) h') as [k|] eqn:Hf; [|reflexivity].
  rewrite obj_assign_get by exact Hp. apply find_key_Some in Hf as [Hin _].
  apply obj_get_In in Hin. destruct (obj_get h' k); [reflexivity|congruence].
Qed.

End AllHeadersLookup.

Lemma allHeaders_lookup_witness :
  let request :=
    sample_request "http://x.test/upload" "HTTP/1.1" []
      [pair "Content-Type" "text/plain"; pair "content-type" "x"] [pair "sid" "1"]
      (sample_postData "multipart/form-data" None (Some [param "foo" "bar"])) in
  exists c, prepare_basic request = Returns c
    /\ getHeader (allHeaders c) "content-type"
       = Some "multipart/form-data; boundary=---011000010111000001101001"
    /\ getHeaderName (allHeaders c) "content-type" = Some "Content-Type".
Proof.
  intros request.
  destruct (allHeaders_lookup reducer url_parse_basic json_parse form_data_render
              request "content-type" eq_refl eq_refl) as (c & Hc & Hg & Hn & _).
  exists c. split; [exact Hc|]. rewrite Hg, Hn.
  unfold prepare_basic in Hc. vm_compute in Hc. injection Hc as <-.
  split; reflexivity.
Defined.

(** ** The synthesised [cookie] header *)

Lemma percent_byte_uri_chars (c : ascii) : all_chars uri_char (percent_byte c) = true.
Proof. destruct c as [[] [] [] [] [] [] [] []]; reflexivity. Qed.

Lemma encodeURIComponent_chars (s : string) :
  all_chars uri_char (encodeURIComponent s) = true.
Proof.
  unfold encodeURIComponent. induction s as [|c s IH]; simpl; [reflexivity|].
  destruct (unreserved c) eqn:Hc.
  - simpl. rewrite IH. unfold uri_char. rewrite Hc. reflexivity.
  - rewrite all_chars_app, percent_byte_uri_chars, IH. reflexivity.
Qed.

Lemma percent_decode_byte (c : ascii) (r : string) :
  percent_decode (percent_byte c +:+ r) = String c (percent_decode r).
Proof. destruct c as [[] [] [] [] [] [] [] []]; reflexivity. Qed.

Lemma percent_decode_kept (c : ascii) (r : string) :
  unreserved c = true -> percent_decode (String c r) = String c (percent_decode r).
Proof.
  intros Hc. destruct (Ascii.eqb_spec c "%") as [->|Hne]; [discriminate Hc|].
  destruct c as [[] [] [] [] [] [] [] []]; try reflexivity; congruence.
Qed.

(** Decoding the percent escapes undoes [encodeURIComponent]. *)
Lemma percent_decode_encode (s : string) :
  percent_decode (encodeURIComponent s) = s.
Proof.
  unfold encodeURIComponent. induction s as [|c s IH]; [reflexivity|].
  simpl escape_with. destruct (unreserved c) eqn:Hc.
  - rewrite (percent_decode_kept c _ Hc), IH. reflexivity.
  - rewrite percent_decode_byte, IH. reflexivity.
Qed.

Lemma split_all_none (c : ascii) (a : string) :
  contains_char c a = false -> split_all c a = [a].
Proof.
  induction a as [|d a IH]; simpl; intros H; [reflexivity|].
  apply orb_false_iff in H as [Hd Ha]. rewrite Hd, (IH Ha). reflexivity.
Qed.

Lemma split_all_app (c : ascii) (a b : string) :
  contains_char c a = false ->
  split_all c (a +:+ String c b) = a :: split_all c b.
Proof.
  induction a as [|d a IH]; simpl; intros H.
  - rewrite ?string_app_nil. simpl. rewrite Ascii.eqb_refl. reflexivity.
  - apply orb_false_iff in H as [Hd Ha]. rewrite ?string_app_cons. simpl.
    rewrite Hd, (IH Ha). reflexivity.
Qed.

Lemma cookie_text_no_semicolon (ck : Pair) :
  contains_char ";" (cookie_text ck) = false.
Proof.
  unfold cookie_text. rewrite !contains_char_app.
  rewrite (all_chars_excludes uri_char ";" _ eq_refl (encodeURIComponent_chars _)).
  rewrite (all_chars_excludes uri_char ";" _ eq_refl (encodeURIComponent_chars _)).
  reflexivity.
Qed.

Lemma read_cookie_text (ck : Pair) : read_cookie (cookie_text ck) = ck.
Proof.
  unfold read_cookie, cookie_text.
  change (encodeURIComponent (name ck) +:+ "=" +:+ encodeURIComponent (value ck))
    with (encodeURIComponent (name ck) +:+ String "=" (encodeURIComponent (value ck))).
  rewrite split_at_app
    by (apply (all_chars_excludes uri_char); [reflexivity|apply encodeURIComponent_chars]).
  simpl. rewrite !percent_decode_encode. destruct ck; reflexivity.
Qed.

Lemma split_all_cookies (ck : Pair) (cs : list Pair) :
  split_all ";" (join "; " (map cookie_text (ck :: cs)))
  = cookie_text ck :: map (fun c => " " +:+ cookie_text c) cs.
Proof.
  revert ck. induction cs as [|c cs IH]; intros ck.
  - simpl. apply split_all_none, cookie_text_no_semicolon.
  - change (join "; " (map cookie_text (ck :: c :: cs)))
      with (cookie_text ck +:+ String ";" (" " +:+ join "; " (map cookie_text (c :: cs)))).
    rewrite split_all_app by apply cookie_text_no_semicolon.
    f_equal. change (" " +:+ join "; " (map cookie_text (c :: cs)))
      with (String " " (join "; " (map cookie_text (c :: cs)))).
    cbn [split_all]. simpl Ascii.eqb. cbn iota. rewrite IH. reflexivity.
Qed.

Lemma read_cookie_header_join (ck : Pair) (cs : list Pair) :
  read_cookie_header (join "; " (map cookie_text (ck :: cs))) = ck :: cs.
Proof.
  unfold read_cookie_header, cookie_parts. rewrite split_all_cookies.
  cbn [map]. rewrite read_cookie_text. f_equal.
  rewrite !map_map. induction cs as [|c cs IH]; [reflexivity|].
  cbn [map]. rewrite IH. f_equal. apply read_cookie_text.
Qed.

Section CookieHeader.

Variable reduce_pair : obj QVal -> Pair -> obj QVal.
Variable url_parse : string -> UrlObject.
Variable JSON_parse : string -> option Json.
Variable multipart_render : list Param -> string -> string.

(** X13: When the request has cookies and no explicit header under the key
    [cookie], [allHeaders] has a [cookie] header from which the cookies
    can be read back, names and values, in their order, whatever
    characters they hold; without cookies no [cookie] header is added. *)
Theorem cookie_header_round_trip (request : Har.Request) :
  exists c, prepare reduce_pair url_parse JSON_parse multipart_render request = Returns c
    /\ (obj_get (headersObj c) "cookie" = None ->
        match Har.cookies request with
        | [] => obj_get (allHeaders c) "cookie" = None
        | _ => exists header,
                 obj_get (allHeaders c) "cookie" = Some header
                 /\ read_cookie_header header = Har.cookies request
        end).
Proof.
  destruct (prepare_fields reduce_pair url_parse JSON_parse multipart_render request)
    as (pd' & h' & _ & c & Hc & Hh & _ & Ha & _).
  pose proof (headersObj_no_proto reduce_pair url_parse JSON_parse multipart_render
                request c Hc) as Hp.
  exists c. split; [exact Hc|]. rewrite Hh in Hp. rewrite Ha, Hh. intros Hno.
  rewrite obj_assign_get by exact Hp. rewrite Hno. unfold cookie_header.
  destruct (Har.cookies request) as [|ck cs]; [reflexivity|].
  cbn [map]. eexists. split; [apply obj_get_set_eq; discriminate|].
  apply (read_cookie_header_join ck cs).
Qed.

End CookieHeader.

Example cookie_header_example :
  exists c,
    prepare_basic
      (sample_request "http://x.test/" "HTTP/1.1" [] []
         [pair "a b" "1;2"; pair "c=d" "e%"] no_body)
    = Returns c
    /\ obj_get (allHeaders c) "cookie" = Some "a%20b=1%3B2; c%3Dd=e%25"
    /\ read_cookie_header "a%20b=1%3B2; c%3Dd=e%25"
       = [pair "a b" "1;2"; pair "c=d" "e%"].
Proof. eexists. repeat split; reflexivity. Qed.

Lemma sample_shell_own (t : gmap string (TargetProp (obj string))) :
  sample_targets !! "shell" = Some t -> t !! "hasOwnProperty" = None.
Proof.
  intros H. unfold sample_targets in H.
  apply lookup_singleton_Some in H as [_ <-]. reflexivity.
Qed.

Lemma addTargetClient_spec_witness :
  (exists msg,
     addTargetClient (obj string) "shell" (sample_client "curl") sample_targets
     = (Throws msg, sample_targets))
  /\ addTargetClient (obj string) "shell" (sample_client "httpie") sample_targets
     = (Returns tt,
        <["shell" :=
            <["httpie" :=
                TClient {| client_info := {[ "key" := "httpie"; "title" := "httpie" ]};
                           generate := generate (obj string) (show_options "httpie") |}]>
              (sample_target "shell")]> sample_targets).
Proof.
  destruct (addTargetClient_spec (obj string) "shell" (sample_client "curl")
              sample_targets sample_targets_wf eq_refl sample_shell_own)
    as (Hfail & _).
  destruct (addTargetClient_spec (obj string) "shell" (sample_client "httpie")
              sample_targets sample_targets_wf eq_refl sample_shell_own)
    as (_ & _ & _ & Hok).
  split.
  - apply Hfail. right. right. right.
    exists (sample_target "shell"), {[ "key" := "curl"; "title" := "curl" ]}.
    split; [reflexivity|]. split; [reflexivity|]. eexists. reflexivity.
  - apply (Hok (sample_target "shell") {[ "key" := "httpie"; "title" := "httpie" ]}
             "httpie"); try reflexivity. eexists. reflexivity.
Defined.
